(** * wx.tools.img2py: embedding an image in a Python module

    A shallow embedding of [src/wx/tools/img2py.py] and the properties of
    its encoder, catalog reconciler and emitter.

    Conventions of the model:
    - a Python [bytes] object is a [list byte];
    - a Python [str] is a [string] (8-bit characters, ASCII classification);
    - the filesystem is a flat finite map from paths to file contents,
      [sys.stdout] is the list of the chunks written to it;
    - an exception is a value of [exn] threaded through an error/state monad. *)

From Stdlib Require Import NArith ZArith Lia.
From Stdlib.Strings Require Import Ascii String Byte.
From stdpp Require Import base option list strings gmap.

Local Open Scope N_scope.

#[local] Arguments String.append !_ _ / : simpl nomatch.

(** ** Characters and string helpers *)

Definition LF : ascii := "010"%char.
Definition CR : ascii := "013"%char.
Definition TAB : ascii := "009"%char.
Definition DQUOTE : ascii := "034"%char.
Definition SQUOTE : ascii := "'"%char.
Definition BACKSLASH : ascii := "\"%char.

Definition nl : string := String LF "".
Definition dq : string := String DQUOTE "".

(** [sep.join(lines)] *)
Definition join (sep : string) (l : list string) : string := String.concat sep l.

(** [c * n] for a one-character string *)
Fixpoint replicate_char (n : nat) (c : ascii) : string :=
  match n with
  | O => ""
  | S n' => String c (replicate_char n' c)
  end.

(** ** [base64.b64encode] (RFC 4648 alphabet, with padding) *)

Module Base64.

Definition alphabet : list byte :=
  list_byte_of_string
    "ABCDEFGHIJKLMNOPQRSTUVWXYZabcdefghijklmnopqrstuvwxyz0123456789+/".

Definition PAD : byte := "="%byte.

(** [table_b2a_base64[n]] *)
Definition b2a (n : N) : byte := nth (N.to_nat n) alphabet PAD.

(** index of a byte in a table *)
Fixpoint index_of (ch : byte) (tbl : list byte) (i : N) : option N :=
  match tbl with
  | [] => None
  | x :: tbl' => if Byte.eqb ch x then Some i else index_of ch tbl' (i + 1)
  end.

(** [table_a2b_base64[ch]], [None] for a byte outside the alphabet *)
Definition a2b (ch : byte) : option N := index_of ch alphabet 0.

Definition byte_of_N (n : N) : byte :=
  match Byte.of_N (n mod 256) with
  | Some b => b
  | None => "000"%byte
  end.

(** three input bytes give four 6-bit groups; a final block of one or two
    bytes is zero-filled and padded with [=] *)
Fixpoint b64encode (bs : list byte) : list byte :=
  match bs with
  | [] => []
  | [a] =>
      let x := Byte.to_N a in
      [b2a (x / 4); b2a ((x mod 4) * 16); PAD; PAD]
  | [a; b] =>
      let x := Byte.to_N a in
      let y := Byte.to_N b in
      [b2a (x / 4); b2a ((x mod 4) * 16 + y / 16); b2a ((y mod 16) * 4); PAD]
  | a :: b :: c :: rest =>
      let x := Byte.to_N a in
      let y := Byte.to_N b in
      let z := Byte.to_N c in
      b2a (x / 4) :: b2a ((x mod 4) * 16 + y / 16)
        :: b2a ((y mod 16) * 4 + z / 64) :: b2a (z mod 64)
        :: b64encode rest
  end.

(** [binascii.a2b_base64] in its default, non-strict mode, which is what
    [base64.b64decode(s)] runs: bytes outside the alphabet are skipped, a
    padding sequence that completes a quad ends the input, and leftover
    characters of an incomplete quad are an error ([None]). *)
Fixpoint a2b_base64 (s : list byte) (quad_pos : nat) (leftchar : N)
    (pads : nat) (out : list byte) : option (list byte) :=
  match s with
  | [] => if Nat.eqb quad_pos 0 then Some out else None
  | ch :: s' =>
      if Byte.eqb ch PAD then
        if Nat.leb 2 quad_pos then
          if Nat.leb 4 (quad_pos + S pads) then Some out
          else a2b_base64 s' quad_pos leftchar (S pads) out
        else a2b_base64 s' quad_pos leftchar pads out
      else
        match a2b ch with
        | None => a2b_base64 s' quad_pos leftchar pads out
        | Some v =>
            match quad_pos with
            | 0%nat => a2b_base64 s' 1 v 0 out
            | 1%nat =>
                a2b_base64 s' 2 (v mod 16) 0
                  (out ++ [byte_of_N (leftchar * 4 + v / 16)])
            | 2%nat =>
                a2b_base64 s' 3 (v mod 4) 0
                  (out ++ [byte_of_N (leftchar * 16 + v / 4)])
            | _ =>
                a2b_base64 s' 0 0 0
                  (out ++ [byte_of_N (leftchar * 64 + v)])
            end
        end
  end.

Definition b64decode (s : list byte) : option (list byte) :=
  a2b_base64 s 0 0 0 [].

(** decoding a [str] argument: its ASCII bytes are decoded *)
Definition b64decode_str (s : string) : option (list byte) :=
  b64decode (list_byte_of_string s).

End Base64.

(** ** [str(part)] for a bytes object: [PyBytes_Repr] *)

Definition hexdigit (n : N) : ascii :=
  match String.get (N.to_nat n) "0123456789abcdef" with
  | Some c => c
  | None => "0"%char
  end.

Definition contains_byte (c : byte) (bs : list byte) : bool :=
  existsb (Byte.eqb c) bs.

(** the quote is ['] unless the bytes hold a ['] and no double quote *)
Definition repr_quote (bs : list byte) : ascii :=
  if contains_byte "'"%byte bs && negb (contains_byte "034"%byte bs)
  then DQUOTE else SQUOTE.

Definition repr_byte (quote : ascii) (b : byte) : string :=
  let c := ascii_of_byte b in
  let n := Byte.to_N b in
  if Ascii.eqb c quote || Ascii.eqb c BACKSLASH then String BACKSLASH (String c "")
  else if Ascii.eqb c TAB then "\t"
  else if Ascii.eqb c LF then "\n"
  else if Ascii.eqb c CR then "\r"
  else if (n <? 32) || (127 <=? n) then
    String BACKSLASH (String "x" (String (hexdigit (n / 16)) (String (hexdigit (n mod 16)) "")))
  else String c "".

Definition bytes_repr (bs : list byte) : string :=
  let q := repr_quote bs in
  "b" +:+ String q (String.concat "" (map (repr_byte q) bs)) +:+ String q "".

(** ** The encoding loop of [img2py] (source lines 195-205) *)

(** [while data: ...] with the list of lines built so far; [fuel] bounds the
    number of iterations, [None] means the bound was too small. *)
Fixpoint chunk_loop (fuel : nat) (data : list byte) (lines : list string)
    : option (list string) :=
  match data with
  | [] => Some lines
  | _ :: _ =>
      match fuel with
      | O => None
      | S fuel' =>
          let part := take 72 data in
          let data' := drop 72 data in
          let output := "    " +:+ bytes_repr part in
          let output := match data' with [] => output +:+ ")" | _ => output end in
          chunk_loop fuel' data' (lines ++ [output])
      end
  end.

(** [lines] at the end of the loop, for the bytes read from the temporary file *)
Definition encode_lines (png : list byte) : option (list string) :=
  let data := Base64.b64encode png in
  chunk_loop (length data) data [].

(** [data = "\n".join(lines)] *)
Definition encode_payload (png : list byte) : option string :=
  join nl <$> encode_lines png.


(** ** Python [str] operations used by the program *)

Module Str.

Definition is_digit (c : ascii) : bool :=
  let n := N_of_ascii c in (48 <=? n) && (n <=? 57).
Definition is_upper (c : ascii) : bool :=
  let n := N_of_ascii c in (65 <=? n) && (n <=? 90).
Definition is_lower (c : ascii) : bool :=
  let n := N_of_ascii c in (97 <=? n) && (n <=? 122).

(** [c.isalpha()] and [c.isalnum()] for a one-character string *)
Definition isalpha (c : ascii) : bool := is_upper c || is_lower c.
Definition isalnum (c : ascii) : bool := isalpha c || is_digit c.

(** [\s] of the [re] module and [str.isspace] *)
Definition isspace (c : ascii) : bool :=
  let n := N_of_ascii c in
  ((9 <=? n) && (n <=? 13)) || ((28 <=? n) && (n <=? 32)).

Definition upper_char (c : ascii) : ascii :=
  if is_lower c then ascii_of_N (N_of_ascii c - 32) else c.

(** [s.upper()] *)
Fixpoint upper (s : string) : string :=
  match s with
  | "" => ""
  | String c s' => String (upper_char c) (upper s')
  end.

(** [s[n:]] and [s[:n]] *)
Fixpoint drop (n : nat) (s : string) : string :=
  match n, s with
  | O, _ => s
  | S n', String _ s' => drop n' s'
  | S _, "" => ""
  end.

Fixpoint take (n : nat) (s : string) : string :=
  match n, s with
  | O, _ => ""
  | S n', String c s' => String c (take n' s')
  | S _, "" => ""
  end.

(** [s.startswith(p)] and [s.endswith(p)] *)
Definition startswith (s p : string) : bool := String.prefix p s.
Definition endswith (s p : string) : bool :=
  Nat.leb (String.length p) (String.length s)
  && String.eqb (drop (String.length s - String.length p) s) p.

(** [s.rfind(c)], [None] standing for -1 *)
Fixpoint rfind (c : ascii) (s : string) : option nat :=
  match s with
  | "" => None
  | String a s' =>
      match rfind c s' with
      | Some i => Some (S i)
      | None => if Ascii.eqb a c then Some O else None
      end
  end.

(** [x in l] for a list of strings *)
Definition mem (x : string) (l : list string) : bool :=
  existsb (String.eqb x) l.

Fixpoint all_chars (p : ascii → bool) (s : string) : bool :=
  match s with
  | "" => true
  | String c s' => p c && all_chars p s'
  end.

End Str.

(** ** [os.path] (posixpath) *)

Module Path.

(** [os.path.split(p)[1]] and [os.path.basename(p)]: what follows the last
    slash *)
Definition basename (p : string) : string :=
  match Str.rfind "/" p with
  | Some i => Str.drop (S i) p
  | None => p
  end.

(** [os.path.splitext(p)[0]]: the extension starts at the last dot, when that
    dot comes after the last slash and after a character of the file name
    that is not a dot *)
Definition splitext_root (p : string) : string :=
  let start := match Str.rfind "/" p with Some i => S i | None => O end in
  match Str.rfind "." p with
  | Some d =>
      if Nat.ltb start d
         && negb (Str.all_chars (Ascii.eqb ".") (Str.take (d - start) (Str.drop start p)))
      then Str.take d p
      else p
  | None => p
  end.

(** [os.path.join(a, b)] for strings *)
Definition join (a b : string) : string :=
  if Str.startswith b "/" then b
  else if String.eqb a "" || Str.endswith a "/" then a +:+ b
  else a +:+ "/" +:+ b.

End Path.

(** ** The fragment of [re] that [indexPattern] uses

    A pattern is a sequence of items: one character of a class, a greedy
    repetition of a class, and the two ends of the capturing group.  Matching
    is the backtracking search of [re.match]: anchored at the start of the
    string, not at its end; a repetition first takes as many characters as it
    can and gives them back one by one while the rest of the pattern fails. *)

Module Re.

Inductive cclass :=
| Chr (c : ascii)   (* a literal character *)
| Dot               (* [.]: any character but a newline *)
| Space.            (* [\s] *)

Inductive item :=
| One (c : cclass)
| Star (c : cclass)      (* [c*] *)
| Plus (c : cclass)      (* [c+] *)
| GroupOpen
| GroupClose.

Definition regex := list item.

Definition accepts (c : cclass) (a : ascii) : bool :=
  match c with
  | Chr x => Ascii.eqb a x
  | Dot => negb (Ascii.eqb a LF)
  | Space => Str.isspace a
  end.

(** greedy repetition of a class in front of the continuation [k] *)
Fixpoint star {A} (p : ascii → bool) (k : string → nat → option A)
    (s : string) (pos : nat) : option A :=
  match s with
  | String a s' =>
      if p a then
        match star p k s' (S pos) with
        | Some x => Some x
        | None => k s pos
        end
      else k s pos
  | "" => k "" pos
  end.

(** [go r s0 s pos gstart cap]: match [r] against [s], the suffix of the
    subject [s0] at offset [pos]; [gstart] is where the group was opened and
    [cap] its text once closed.  The result is [groups()[0]]. *)
Fixpoint go (r : regex) (s0 : string) (s : string) (pos gstart : nat)
    (cap : string) : option string :=
  match r with
  | [] => Some cap
  | One c :: r' =>
      match s with
      | String a s' =>
          if accepts c a then go r' s0 s' (S pos) gstart cap else None
      | "" => None
      end
  | Star c :: r' =>
      star (accepts c) (fun s1 pos1 => go r' s0 s1 pos1 gstart cap) s pos
  | Plus c :: r' =>
      match s with
      | String a s' =>
          if accepts c a then
            star (accepts c) (fun s1 pos1 => go r' s0 s1 pos1 gstart cap) s' (S pos)
          else None
      | "" => None
      end
  | GroupOpen :: r' => go r' s0 s pos pos cap
  | GroupClose :: r' =>
      go r' s0 s pos gstart (Str.take (pos - gstart) (Str.drop gstart s0))
  end.

(** [pattern.match(s)] followed by [.groups()[0]]; [None] when there is no
    match *)
Definition match_group (r : regex) (s : string) : option string :=
  go r s s 0 0 "".

Fixpoint lit (s : string) : regex :=
  match s with
  | "" => []
  | String c s' => One (Chr c) :: lit s'
  end.

End Re.

(** [indexPattern = re.compile(r"\s*index.append\('(.+)'\)\s*")] *)
Definition indexPattern : Re.regex :=
  [Re.Star Re.Space] ++ Re.lit "index" ++ [Re.One Re.Dot] ++ Re.lit "append('"
    ++ [Re.GroupOpen; Re.Plus Re.Dot; Re.GroupClose] ++ Re.lit "')"
    ++ [Re.Star Re.Space].

(** ** The world: files, standard output, exceptions *)

Inductive exn :=
| FileNotFoundError (path : string)
| IndexError
| TypeError
| ExternalError (msg : string)   (* raised inside the image codec *)
| LoopBound.                     (* the iteration bound of the model was hit *)

Inductive result (A : Type) :=
| Ok (a : A)
| Raise (e : exn).
Arguments Ok {A} a.
Arguments Raise {A} e.

Record world := World {
  files : gmap string string;   (* path to file contents *)
  stdout : list string          (* what was written to sys.stdout, in order *)
}.

(** a computation: it ends normally with a value or raises, and leaves a world *)
Definition M (A : Type) : Type := world → result A * world.

Definition ret {A} (a : A) : M A := λ w, (Ok a, w).
Definition raise {A} (e : exn) : M A := λ w, (Raise e, w).
Definition bind {A B} (m : M A) (f : A → M B) : M B :=
  λ w, match m w with
       | (Ok a, w') => f a w'
       | (Raise e, w') => (Raise e, w')
       end.

Global Instance M_ret : MRet M := @ret.
Global Instance M_bind : MBind M := λ A B f m, bind m f.

(** [try: body finally: fin] *)
Definition try_finally {A} (body : M A) (fin : M unit) : M A :=
  λ w, match body w with
       | (r, w1) =>
           match fin w1 with
           | (Ok _, w2) => (r, w2)
           | (Raise e, w2) => (Raise e, w2)
           end
       end.

Definition set_file (path content : string) (w : world) : world :=
  World (<[path := content]> (files w)) (stdout w).

(** [print(s)] *)
Definition print (s : string) : M unit :=
  λ w, (Ok tt, World (files w) (stdout w ++ [s +:+ nl])).

(** [open(path, "r")] or [open(path, "rb")] followed by [read()] *)
Definition read_file (path : string) : M string :=
  λ w, match files w !! path with
       | Some content => (Ok content, w)
       | None => (Raise (FileNotFoundError path), w)
       end.

(** [open(path, "w")] or [open(path, "wb")]: the file is created or emptied *)
Definition open_write (path : string) : M unit :=
  λ w, (Ok tt, set_file path "" w).

(** [open(path, "a")]: the file is created when it is missing *)
Definition open_append (path : string) : M unit :=
  λ w, match files w !! path with
       | Some _ => (Ok tt, w)
       | None => (Ok tt, set_file path "" w)
       end.

(** where [out.write] goes *)
Inductive stream :=
| Stdout
| File (path : string).

(** [out.write(s)] *)
Definition write (out : stream) (s : string) : M unit :=
  λ w, match out with
       | Stdout => (Ok tt, World (files w) (stdout w ++ [s]))
       | File path => (Ok tt, set_file path (default "" (files w !! path) +:+ s) w)
       end.

(** [os.path.exists(path)] and [os.remove(path)] *)
Definition path_exists (path : string) : M bool :=
  λ w, (Ok (bool_decide (is_Some (files w !! path))), w).

Definition os_remove (path : string) : M unit :=
  λ w, match files w !! path with
       | Some _ => (Ok tt, World (delete path (files w)) (stdout w))
       | None => (Raise (FileNotFoundError path), w)
       end.

(** reading in text mode translates ["\r\n"] and ["\r"] to ["\n"] *)
Fixpoint universal_newlines (s : string) : string :=
  match s with
  | "" => ""
  | String c s' =>
      if Ascii.eqb c CR then
        match s' with
        | String c' _ => if Ascii.eqb c' LF then universal_newlines s'
                         else String LF (universal_newlines s')
        | "" => nl
        end
      else String c (universal_newlines s')
  end.

(** the lines of a text, each with its newline, the last one possibly
    without *)
Fixpoint splitlines (s : string) : list string :=
  match s with
  | "" => []
  | String c s' =>
      if Ascii.eqb c LF then nl :: splitlines s'
      else match splitlines s' with
           | [] => [String c ""]
           | l :: ls => String c l :: ls
           end
  end.

(** [for line in open(path, "r")] *)
Definition read_lines (path : string) : M (list string) :=
  content ← read_file path; ret (splitlines (universal_newlines content)).

(** ** The program *)

(** [letters = [letter if letter.isalnum() else '_' for letter in imgName]] *)
Definition letters_of (imgName : string) : list ascii :=
  map (λ letter, if Str.isalnum letter then letter else "_"%char)
      (list_ascii_of_string imgName).

(** [letters[0]] raises [IndexError] on an empty list *)
Definition _replace_non_alphanumeric_with_underscore (imgName : string)
    : result string :=
  let letters := letters_of imgName in
  match letters with
  | [] => Raise IndexError
  | first :: _ =>
      let letters :=
        if negb (Str.isalpha first) && negb (Ascii.eqb first "_")
        then "_"%char :: letters else letters in
      Ok (string_of_list_ascii letters)
  end.

Definition lift {A} (r : result A) : M A := λ w, (r, w).

Section Program.

(** [sys.argv[0]] *)
Variable argv0 : string.
(** [wx.BITMAP_TYPE_PNG] *)
Variable BITMAP_TYPE_PNG : N.
(** [img2img.convert(fileName, maskClr, outputDir, outputName, outType, outExt)],
    the external image codec *)
Variable img2img_convert :
  string → option string → option string → option string → N → string →
  M (bool * string).
(** the name [tempfile.NamedTemporaryFile] picks, given the files present *)
Variable tempname : gmap string string → string.

(** truth value of an optional string: [None] and [""] are false *)
Definition truthy (s : option string) : bool :=
  match s with
  | Some x => negb (String.eqb x "")
  | None => false
  end.

(** source lines 113-117: where the copy goes; [os.path.join(None, ...)]
    raises [TypeError] *)
Definition new_name (fileName : string) (outputDir outputName : option string)
    (outExt : string) : result string :=
  if truthy outputName then Ok (default "" outputName)
  else match outputDir with
       | Some dir =>
           Ok (Path.join dir
                 (Path.basename (Path.splitext_root fileName) +:+ outExt))
       | None => Raise TypeError
       end.

Definition convert (fileName : string) (maskClr outputDir outputName : option string)
    (outType : N) (outExt : string) : M (bool * string) :=
  (* if the file is already the right type then just use it directly *)
  if bool_decide (maskClr = None)
     && Str.endswith (Str.upper fileName) (Str.upper outExt) then
    newname ← lift (new_name fileName outputDir outputName outExt);
    open_write newname;;
    content ← read_file fileName;
    write (File newname) content;;
    ret (true, "ok")
  else img2img_convert fileName maskClr outputDir outputName outType outExt.

(** source lines 136-141: what is written unless appending *)
Definition write_preamble (out : stream) (append catalog : bool) : M unit :=
  if negb append then
    write out ("# This file was generated by " +:+ argv0 +:+ nl +:+ "#" +:+ nl);;
    write out ("from wx.lib.embeddedimage import PyEmbeddedImage" +:+ nl +:+ nl);;
    (if catalog then
       write out ("catalog = {}" +:+ nl);;
       write out ("index = []" +:+ nl +:+ nl)
     else ret tt)
  else ret tt.

(** source lines 144-150: the catalog registration; the result is
    [old_index] after [old_index.append(imgName)] *)
Definition write_registration (out : stream) (imgName varName : string)
    (catalog : bool) (old_index : list string) : M (list string) :=
  if catalog then
    (if Str.mem imgName old_index then
       print ("Warning: " +:+ imgName +:+ " already in catalog.");;
       print ("         Only the last entry will be accessible." +:+ nl)
     else ret tt);;
    write out ("index.append('" +:+ imgName +:+ "')" +:+ nl);;
    write out ("catalog['" +:+ imgName +:+ "'] = " +:+ varName +:+ nl);;
    ret (old_index ++ [imgName])
  else ret old_index.

(** source lines 151-156: the accessor bindings *)
Definition write_accessors (out : stream) (varName : string)
    (icon functionCompatible : bool) : M unit :=
  if functionCompatible then
    write out ("get" +:+ varName +:+ "Data = " +:+ varName +:+ ".GetData" +:+ nl);;
    write out ("get" +:+ varName +:+ "Image = " +:+ varName +:+ ".GetImage" +:+ nl);;
    write out ("get" +:+ varName +:+ "Bitmap = " +:+ varName +:+ ".GetBitmap" +:+ nl);;
    (if icon then
       write out ("get" +:+ varName +:+ "Icon = " +:+ varName +:+ ".GetIcon" +:+ nl)
     else ret tt)
  else ret tt.

Definition _write_image (out : stream) (imgName data : string)
    (append icon catalog functionCompatible : bool) (old_index : list string)
    : M (list string) :=
  write out ("#" +:+ replicate_char 70 "-" +:+ nl);;
  write_preamble out append catalog;;
  varName ← lift (_replace_non_alphanumeric_with_underscore imgName);
  write out (varName +:+ " = PyEmbeddedImage(" +:+ nl +:+ data +:+ nl);;
  old_index ← write_registration out imgName varName catalog old_index;
  write_accessors out varName icon functionCompatible;;
  write out nl;;
  ret old_index.

(** [tempfile.NamedTemporaryFile(delete=False)]: an empty file is created,
    its name is kept *)
Definition NamedTemporaryFile : M string :=
  λ w, let tfname := tempname (files w) in (Ok tfname, set_file tfname "" w).

(** the body of the [try] of [img2py]: [None] is the early [return] *)
Definition encode_phase (image_file : string) (maskClr : option string)
    (tfname : string) : M (option string) :=
  '(ok, msg) ← convert image_file maskClr None (Some tfname) BITMAP_TYPE_PNG ".png";
  if negb ok then
    print msg;; ret None
  else
    content ← read_file tfname;
    match encode_payload (list_byte_of_string content) with
    | Some data => ret (Some data)
    | None => raise LoopBound
    end.

(** the [finally] of [img2py] *)
Definition cleanup (tfname : string) : M unit :=
  present ← path_exists tfname;
  if (present : bool) then os_remove tfname else ret tt.

(** one step of the scan of the existing artifact *)
Definition scan_line (st : bool * list string) (line : string)
    : bool * list string :=
  let '(append_catalog, old_index) := st in
  if String.eqb line ("catalog = {}" +:+ nl) then (false, old_index)
  else
    match Re.match_group indexPattern line with
    | Some name => (append_catalog, old_index ++ [name])
    | None => (append_catalog, old_index)
    end.

Definition scan (lines : list string) : bool * list string :=
  fold_left scan_line lines (true, []).

(** source lines 210-231: [old_index] after the reconciliation *)
Definition reconcile (python_file : string) (append catalog : bool)
    : M (list string) :=
  if catalog && append && negb (String.eqb python_file "-") then
    lines ← read_lines python_file;
    let '(append_catalog, old_index) := scan lines in
    (if append_catalog then
       open_append python_file;;
       write (File python_file)
         (nl +:+ "# ***************** Catalog starts here *******************");;
       write (File python_file) (nl +:+ nl +:+ "catalog = {}" +:+ nl);;
       write (File python_file) ("index = []" +:+ nl +:+ nl)
     else ret tt);;
    ret old_index
  else ret [].

(** source lines 185-208: the temporary file, the conversion and the
    encoding, with the cleanup *)
Definition conversion_phase (image_file : string) (maskClr : option string)
    : M (option string) :=
  tfname ← NamedTemporaryFile;
  try_finally (encode_phase image_file maskClr tfname) (cleanup tfname).

(** source lines 233-256: name, emission and summary *)
Definition emit_phase (image_file python_file : string) (append : bool)
    (maskClr : option string) (imgName : string)
    (icon catalog functionCompatible : bool) (data : string)
    (old_index : list string) : M unit :=
  imgName ←
    (if String.eqb imgName "" then
       let imgName := Path.splitext_root (Path.basename image_file) in
       print (nl +:+ "Warning: -n not specified. Using filename (" +:+ imgName
              +:+ ") for name of image and/or catalog entry.");;
       ret imgName
     else ret imgName);
  (if String.eqb python_file "-" then
     _write_image Stdout imgName data append icon catalog
       functionCompatible old_index
   else
     (if append then open_append python_file else open_write python_file);;
     _write_image (File python_file) imgName data append icon catalog
       functionCompatible old_index);;
  let n_msg := if negb (String.eqb imgName "")
               then " using " +:+ dq +:+ imgName +:+ dq else "" in
  let m_msg := if truthy maskClr
               then " with mask " +:+ default "" maskClr else "" in
  print ("Embedded " +:+ image_file +:+ n_msg +:+ " into " +:+ python_file
         +:+ m_msg).

Definition img2py (image_file python_file : string) (append compressed : bool)
    (maskClr : option string) (imgName : string)
    (icon catalog functionCompatible : bool) (functionCompatibile : option bool)
    : M unit :=
  (* was the typo version used? *)
  let functionCompatible := default functionCompatible functionCompatibile in
  (* wx.GetApp() / wx.App(0) leave the files and the output as they are *)
  r ← conversion_phase image_file maskClr;
  match r with
  | None => ret tt
  | Some data =>
      old_index ← reconcile python_file append catalog;
      emit_phase image_file python_file append maskClr imgName icon catalog
        functionCompatible data old_index
  end.

End Program.

(** ** Reading a payload back *)

(** [s] without the prefix [pre], when it has it *)
Definition chop_prefix (pre s : string) : string :=
  if String.prefix pre s then Str.drop (String.length pre) s else s.

(** [s] without the suffix [suf], when it has it *)
Fixpoint chop_suffix (suf s : string) : string :=
  match s with
  | "" => ""
  | String c s' => if String.eqb s suf then "" else String c (chop_suffix suf s')
  end.

(** [text.split("\n")] *)
Fixpoint split_nl (s : string) : list string :=
  match s with
  | "" => [""]
  | String c s' =>
      if Ascii.eqb c LF then "" :: split_nl s'
      else match split_nl s' with
           | l :: ls => String c l :: ls
           | [] => [String c ""]
           end
  end.

Definition strip_indent (line : string) : string := chop_prefix "    " line.
Definition strip_terminator (line : string) : string := chop_suffix ")" line.

(** the text between [b'] and ['] of a bytes literal *)
Definition unquote (line : string) : string :=
  chop_suffix "'" (chop_prefix "b'" line).

(** every chunk loses its indentation, the final one its terminator too *)
Fixpoint strip_chunks (ls : list string) : list string :=
  match ls with
  | [] => []
  | [l] => [strip_terminator (strip_indent l)]
  | l :: ls' => strip_indent l :: strip_chunks ls'
  end.

(** the chunks of a payload text without indentation, joining newlines and
    terminator *)
Definition payload_chunks (text : string) : list string :=
  strip_chunks (split_nl text).

(** the chunks read as bytes literals *)
Definition payload_literals (text : string) : list string :=
  map unquote (payload_chunks text).

(** decoding the chunks as they stand, and decoding the literals' contents *)
Definition decode_chunks (text : string) : option (list byte) :=
  Base64.b64decode_str (String.concat "" (payload_chunks text)).

Definition decode_literals (text : string) : option (list byte) :=
  Base64.b64decode_str (String.concat "" (payload_literals text)).

(** [c not in s] *)
Definition lacks (c : ascii) (s : string) : bool :=
  Str.all_chars (λ a, negb (Ascii.eqb a c)) s.

(** a byte of the base64 alphabet or the padding *)
Definition is_b64 (b : byte) : bool :=
  existsb (Byte.eqb b) (Base64.PAD :: Base64.alphabet).

(** a byte of the encoded text *)
Definition plain (b : byte) : Prop := is_b64 b = true.

(** the text of a chunk *)
Definition chunk_text (part : list byte) (final : bool) : string :=
  let output := "    " +:+ bytes_repr part in
  if final then output +:+ ")" else output.

(** the two tables agree at [n] *)
Definition sextet_ok (n : N) : bool :=
  match Base64.a2b (Base64.b2a n) with
  | Some m => N.eqb m n && negb (Byte.eqb (Base64.b2a n) Base64.PAD)
  | None => false
  end.

(** a letter, a digit or an underscore *)
Definition ident_char (c : ascii) : bool := Str.isalnum c || Ascii.eqb c "_".

(** a letter or an underscore *)
Definition ident_start (c : ascii) : bool := Str.isalpha c || Ascii.eqb c "_".

(** only identifier characters, the first one a letter or an underscore *)
Definition is_identifier (v : string) : bool :=
  match v with
  | "" => false
  | String c _ => ident_start c && Str.all_chars ident_char v
  end.

(** ** The text of a record, piece by piece *)

Definition separator : string := "#" +:+ replicate_char 70 "-" +:+ nl.

Definition header_text (argv0 : string) : string :=
  "# This file was generated by " +:+ argv0 +:+ nl +:+ "#" +:+ nl.

Definition import_text : string :=
  "from wx.lib.embeddedimage import PyEmbeddedImage" +:+ nl +:+ nl.

Definition marker_line : string := "catalog = {}" +:+ nl.

Definition scaffold_text : string := marker_line +:+ "index = []" +:+ nl +:+ nl.

(** what the reconciler appends when it finds no scaffolding *)
Definition catalog_start_text : string :=
  nl +:+ "# ***************** Catalog starts here *******************"
     +:+ nl +:+ nl +:+ scaffold_text.

Definition assignment_text (varName data : string) : string :=
  varName +:+ " = PyEmbeddedImage(" +:+ nl +:+ data +:+ nl.

Definition index_line (imgName : string) : string :=
  "index.append('" +:+ imgName +:+ "')" +:+ nl.

Definition catalog_line (imgName varName : string) : string :=
  "catalog['" +:+ imgName +:+ "'] = " +:+ varName +:+ nl.

Definition accessor_line (varName what : string) : string :=
  "get" +:+ varName +:+ what +:+ " = " +:+ varName +:+ ".Get" +:+ what +:+ nl.

Definition accessors_text (varName : string) (icon : bool) : string :=
  accessor_line varName "Data" +:+ accessor_line varName "Image"
    +:+ accessor_line varName "Bitmap"
    +:+ (if icon then accessor_line varName "Icon" else "").

(** header comment, import and, in catalog mode, scaffolding: written
    unless appending *)
Definition preamble_text (argv0 : string) (append catalog : bool) : string :=
  if append then ""
  else header_text argv0 +:+ import_text +:+ (if catalog then scaffold_text else "").

Definition record_text (imgName varName data : string)
    (icon catalog functionCompatible : bool) : string :=
  assignment_text varName data
    +:+ (if catalog then index_line imgName +:+ catalog_line imgName varName else "")
    +:+ (if functionCompatible then accessors_text varName icon else "")
    +:+ nl.

(** everything one call of the emitter writes *)
Definition image_text (argv0 imgName varName data : string)
    (append icon catalog functionCompatible : bool) : string :=
  separator +:+ preamble_text argv0 append catalog
    +:+ record_text imgName varName data icon catalog functionCompatible.

(** the two lines of the shadowing warning, as printed *)
Definition shadow_warning (imgName : string) : list string :=
  [("Warning: " +:+ imgName +:+ " already in catalog.") +:+ nl;
   ("         Only the last entry will be accessible." +:+ nl) +:+ nl].

(** the content of a file, empty when it is missing *)
Definition content (path : string) (w : world) : string :=
  default "" (files w !! path).

(** the world where file [p] holds [c] and standard output is [l] *)
Definition st (p c : string) (l : list string) (w : world) : world :=
  World (<[p := c]> (files w)) l.

(** the lines a text-mode reader gets from a file content *)
Definition text_lines (content : string) : list string :=
  splitlines (universal_newlines content).

(** the name the record is written under: the given one, or the stem of the
    image file *)
Definition resolved_name (imgName image_file : string) : string :=
  if String.eqb imgName "" then Path.splitext_root (Path.basename image_file)
  else imgName.

(** what is printed when the name is derived *)
Definition name_warning (imgName image_file : string) : list string :=
  if String.eqb imgName "" then
    [(nl +:+ "Warning: -n not specified. Using filename ("
         +:+ resolved_name imgName image_file
         +:+ ") for name of image and/or catalog entry.") +:+ nl]
  else [].

(** the final line printed by [img2py] *)
Definition summary_line (image_file python_file : string)
    (maskClr : option string) (name : string) : string :=
  ("Embedded " +:+ image_file
     +:+ (if negb (String.eqb name "") then " using " +:+ dq +:+ name +:+ dq else "")
     +:+ " into " +:+ python_file
     +:+ (if truthy maskClr then " with mask " +:+ default "" maskClr else ""))
    +:+ nl.

(** ** Sample environments *)

Module Sample.

(** a codec that cannot load anything *)
Definition failing_codec (fileName : string) (maskClr outputDir outputName : option string)
    (outType : N) (outExt : string) : M (bool * string) :=
  ret (false, fileName +:+ " failed to load!").

(** a name generator for temporary files *)
Definition tempname (fs : gmap string string) : string := "/tmp/tmp0".

(** a directory with one PNG image *)
Definition one_image : world := World {[ "a.png" := "hello" ]} [].

(** the same with an empty artifact [out.py] *)
Definition empty_artifact : world :=
  World (<[ "out.py" := "" ]> {[ "a.png" := "hello" ]}) [].

(** the same with an artifact that has the scaffolding and a record named
    [a]: what an invocation in catalog mode leaves, without its header *)
Definition catalog_artifact : world :=
  World (<[ "out.py" := scaffold_text +:+ separator
                          +:+ record_text "a" "a" "    b'aGVsbG8=')" false true false ]>
           {[ "a.png" := "hello" ]}) [].

(** a name with a line break in it, whose middle line is the marker *)
Definition broken_name : string :=
  "x" +:+ nl +:+ "catalog = {}" +:+ nl +:+ "y".

End Sample.

(** whether the reconciler runs (source line 211) *)
Definition reconciles (python_file : string) (append catalog : bool) : bool :=
  catalog && append && negb (String.eqb python_file "-").

(** what the reconciler appends: the catalog start when it runs and finds no
    marker line *)
Definition reconciled_text (python_file : string) (append catalog : bool)
    (old : string) : string :=
  if reconciles python_file append catalog && (scan (text_lines old)).1
  then catalog_start_text else "".

(** the known names the emitter gets *)
Definition reconciled_index (python_file : string) (append catalog : bool)
    (old : string) : list string :=
  if reconciles python_file append catalog then (scan (text_lines old)).2 else [].

(** ** Lines, names and markers *)

(** a line with its newline: one line feed, at the end *)
Fixpoint is_line (l : string) : bool :=
  match l with
  | "" => false
  | String c l' => if Ascii.eqb c LF then String.eqb l' "" else is_line l'
  end.

(** the item is the literal ['] *)
Definition is_quote_item (it : Re.item) : bool :=
  match it with
  | Re.One (Re.Chr c) => Ascii.eqb c "'"
  | _ => false
  end.

(** a match of the pattern has to read a ['] *)
Definition needs_quote (r : Re.regex) : bool := existsb is_quote_item r.

(** only repetitions that may be empty *)
Fixpoint only_stars (r : Re.regex) : bool :=
  match r with
  | [] => true
  | Re.Star _ :: r' => only_stars r'
  | _ => false
  end.

(** what the pattern does at the end of the subject does not depend on a
    text without ['] and not starting with [)] put after it *)
Definition junction_ok (r : Re.regex) : bool :=
  needs_quote r
  || only_stars r
  || match r with
     | Re.One (Re.Chr c) :: _ => Ascii.eqb c ")"
     | _ => false
     end.

Fixpoint all_ok (r : Re.regex) : bool :=
  junction_ok r && match r with [] => true | _ :: r' => all_ok r' end.

(** the end of [indexPattern], from the end of the group *)
Definition closing : Re.regex :=
  [Re.GroupClose] ++ Re.lit "')" ++ [Re.Star Re.Space].

(** what a line contributes to the known names *)
Definition line_name (l : string) : option string :=
  if String.eqb l marker_line then None else Re.match_group indexPattern l.

(** the names registered in a sequence of lines *)
Definition names (lines : list string) : list string := omap line_name lines.

Definition has_marker (lines : list string) : bool :=
  existsb (λ l, String.eqb l marker_line) lines.

(** the number of scaffolding marker lines *)
Definition marker_count (lines : list string) : nat :=
  length (List.filter (λ l, String.eqb l marker_line) lines).

(** a payload: what the encoding loop makes of some bytes *)
Definition is_payload (data : string) : Prop :=
  ∃ png, encode_payload png = Some data.

(** a line of a payload in the artifact: an indented bytes literal, or the
    empty line of the empty payload *)
Definition payload_line (l : string) : Prop :=
  is_line l = true ∧ lacks CR l = true
  ∧ (l = nl ∨ ∃ x, l = "    b'" +:+ x).

(** an indented bytes literal without line end *)
Definition chunk_shape (l : string) : Prop :=
  lacks LF l = true ∧ lacks CR l = true ∧ ∃ x, l = "    b'" +:+ x.

(** the lines of a record, [dl] being those of the payload *)
Definition registration_lines (imgName varName : string) (catalog : bool)
    : list string :=
  if catalog then [index_line imgName; catalog_line imgName varName] else [].

Definition accessor_lines (varName : string) (icon functionCompatible : bool)
    : list string :=
  if functionCompatible then
    [accessor_line varName "Data"; accessor_line varName "Image";
     accessor_line varName "Bitmap"]
      ++ (if icon then [accessor_line varName "Icon"] else [])
  else [].

Definition record_lines (imgName varName : string) (dl : list string)
    (icon catalog functionCompatible : bool) : list string :=
  [separator; (varName +:+ " = PyEmbeddedImage(") +:+ nl] ++ dl
    ++ registration_lines imgName varName catalog
    ++ accessor_lines varName icon functionCompatible
    ++ [nl].

(** the lines of the catalog start, after its first line feed *)
Definition catalog_start_lines : list string :=
  ["# ***************** Catalog starts here *******************" +:+ nl;
   nl; marker_line; "index = []" +:+ nl; nl].

(** a full line without carriage return that is not the marker *)
Definition good_line (l : string) : Prop :=
  is_line l = true ∧ lacks CR l = true ∧ String.eqb l marker_line = false.

(** a good line that registers no name *)
Definition silent (l : string) : Prop := good_line l ∧ line_name l = None.

(** a full line without carriage return *)
Definition full_line (l : string) : Prop :=
  is_line l = true ∧ lacks CR l = true.

(** the first line of a text to append: no ['], not starting with [)] *)
Definition quiet_start (ls : list string) : Prop :=
  match ls with
  | y :: _ => lacks "'" y = true ∧ String.prefix ")" y = false
  | [] => False
  end.

(** ** [getopt.getopt] with short options only

    [main] calls [getopt.getopt(args, "auicfFn:m:")], without long options. *)

Module Getopt.

Inductive outcome :=
| Parsed (opts : list (string * string)) (args : list string)
| GetoptError
| Unfinished.

(** [short_has_arg]: whether the option letter takes an argument; [None]
    stands for [GetoptError], the letter not being in [shortopts] *)
Fixpoint short_has_arg (opt : ascii) (shortopts : string) : option bool :=
  match shortopts with
  | "" => None
  | String c rest =>
      if Ascii.eqb opt c && negb (Ascii.eqb c ":")
      then Some (String.prefix ":" rest)
      else short_has_arg opt rest
  end.

(** [do_shorts]: the letters of one argument, after its dash; an option with
    an argument takes the rest of the letters or, when there is none, the
    next argument *)
Fixpoint do_shorts (opts : list (string * string)) (optstring shortopts : string)
    (args : list string) : outcome :=
  match optstring with
  | "" => Parsed opts args
  | String opt optstring' =>
      match short_has_arg opt shortopts with
      | None => GetoptError
      | Some true =>
          if String.eqb optstring' "" then
            match args with
            | [] => GetoptError
            | optarg :: args' => Parsed (opts ++ [(String "-" (String opt ""), optarg)]) args'
            end
          else Parsed (opts ++ [(String "-" (String opt ""), optstring')]) args
      | Some false =>
          do_shorts (opts ++ [(String "-" (String opt ""), "")]) optstring'
            shortopts args
      end
  end.

(** the [while] loop of [getopt]; an argument starting with two dashes other
    than [--] is a long option, and no long option is known; [fuel] bounds
    the number of iterations *)
Fixpoint getopt_loop (fuel : nat) (opts : list (string * string))
    (args : list string) (shortopts : string) : outcome :=
  match args with
  | a :: rest =>
      if Str.startswith a "-" && negb (String.eqb a "-") then
        match fuel with
        | O => Unfinished
        | S fuel' =>
            if String.eqb a "--" then Parsed opts rest
            else if Str.startswith a "--" then GetoptError
            else
              match do_shorts opts (Str.drop 1 a) shortopts rest with
              | Parsed opts' args' => getopt_loop fuel' opts' args' shortopts
              | e => e
              end
        end
      else Parsed opts args
  | [] => Parsed opts args
  end.

Definition getopt (args : list string) (shortopts : string) : outcome :=
  getopt_loop (length args) [] args shortopts.

End Getopt.

(** ** [main] (source lines 258-301) *)

(** the local variables of [main] that the options set *)
Record settings := Settings {
  opt_append : bool;
  opt_compressed : bool;
  opt_maskClr : option string;
  opt_imgName : string;
  opt_icon : bool;
  opt_catalog : bool;
  opt_compatible : bool
}.

(** [DEFAULT_APPEND], [DEFAULT_COMPRESSED], ... *)
Definition default_settings : settings :=
  Settings false true None "" false false false.

(** one turn of [for opt, val in opts]; [-u] is accepted and does nothing *)
Definition set_option (s : settings) (ov : string * string) : settings :=
  let '(opt, val) := ov in
  let '(Settings append compressed maskClr imgName icon catalog compatible) := s in
  if String.eqb opt "-a" then
    Settings true compressed maskClr imgName icon catalog compatible
  else if String.eqb opt "-n" then
    Settings append compressed maskClr val icon catalog compatible
  else if String.eqb opt "-m" then
    Settings append compressed (Some val) imgName icon catalog compatible
  else if String.eqb opt "-i" then
    Settings append compressed maskClr imgName true catalog compatible
  else if String.eqb opt "-c" then
    Settings append compressed maskClr imgName icon true compatible
  else if String.eqb opt "-f" then
    Settings append compressed maskClr imgName icon catalog true
  else if String.eqb opt "-F" then
    Settings append compressed maskClr imgName icon catalog false
  else s.

Section Main.

Variable argv0 : string.
Variable BITMAP_TYPE_PNG : N.
Variable img2img_convert :
  string → option string → option string → option string → N → string →
  M (bool * string).
Variable tempname : gmap string string → string.
(** [sys.argv[1:]] and the module's [__doc__] *)
Variable argv_tail : list string.
Variable doc : string.

(** [args] is [[]] for a call without arguments *)
Definition main (args : list string) : M unit :=
  let args := match args with [] => argv_tail | _ :: _ => args end in
  if match args with [] => true | _ :: _ => false end || Str.mem "-h" args then
    print doc
  else
    match Getopt.getopt args "auicfFn:m:" with
    | Getopt.GetoptError => print doc
    | Getopt.Unfinished => raise LoopBound
    | Getopt.Parsed opts fileArgs =>
        let s := fold_left set_option opts default_settings in
        match fileArgs with
        | [image_file; python_file] =>
            img2py argv0 BITMAP_TYPE_PNG img2img_convert tempname
              image_file python_file (opt_append s) (opt_compressed s)
              (opt_maskClr s) (opt_imgName s) (opt_icon s) (opt_catalog s)
              (opt_compatible s) None
        | _ => print doc
        end
    end.

End Main.

(** ** A command line, option by option *)

Inductive cli_option :=
| OptAppend | OptUnused | OptIcon | OptCatalog | OptCompatible | OptNotCompatible
| OptName (name : string)
| OptMask (colour : string).

(** the arguments an option is written as, its value in an argument of its
    own *)
Definition option_args (o : cli_option) : list string :=
  match o with
  | OptAppend => ["-a"]
  | OptUnused => ["-u"]
  | OptIcon => ["-i"]
  | OptCatalog => ["-c"]
  | OptCompatible => ["-f"]
  | OptNotCompatible => ["-F"]
  | OptName name => ["-n"; name]
  | OptMask colour => ["-m"; colour]
  end.

Definition command_line (os : list cli_option) (files : list string) : list string :=
  concat (map option_args os) ++ files.

(** the option and value [getopt] reports *)
Definition option_pair (o : cli_option) : string * string :=
  match o with
  | OptAppend => ("-a", "")
  | OptUnused => ("-u", "")
  | OptIcon => ("-i", "")
  | OptCatalog => ("-c", "")
  | OptCompatible => ("-f", "")
  | OptNotCompatible => ("-F", "")
  | OptName name => ("-n", name)
  | OptMask colour => ("-m", colour)
  end.

(** what the options ask for: a flag is on when it occurs, and of the names,
    the mask colours and the two compatibility flags the last one counts *)
Definition has_append (os : list cli_option) : bool :=
  existsb (λ o, match o with OptAppend => true | _ => false end) os.
Definition has_icon (os : list cli_option) : bool :=
  existsb (λ o, match o with OptIcon => true | _ => false end) os.
Definition has_catalog (os : list cli_option) : bool :=
  existsb (λ o, match o with OptCatalog => true | _ => false end) os.

Definition last_name (os : list cli_option) : string :=
  default "" (last (omap (λ o, match o with OptName n => Some n | _ => None end) os)).
Definition last_mask (os : list cli_option) : option string :=
  last (omap (λ o, match o with OptMask c => Some c | _ => None end) os).
Definition last_compatible (os : list cli_option) : bool :=
  default false
    (last (omap (λ o, match o with
                      | OptCompatible => Some true
                      | OptNotCompatible => Some false
                      | _ => None
                      end) os)).

(** an argument that ends the options: it does not start with a dash, or is
    the dash alone *)
Definition ends_options (a : string) : bool :=
  negb (Str.startswith a "-" && negb (String.eqb a "-")).

(** the letters of the options without argument *)
Definition flag_letter (c : ascii) : bool :=
  existsb (Ascii.eqb c) ["a"; "u"; "i"; "c"; "f"; "F"]%char.

(** [print(__doc__)] and nothing else *)
Definition usage (doc : string) (w : world) : result unit * world :=
  (Ok tt, World (files w) (stdout w ++ [doc +:+ nl])).

(** the strings one call of the emitter writes, one by one *)
Definition preamble_pieces (argv0 : string) (append catalog : bool) : list string :=
  if append then []
  else [header_text argv0; import_text]
         ++ (if catalog then [marker_line; "index = []" +:+ nl +:+ nl] else []).

Definition image_pieces (argv0 imgName varName data : string)
    (append icon catalog functionCompatible : bool) : list string :=
  [separator] ++ preamble_pieces argv0 append catalog
    ++ [assignment_text varName data]
    ++ registration_lines imgName varName catalog
    ++ accessor_lines varName icon functionCompatible
    ++ [nl].

(** ** Successive invocations *)

(** [img2py] called in append and catalog mode, once for every image file
    and name of [jobs], on the same Python file *)
Fixpoint add_images (argv0 : string) (BITMAP_TYPE_PNG : N)
    (img2img_convert :
       string → option string → option string → option string → N → string →
       M (bool * string))
    (tempname : gmap string string → string)
    (python_file : string) (jobs : list (string * string)) : M unit :=
  match jobs with
  | [] => ret tt
  | (image_file, imgName) :: jobs' =>
      img2py argv0 BITMAP_TYPE_PNG img2img_convert tempname image_file
        python_file true true None imgName false true false None;;
      add_images argv0 BITMAP_TYPE_PNG img2img_convert tempname python_file jobs'
  end.

(** an image file and a name that such an invocation can take: a PNG file
    that exists and is not the Python file, and a name that is not empty and
    has no line end in it *)
Definition job_ok (fs : gmap string string) (python_file : string)
    (job : string * string) : Prop :=
  Str.endswith (Str.upper job.1) ".PNG" = true
  ∧ job.1 ≠ python_file
  ∧ is_Some (fs !! job.1)
  ∧ job.2 ≠ ""
  ∧ lacks LF job.2 = true
  ∧ lacks CR job.2 = true.

(** * Properties *)

(** ** Base64 *)

Module Base64Facts.
Import Base64.

Lemma byte_of_to_N (b : byte) : byte_of_N (Byte.to_N b) = b.
Proof.
  unfold byte_of_N.
  pose proof (Byte.to_N_bounded b) as Hb.
  rewrite N.mod_small by lia.
  by rewrite Byte.of_to_N.
Qed.

Lemma sextets_ok : forallb (λ i, sextet_ok (N.of_nat i)) (seq 0 64) = true.
Proof. vm_compute. reflexivity. Qed.

Lemma sextet (n : N) : n < 64 → a2b (b2a n) = Some n ∧ Byte.eqb (b2a n) PAD = false.
Proof.
  intros Hn.
  pose proof sextets_ok as H.
  rewrite forallb_forall in H.
  specialize (H (N.to_nat n)).
  rewrite N2Nat.id in H.
  assert (Hin : In (N.to_nat n) (seq 0 64)) by (apply in_seq; lia).
  specialize (H Hin). unfold sextet_ok in H.
  destruct (a2b (b2a n)) as [m|]; [|discriminate].
  apply andb_true_iff in H as [H1 H2].
  apply N.eqb_eq in H1. subst m.
  split; [reflexivity|]. by apply negb_true_iff.
Qed.

(** one decoding step on a character of the alphabet *)
Lemma a2b_base64_char (n : N) s q lc p out :
  n < 64 →
  a2b_base64 (b2a n :: s) q lc p out =
    match q with
    | 0%nat => a2b_base64 s 1 n 0 out
    | 1%nat => a2b_base64 s 2 (n mod 16) 0 (out ++ [byte_of_N (lc * 4 + n / 16)])
    | 2%nat => a2b_base64 s 3 (n mod 4) 0 (out ++ [byte_of_N (lc * 16 + n / 4)])
    | _ => a2b_base64 s 0 0 0 (out ++ [byte_of_N (lc * 64 + n)])
    end.
Proof.
  intros Hn. destruct (sextet n Hn) as [Ha Hp].
  simpl. rewrite Hp, Ha. reflexivity.
Qed.

Local Ltac dm := intros; zify; Z.to_euclidean_division_equations; lia.

Lemma s0_lt x : x < 256 → x / 4 < 64.
Proof. dm. Qed.
Lemma s1_lt x y : x < 256 → y < 256 → (x mod 4) * 16 + y / 16 < 64.
Proof. dm. Qed.
Lemma s2_lt y z : y < 256 → z < 256 → (y mod 16) * 4 + z / 64 < 64.
Proof. dm. Qed.
Lemma s3_lt z : z mod 64 < 64.
Proof. dm. Qed.
Lemma s1_lt0 x : (x mod 4) * 16 < 64.
Proof. dm. Qed.
Lemma s2_lt0 y : (y mod 16) * 4 < 64.
Proof. dm. Qed.

Lemma b1_eq x y : y < 256 → x / 4 * 4 + ((x mod 4) * 16 + y / 16) / 16 = x.
Proof. dm. Qed.
Lemma b2_eq x y z :
  y < 256 → z < 256 →
  ((x mod 4) * 16 + y / 16) mod 16 * 16 + ((y mod 16) * 4 + z / 64) / 4 = y.
Proof. dm. Qed.
Lemma b3_eq y z : z < 256 → ((y mod 16) * 4 + z / 64) mod 4 * 64 + z mod 64 = z.
Proof. dm. Qed.
Lemma b1_eq0 x : x / 4 * 4 + ((x mod 4) * 16) / 16 = x.
Proof. dm. Qed.
Lemma b2_eq0 x y :
  y < 256 → ((x mod 4) * 16 + y / 16) mod 16 * 16 + ((y mod 16) * 4) / 4 = y.
Proof. dm. Qed.

Lemma a2b_base64_encode (n : nat) :
  ∀ bs lc p out, (length bs ≤ n)%nat →
    a2b_base64 (b64encode bs) 0 lc p out = Some (out ++ bs).
Proof.
  induction n as [|n IH]; intros bs lc p out Hlen.
  - destruct bs; [|simpl in Hlen; lia]. simpl. by rewrite app_nil_r.
  - destruct bs as [|a [|b [|c rest]]].
    + simpl. by rewrite app_nil_r.
    + pose proof (Byte.to_N_bounded a).
      cbn [b64encode].
      rewrite a2b_base64_char by (apply s0_lt; lia).
      rewrite a2b_base64_char by apply s1_lt0.
      rewrite b1_eq0, byte_of_to_N.
      reflexivity.
    + pose proof (Byte.to_N_bounded a). pose proof (Byte.to_N_bounded b).
      cbn [b64encode].
      rewrite a2b_base64_char by (apply s0_lt; lia).
      rewrite a2b_base64_char by (apply s1_lt; lia).
      rewrite a2b_base64_char by apply s2_lt0.
      rewrite b1_eq by lia. rewrite b2_eq0 by lia.
      rewrite !byte_of_to_N. simpl. by rewrite <- app_assoc.
    + pose proof (Byte.to_N_bounded a). pose proof (Byte.to_N_bounded b).
      pose proof (Byte.to_N_bounded c).
      cbn [b64encode].
      rewrite a2b_base64_char by (apply s0_lt; lia).
      rewrite a2b_base64_char by (apply s1_lt; lia).
      rewrite a2b_base64_char by (apply s2_lt; lia).
      rewrite a2b_base64_char by apply s3_lt.
      rewrite b1_eq by lia. rewrite b2_eq by lia. rewrite b3_eq by lia.
      rewrite !byte_of_to_N.
      rewrite IH by (simpl in Hlen; lia).
      by rewrite <- !app_assoc.
Qed.

(** decoding inverts encoding *)
Lemma b64decode_b64encode (bs : list byte) :
  b64decode (b64encode bs) = Some bs.
Proof. unfold b64decode. by rewrite (a2b_base64_encode (length bs)). Qed.

End Base64Facts.

(** ** Strings *)

Module StrFacts.

Lemma sapp_nil_r (s : string) : s +:+ "" = s.
Proof. induction s; simpl; congruence. Qed.

Lemma sapp_assoc (a b c : string) : (a +:+ b) +:+ c = a +:+ (b +:+ c).
Proof. induction a; simpl; congruence. Qed.

Lemma length_sapp (a b : string) :
  String.length (a +:+ b) = (String.length a + String.length b)%nat.
Proof. induction a; simpl; congruence. Qed.

Lemma sapp_cons (c : ascii) (a b : string) : String c a +:+ b = String c (a +:+ b).
Proof. reflexivity. Qed.

Lemma concat_empty_cons (x : string) (l : list string) :
  String.concat "" (x :: l) = x +:+ String.concat "" l.
Proof. destruct l; simpl; [by rewrite sapp_nil_r|reflexivity]. Qed.

Lemma concat_cons2 (sep x y : string) (l : list string) :
  String.concat sep (x :: y :: l) = x +:+ sep +:+ String.concat sep (y :: l).
Proof. reflexivity. Qed.

Lemma all_chars_app p (a b : string) :
  Str.all_chars p (a +:+ b) = Str.all_chars p a && Str.all_chars p b.
Proof. induction a; simpl; [reflexivity|]. rewrite IHa. by rewrite andb_assoc. Qed.

Lemma lacks_app c (a b : string) : lacks c (a +:+ b) = lacks c a && lacks c b.
Proof. apply all_chars_app. Qed.

Lemma lacks_cons c a (s : string) :
  lacks c (String a s) = negb (Ascii.eqb a c) && lacks c s.
Proof. reflexivity. Qed.

Lemma prefix_app (pre x : string) : String.prefix pre (pre +:+ x) = true.
Proof.
  induction pre as [|c pre IH]; simpl; [by destruct x|].
  destruct (ascii_dec c c); [done|congruence].
Qed.

Lemma drop_app (pre x : string) : Str.drop (String.length pre) (pre +:+ x) = x.
Proof. induction pre; simpl; [by destruct x|done]. Qed.

Lemma take_app (pre x : string) : Str.take (String.length pre) (pre +:+ x) = pre.
Proof. induction pre; simpl; [by destruct x|congruence]. Qed.

Lemma chop_prefix_app (pre x : string) : chop_prefix pre (pre +:+ x) = x.
Proof. unfold chop_prefix. by rewrite prefix_app, drop_app. Qed.

Lemma chop_suffix_app (x suf : string) :
  suf ≠ "" → chop_suffix suf (x +:+ suf) = x.
Proof.
  intros Hsuf. induction x as [|c x IH].
  - simpl. destruct suf as [|d suf]; [done|]. simpl.
    by rewrite Ascii.eqb_refl, String.eqb_refl.
  - rewrite sapp_cons. cbn [chop_suffix].
    destruct (String.eqb_spec (String c (x +:+ suf)) suf) as [Heq|_].
    + apply (f_equal String.length) in Heq. simpl in Heq.
      rewrite length_sapp in Heq. lia.
    + by rewrite IH.
Qed.

Lemma split_nl_last (l : string) : lacks LF l = true → split_nl l = [l].
Proof.
  induction l as [|c l IH]; [done|].
  rewrite lacks_cons. intros [Hc Hl]%andb_true_iff.
  simpl. apply negb_true_iff in Hc. rewrite Hc, IH; done.
Qed.

Lemma split_nl_line (l s : string) :
  lacks LF l = true → split_nl (l +:+ String LF s) = l :: split_nl s.
Proof.
  induction l as [|c l IH]; [done|].
  rewrite lacks_cons. intros [Hc Hl]%andb_true_iff.
  simpl. apply negb_true_iff in Hc. rewrite Hc, IH; done.
Qed.

Lemma split_nl_join (ls : list string) :
  ls ≠ [] → Forall (λ l, lacks LF l = true) ls → split_nl (join nl ls) = ls.
Proof.
  intros Hne Hall. induction Hall as [|l ls Hl Hls IH]; [done|].
  destruct ls as [|l2 ls].
  - simpl. by apply split_nl_last.
  - unfold join in *. rewrite concat_cons2.
    change (nl +:+ String.concat nl (l2 :: ls))
      with (String LF (String.concat nl (l2 :: ls))).
    rewrite split_nl_line by done. by rewrite IH.
Qed.

End StrFacts.

(** ** The encoder *)

Module EncoderFacts.
Import Base64 StrFacts.

Lemma b2a_plain (n : N) : plain (b2a n).
Proof.
  unfold plain, is_b64, b2a. apply existsb_exists.
  destruct (nth_in_or_default (N.to_nat n) alphabet PAD) as [Hin | ->].
  - eexists. split; [right; exact Hin|]. by apply Byte.byte_dec_lb.
  - exists PAD. split; [by left|done].
Qed.

Lemma b64encode_plain (n : nat) :
  ∀ bs, (length bs ≤ n)%nat → Forall plain (b64encode bs).
Proof.
  induction n as [|n IH]; intros bs Hlen.
  - destruct bs; [constructor|simpl in Hlen; lia].
  - destruct bs as [|a [|b [|c rest]]]; cbn [b64encode].
    + constructor.
    + repeat (first [apply Forall_nil_2 | apply Forall_cons_2; [first [apply b2a_plain | done]|]]).
    + repeat (first [apply Forall_nil_2 | apply Forall_cons_2; [first [apply b2a_plain | done]|]]).
    + repeat (apply Forall_cons_2; [apply b2a_plain|]).
      apply IH. simpl in Hlen. lia.
Qed.

Lemma plain_byte (b : byte) :
  plain b →
  repr_byte SQUOTE b = String (ascii_of_byte b) ""
  ∧ Byte.eqb "'" b = false
  ∧ Ascii.eqb (ascii_of_byte b) LF = false.
Proof. unfold plain. destruct b; vm_compute; intros H; first [discriminate H | auto]. Qed.

Lemma plain_no_quote (bs : list byte) :
  Forall plain bs → contains_byte "'" bs = false.
Proof.
  induction 1 as [|b bs Hb _ IH]; [done|].
  unfold contains_byte in *. simpl. rewrite IH.
  destruct (plain_byte b Hb) as (_ & -> & _). done.
Qed.

Lemma repr_concat_plain (bs : list byte) :
  Forall plain bs →
  String.concat "" (map (repr_byte SQUOTE) bs) = string_of_list_byte bs.
Proof.
  induction 1 as [|b bs Hb _ IH]; [done|].
  rewrite map_cons, concat_empty_cons, IH.
  destruct (plain_byte b Hb) as (-> & _ & _). done.
Qed.

Lemma bytes_repr_plain (bs : list byte) :
  Forall plain bs → bytes_repr bs = "b'" +:+ string_of_list_byte bs +:+ "'".
Proof.
  intros Hbs. unfold bytes_repr, repr_quote.
  rewrite plain_no_quote by done. simpl andb. cbv iota.
  rewrite repr_concat_plain by done.
  unfold SQUOTE. simpl. reflexivity.
Qed.

Lemma string_of_list_byte_app (a b : list byte) :
  string_of_list_byte (a ++ b) = string_of_list_byte a +:+ string_of_list_byte b.
Proof. induction a; simpl; [done|]. unfold string_of_list_byte in *. simpl. by rewrite IHa. Qed.

Lemma plain_lacks_LF (bs : list byte) :
  Forall plain bs → lacks LF (string_of_list_byte bs) = true.
Proof.
  induction 1 as [|b bs Hb _ IH]; [done|].
  unfold string_of_list_byte in *. simpl. rewrite lacks_cons.
  destruct (plain_byte b Hb) as (_ & _ & ->). done.
Qed.

Lemma chunk_loop_acc (fuel : nat) :
  ∀ data lines,
    chunk_loop fuel data lines = (app lines) <$> chunk_loop fuel data [].
Proof.
  induction fuel as [|fuel IH]; intros data lines.
  - destruct data; simpl; [by rewrite app_nil_r|done].
  - destruct data as [|b data]; [simpl; by rewrite app_nil_r|].
    cbn [chunk_loop]. cbv zeta.
    rewrite IH. rewrite (IH _ ([] ++ _)).
    destruct (chunk_loop fuel _ []) as [ls|]; simpl; [|done].
    by rewrite <- app_assoc.
Qed.

Lemma chunk_loop_step (fuel : nat) (b : byte) (data : list byte) :
  chunk_loop (S fuel) (b :: data) [] =
    cons (chunk_text (take 72 (b :: data))
            (bool_decide (drop 72 (b :: data) = [])))
      <$> chunk_loop fuel (drop 72 (b :: data)) [].
Proof.
  cbn [chunk_loop]. cbv zeta. rewrite chunk_loop_acc.
  unfold chunk_text.
  destruct (drop 72 (b :: data)); simpl; reflexivity.
Qed.

Lemma unquote_chunk (part : list byte) :
  Forall plain part →
  unquote (strip_indent (chunk_text part false)) = string_of_list_byte part.
Proof.
  intros Hp. unfold chunk_text, strip_indent, unquote.
  rewrite bytes_repr_plain by done.
  rewrite chop_prefix_app, chop_prefix_app.
  by apply chop_suffix_app.
Qed.

Lemma unquote_final_chunk (part : list byte) :
  Forall plain part →
  unquote (strip_terminator (strip_indent (chunk_text part true)))
  = string_of_list_byte part.
Proof.
  intros Hp. unfold chunk_text, strip_indent, strip_terminator, unquote.
  rewrite bytes_repr_plain by done.
  rewrite sapp_assoc, chop_prefix_app.
  rewrite chop_suffix_app by done.
  rewrite chop_prefix_app.
  by apply chop_suffix_app.
Qed.

Lemma chunk_text_lacks_LF (part : list byte) (final : bool) :
  Forall plain part → lacks LF (chunk_text part final) = true.
Proof.
  intros Hp. unfold chunk_text. rewrite bytes_repr_plain by done.
  destruct final; rewrite !lacks_app, plain_lacks_LF by done; done.
Qed.

(** the loop ends within [length data] iterations, and the literals of its
    lines spell [data] *)
Lemma chunk_loop_spec (fuel : nat) :
  ∀ data, (length data ≤ fuel)%nat → Forall plain data →
    ∃ ls, chunk_loop fuel data [] = Some ls
          ∧ String.concat "" (map unquote (strip_chunks ls))
            = string_of_list_byte data
          ∧ Forall (λ l, lacks LF l = true) ls
          ∧ (data = [] ↔ ls = []).
Proof.
  induction fuel as [|fuel IH]; intros data Hlen Hplain.
  - destruct data; [|simpl in Hlen; lia]. exists []. by repeat split.
  - destruct data as [|b data]; [exists []; by repeat split|].
    rewrite chunk_loop_step.
    set (part := take 72 (b :: data)). set (rest := drop 72 (b :: data)).
    assert (Hpart : Forall plain part) by (by apply Forall_take).
    assert (Hrest : Forall plain rest) by (by apply Forall_drop).
    assert (Hsplit : b :: data = part ++ rest) by (symmetry; apply take_drop).
    destruct (IH rest) as (ls & Hls & Hcat & Hlf & Hnil); [|done|].
    { subst rest. rewrite length_drop. simpl in *. lia. }
    rewrite Hls. simpl fmap.
    eexists. split; [reflexivity|].
    split; [|split; [|split; intros; discriminate]].
    + rewrite Hsplit, string_of_list_byte_app.
      destruct rest as [|r rest'].
      * assert (ls = []) as -> by (by apply Hnil).
        rewrite bool_decide_true by done.
        change (String.concat "" (map unquote (strip_chunks [?x])))
          with (unquote (strip_terminator (strip_indent x))).
        rewrite unquote_final_chunk by done.
        change (string_of_list_byte []) with "". by rewrite sapp_nil_r.
      * rewrite bool_decide_false by done.
        destruct ls as [|l ls']; [by destruct Hnil as [_ Hn]; specialize (Hn eq_refl)|].
        change (strip_chunks (?x :: l :: ls'))
          with (strip_indent x :: strip_chunks (l :: ls')).
        rewrite map_cons, concat_empty_cons, Hcat.
        by rewrite unquote_chunk.
    + constructor; [|done]. by apply chunk_text_lacks_LF.
Qed.

Lemma encode_lines_spec (png : list byte) :
  ∃ ls, encode_lines png = Some ls
        ∧ String.concat "" (map unquote (strip_chunks ls))
          = string_of_list_byte (b64encode png)
        ∧ Forall (λ l, lacks LF l = true) ls
        ∧ (b64encode png = [] ↔ ls = []).
Proof.
  unfold encode_lines. apply chunk_loop_spec; [done|].
  by apply (b64encode_plain (length png)).
Qed.

(** the loop always ends *)
Lemma encode_payload_total (png : list byte) :
  ∃ text, encode_payload png = Some text.
Proof.
  destruct (encode_lines_spec png) as (ls & Hls & _).
  unfold encode_payload. rewrite Hls. by eexists.
Qed.

End EncoderFacts.

(** ** The payload (source lines 195-205) *)



(** C5: for the empty byte sequence the loop body never runs: there is no
    chunk and no closing parenthesis, the payload is the empty string. *)
Lemma C5_empty_input_has_no_chunk :
  encode_lines [] = Some [] ∧ encode_payload [] = Some "".
Proof. split; reflexivity. Qed.

(** ** Identifier sanitization (source lines 125-131) *)

Lemma letters_of_ident (s : string) :
  forallb ident_char (letters_of s) = true.
Proof.
  unfold letters_of. induction s as [|c s IH]; [done|].
  simpl. rewrite IH, andb_true_r. unfold ident_char.
  destruct (Str.isalnum c) eqn:Hc; [by rewrite Hc|done].
Qed.

Lemma all_chars_of_list p (l : list ascii) :
  Str.all_chars p (string_of_list_ascii l) = forallb p l.
Proof. induction l; simpl; congruence. Qed.

Lemma is_identifier_of_list (c : ascii) (l : list ascii) :
  is_identifier (string_of_list_ascii (c :: l))
  = ident_start c && forallb ident_char (c :: l).
Proof.
  rewrite <- (all_chars_of_list ident_char (c :: l)). reflexivity.
Qed.




Example sanitize_digit_first :
  _replace_non_alphanumeric_with_underscore "9 lives" = Ok "_9_lives".
Proof. reflexivity. Qed.

Example sanitize_no_alphanumeric :
  _replace_non_alphanumeric_with_underscore "-+-" = Ok "___".
Proof. reflexivity. Qed.

(** ** Running the program *)

Module Run.
Import StrFacts.

Lemma bind_run {A B} (m : M A) (f : A → M B) (w : world) :
  (m ≫= f) w =
    match m w with
    | (Ok a, w') => f a w'
    | (Raise e, w') => (Raise e, w')
    end.
Proof. reflexivity. Qed.

Lemma bind_ok {A B} (m : M A) (f : A → M B) (w w' : world) a :
  m w = (Ok a, w') → (m ≫= f) w = f a w'.
Proof. intros H. rewrite bind_run, H. reflexivity. Qed.

Lemma bind_raise {A B} (m : M A) (f : A → M B) (w w' : world) e :
  m w = (Raise e, w') → (m ≫= f) w = (Raise e, w').
Proof. intros H. rewrite bind_run, H. reflexivity. Qed.

Lemma world_eta (w : world) : World (files w) (stdout w) = w.
Proof. by destruct w. Qed.

Lemma write_first p s w :
  write (File p) s w = (Ok tt, st p (content p w +:+ s) (stdout w) w).
Proof. reflexivity. Qed.

Lemma write_st p s c l w :
  write (File p) s (st p c l w) = (Ok tt, st p (c +:+ s) l w).
Proof.
  unfold write, st, set_file. cbn [files stdout].
  by rewrite lookup_insert_eq, insert_insert_eq.
Qed.

Lemma print_st p s c l w :
  print s (st p c l w) = (Ok tt, st p c (l ++ [s +:+ nl]) w).
Proof. reflexivity. Qed.

Lemma content_st p c l w : content p (st p c l w) = c.
Proof. unfold content, st. cbn [files]. by rewrite lookup_insert_eq. Qed.

Lemma st_st p c c' l l' w : st p c' l' (st p c l w) = st p c' l' w.
Proof. unfold st. cbn [files]. by rewrite insert_insert_eq. Qed.

Lemma open_write_st p w : open_write p w = (Ok tt, st p "" (stdout w) w).
Proof. reflexivity. Qed.

Lemma open_append_st p w :
  open_append p w = (Ok tt, st p (content p w) (stdout w) w).
Proof.
  unfold open_append, content, st.
  destruct (files w !! p) as [c|] eqn:Hc; cbn [default]; [|done].
  by rewrite insert_id, world_eta.
Qed.

Lemma st_id p c w : files w !! p = Some c → st p c (stdout w) w = w.
Proof. intros H. unfold st. by rewrite insert_id, world_eta. Qed.

Ltac step :=
  erewrite bind_ok by first [apply write_st | apply print_st | reflexivity].

Section Emit.
Variable argv0 : string.

Lemma write_preamble_st p append catalog c l w :
  write_preamble argv0 (File p) append catalog (st p c l w)
  = (Ok tt, st p (c +:+ preamble_text argv0 append catalog) l w).
Proof.
  unfold write_preamble, preamble_text.
  destruct append; cbn [negb].
  - by rewrite sapp_nil_r.
  - do 2 step.
    destruct catalog.
    + step. rewrite write_st.
      unfold header_text, import_text, scaffold_text, marker_line.
      by rewrite !sapp_assoc.
    + unfold ret at 1. unfold header_text, import_text.
      by rewrite !sapp_assoc, sapp_nil_r.
Qed.

Lemma write_registration_st p N var catalog old_index c l w :
  write_registration (File p) N var catalog old_index (st p c l w)
  = (Ok (if catalog then old_index ++ [N] else old_index),
     st p (c +:+ (if catalog then index_line N +:+ catalog_line N var else ""))
        (l ++ (if catalog && Str.mem N old_index then shadow_warning N else []))
        w).
Proof.
  unfold write_registration.
  destruct catalog; cbn [andb].
  - destruct (Str.mem N old_index).
    + erewrite bind_ok; cycle 1.
      { do 1 step. apply print_st. }
      do 2 step. unfold ret, shadow_warning, index_line, catalog_line.
      by rewrite !sapp_assoc, <- !(assoc_L (++)).
    + do 3 step. unfold ret, index_line, catalog_line.
      by rewrite !sapp_assoc, (right_id_L [] (++)).
  - unfold ret. by rewrite sapp_nil_r, (right_id_L [] (++)).
Qed.

Lemma write_accessors_st p var icon fc c l w :
  write_accessors (File p) var icon fc (st p c l w)
  = (Ok tt, st p (c +:+ (if fc then accessors_text var icon else "")) l w).
Proof.
  unfold write_accessors.
  destruct fc.
  - do 3 step. unfold accessors_text, accessor_line.
    destruct icon.
    + rewrite write_st. by rewrite !sapp_assoc.
    + unfold ret. by rewrite !sapp_assoc, sapp_nil_r.
  - unfold ret. by rewrite sapp_nil_r.
Qed.

(** the emitter on a file, when the identifier is defined *)
Lemma write_image_st p N data append icon catalog fc old_index c l w var :
  _replace_non_alphanumeric_with_underscore N = Ok var →
  _write_image argv0 (File p) N data append icon catalog fc old_index (st p c l w) =
   (Ok (if catalog then old_index ++ [N] else old_index),
    st p (c +:+ image_text argv0 N var data append icon catalog fc)
       (l ++ (if catalog && Str.mem N old_index then shadow_warning N else [])) w).
Proof.
  intros Hs. unfold _write_image.
  step.
  erewrite bind_ok by apply write_preamble_st.
  rewrite Hs.
  step. step.
  erewrite bind_ok by apply write_registration_st.
  erewrite bind_ok by apply write_accessors_st.
  step. unfold ret.
  unfold image_text, record_text, assignment_text, separator.
  by rewrite !sapp_assoc.
Qed.

(** the emitter on a file, when [letters[0]] raises *)
Lemma write_image_raise p N data append icon catalog fc old_index c l w e :
  _replace_non_alphanumeric_with_underscore N = Raise e →
  _write_image argv0 (File p) N data append icon catalog fc old_index (st p c l w) =
   (Raise e, st p (c +:+ separator +:+ preamble_text argv0 append catalog) l w).
Proof.
  intros Hs. unfold _write_image.
  step.
  erewrite bind_ok by apply write_preamble_st.
  rewrite Hs. unfold separator. by rewrite !sapp_assoc.
Qed.

End Emit.

Section Convert.
Variable BITMAP_TYPE_PNG : N.
Variable img2img_convert :
  string → option string → option string → option string → N → string →
  M (bool * string).
Variable tempname : gmap string string → string.

Lemma read_file_st_same p c l w : read_file p (st p c l w) = (Ok c, st p c l w).
Proof. unfold read_file, st. cbn [files]. by rewrite lookup_insert_eq. Qed.

Lemma read_file_st_other p q c l w x :
  p ≠ q → files w !! q = Some x → read_file q (st p c l w) = (Ok x, st p c l w).
Proof.
  intros Hne Hq. unfold read_file, st. cbn [files].
  by rewrite lookup_insert_ne, Hq.
Qed.

Lemma convert_fast_path fileName outputDir outputName outType outExt w src newname :
  Str.endswith (Str.upper fileName) (Str.upper outExt) = true →
  files w !! fileName = Some src →
  new_name fileName outputDir outputName outExt = Ok newname →
  convert img2img_convert fileName None outputDir outputName outType outExt w
  = (Ok (true, "ok"),
     st newname (if decide (newname = fileName) then "" else src) (stdout w) w).
Proof.
  intros Hext Hsrc Hnew. unfold convert.
  rewrite bool_decide_true by done. rewrite Hext. cbn [andb].
  rewrite Hnew.
  erewrite bind_ok by reflexivity.
  erewrite bind_ok by apply open_write_st.
  destruct (decide (newname = fileName)) as [->|Hne].
  - erewrite bind_ok by apply read_file_st_same.
    erewrite bind_ok by apply write_st. reflexivity.
  - erewrite bind_ok by (by apply read_file_st_other).
    erewrite bind_ok by apply write_st. reflexivity.
Qed.

Lemma cleanup_run tf w :
  cleanup tf w = (Ok tt, World (delete tf (files w)) (stdout w)).
Proof.
  unfold cleanup. erewrite bind_ok by reflexivity.
  destruct (files w !! tf) as [c|] eqn:Hc.
  - rewrite bool_decide_true by done. unfold os_remove. by rewrite Hc.
  - rewrite bool_decide_false by (by intros [? ?]).
    unfold ret. by rewrite delete_id, world_eta.
Qed.

Lemma try_finally_cleanup {A} (body : M A) tf w :
  try_finally body (cleanup tf) w =
    ((body w).1, World (delete tf (files (body w).2)) (stdout (body w).2)).
Proof.
  unfold try_finally. destruct (body w) as [r w1]. by rewrite cleanup_run.
Qed.

Lemma conversion_phase_run image_file maskClr w :
  let tf := tempname (files w) in
  let out := encode_phase BITMAP_TYPE_PNG img2img_convert image_file maskClr tf
               (set_file tf "" w) in
  conversion_phase BITMAP_TYPE_PNG img2img_convert tempname image_file maskClr w
  = (out.1, World (delete tf (files out.2)) (stdout out.2)).
Proof.
  intros tf out. unfold conversion_phase.
  erewrite bind_ok by reflexivity. apply try_finally_cleanup.
Qed.

End Convert.

Section Whole.
Variable argv0 : string.
Variable BITMAP_TYPE_PNG : N.
Variable img2img_convert :
  string → option string → option string → option string → N → string →
  M (bool * string).
Variable tempname : gmap string string → string.

Abbreviation conversion_phase_ :=
  (conversion_phase BITMAP_TYPE_PNG img2img_convert tempname).
Abbreviation img2py_ := (img2py argv0 BITMAP_TYPE_PNG img2img_convert tempname).

Lemma img2py_after_conversion image_file python_file append compressed maskClr
    imgName icon catalog fc fci w data w1 :
  conversion_phase_ image_file maskClr w = (Ok (Some data), w1) →
  img2py_ image_file python_file append compressed maskClr imgName icon catalog
    fc fci w
  = (reconcile python_file append catalog ≫= λ old_index,
       emit_phase argv0 image_file python_file append maskClr imgName icon
         catalog (default fc fci) data old_index) w1.
Proof. intros Hc. unfold img2py. by erewrite bind_ok by exact Hc. Qed.

Lemma reconcile_inactive python_file append catalog w :
  reconciles python_file append catalog = false →
  reconcile python_file append catalog w = (Ok [], w).
Proof. unfold reconciles, reconcile. by intros ->. Qed.

Lemma reconcile_missing python_file append catalog w :
  reconciles python_file append catalog = true →
  files w !! python_file = None →
  reconcile python_file append catalog w = (Raise (FileNotFoundError python_file), w).
Proof.
  unfold reconciles, reconcile. intros -> Hf.
  unfold read_lines, read_file.
  rewrite !bind_run, Hf. reflexivity.
Qed.

Lemma reconcile_scan python_file append catalog w old :
  reconciles python_file append catalog = true →
  files w !! python_file = Some old →
  reconcile python_file append catalog w
  = (Ok (scan (text_lines old)).2,
     if (scan (text_lines old)).1
     then st python_file (old +:+ catalog_start_text) (stdout w) w
     else w).
Proof.
  unfold reconciles, reconcile. intros -> Hf.
  erewrite bind_ok; cycle 1.
  { unfold read_lines. erewrite bind_ok; [reflexivity|].
    unfold read_file. by rewrite Hf. }
  fold (text_lines old).
  destruct (scan (text_lines old)) as [[] old_index]; cbn [fst snd].
  - erewrite bind_ok; [reflexivity|].
    erewrite bind_ok by apply open_append_st.
    unfold content. rewrite Hf. cbn [default].
    do 2 step. rewrite write_st.
    unfold catalog_start_text, scaffold_text, marker_line.
    by rewrite !sapp_assoc.
  - reflexivity.
Qed.

Lemma emit_phase_file image_file python_file append maskClr imgName icon catalog
    fc data old_index w var :
  python_file ≠ "-" →
  _replace_non_alphanumeric_with_underscore (resolved_name imgName image_file)
  = Ok var →
  let name := resolved_name imgName image_file in
  emit_phase argv0 image_file python_file append maskClr imgName icon catalog fc
    data old_index w
  = (Ok tt,
     st python_file
        ((if append then content python_file w else "")
           +:+ image_text argv0 name var data append icon catalog fc)
        (stdout w ++ name_warning imgName image_file
           ++ (if catalog && Str.mem name old_index then shadow_warning name else [])
           ++ [summary_line image_file python_file maskClr name])
        w).
Proof.
  intros Hpy Hvar name. unfold emit_phase.
  apply String.eqb_neq in Hpy. rewrite Hpy.
  assert (Hname :
    (if String.eqb imgName "" then
       let imgName0 := Path.splitext_root (Path.basename image_file) in
       print (nl +:+ "Warning: -n not specified. Using filename (" +:+ imgName0
              +:+ ") for name of image and/or catalog entry.");;
       ret imgName0
     else ret imgName) w
    = (Ok name, World (files w) (stdout w ++ name_warning imgName image_file))).
  { unfold name, name_warning, resolved_name.
    destruct (String.eqb imgName ""); [reflexivity|].
    unfold ret. by rewrite (right_id_L [] (++)), world_eta. }
  erewrite bind_ok by exact Hname. clear Hname.
  set (w0 := World (files w) (stdout w ++ name_warning imgName image_file)).
  assert (Hopen :
    (if append then open_append python_file else open_write python_file) w0
    = (Ok tt, st python_file (if append then content python_file w else "")
                (stdout w0) w)).
  { destruct append; [rewrite open_append_st|rewrite open_write_st]; reflexivity. }
  erewrite bind_ok; cycle 1.
  { erewrite bind_ok by exact Hopen. by apply write_image_st. }
  rewrite print_st. unfold summary_line. subst w0. cbn [stdout].
  by rewrite <- !(assoc_L (++)).
Qed.
(** one invocation on a file target, after a successful conversion: the
    artifact, the output and the result *)
Lemma img2py_file image_file python_file append compressed maskClr imgName icon
    catalog fc fci w data w1 old var :
  conversion_phase_ image_file maskClr w = (Ok (Some data), w1) →
  python_file ≠ "-" →
  (append = true → files w1 !! python_file = Some old) →
  (append = false → old = "") →
  let name := resolved_name imgName image_file in
  _replace_non_alphanumeric_with_underscore name = Ok var →
  img2py_ image_file python_file append compressed maskClr imgName icon catalog
    fc fci w
  = (Ok tt,
     st python_file
        (old +:+ reconciled_text python_file append catalog old
             +:+ image_text argv0 name var data append icon catalog (default fc fci))
        (stdout w1 ++ name_warning imgName image_file
           ++ (if catalog
                  && Str.mem name (reconciled_index python_file append catalog old)
               then shadow_warning name else [])
           ++ [summary_line image_file python_file maskClr name])
        w1).
Proof.
  intros Hc Hpy Hold Hnew name Hvar.
  erewrite img2py_after_conversion by exact Hc.
  unfold reconciled_text, reconciled_index.
  destruct (reconciles python_file append catalog) eqn:Hrec.
  - assert (append = true) as ->.
    { unfold reconciles in Hrec. by destruct catalog, append. }
    specialize (Hold eq_refl).
    erewrite bind_ok by (by apply reconcile_scan).
    cbn [andb].
    destruct (scan (text_lines old)) as [[] idx]; cbn [fst snd].
    + erewrite emit_phase_file by first [exact Hpy | exact Hvar].
      rewrite content_st, st_st. cbn [stdout st]. fold name.
      by rewrite sapp_assoc.
    + erewrite emit_phase_file by first [exact Hpy | exact Hvar].
      unfold content. rewrite Hold. reflexivity.
  - erewrite bind_ok by (by apply reconcile_inactive).
    erewrite emit_phase_file by first [exact Hpy | exact Hvar].
    cbn [andb]. destruct append.
    + unfold content. rewrite (Hold eq_refl). reflexivity.
    + rewrite (Hnew eq_refl). reflexivity.
Qed.
End Whole.

End Run.

(** ** The fast path of [convert] (source lines 110-122) *)



(** ** The temporary file (source lines 186-208) *)

Section Cleanup.
Variable argv0 : string.
Variable BITMAP_TYPE_PNG : N.
Variable img2img_convert :
  string → option string → option string → option string → N → string →
  M (bool * string).
Variable tempname : gmap string string → string.

Abbreviation conversion_phase_ :=
  (conversion_phase BITMAP_TYPE_PNG img2img_convert tempname).
Abbreviation img2py_ := (img2py argv0 BITMAP_TYPE_PNG img2img_convert tempname).

(** the body of the [try] when the conversion reports a failure *)
Lemma encode_phase_failure image_file maskClr tf w msg wc :
  convert img2img_convert image_file maskClr None (Some tf) BITMAP_TYPE_PNG ".png" w
  = (Ok (false, msg), wc) →
  encode_phase BITMAP_TYPE_PNG img2img_convert image_file maskClr tf w
  = (Ok None, World (files wc) (stdout wc ++ [msg +:+ nl])).
Proof.
  intros Hc. unfold encode_phase.
  erewrite Run.bind_ok by exact Hc. reflexivity.
Qed.

(** C3: whatever way the conversion and encoding phase ends (with a payload,
    with the early return after a codec failure, or with an exception), the
    temporary file is gone afterwards.  When the conversion reports a
    failure, [img2py] prints the message and returns: it leaves the files
    the codec left, less the temporary one; so, where the codec touches
    nothing but its destination, every file, the target artifact among them,
    is as it was before the call. *)
Theorem C3_temporary_file_is_removed
    (image_file python_file : string) (append compressed : bool)
    (maskClr : option string) (imgName : string)
    (icon catalog functionCompatible : bool) (functionCompatibile : option bool)
    (w : world) :
  let tf := tempname (files w) in
  files (conversion_phase_ image_file maskClr w).2 !! tf = None
  ∧ ∀ msg wc,
      convert img2img_convert image_file maskClr None (Some tf) BITMAP_TYPE_PNG
        ".png" (set_file tf "" w) = (Ok (false, msg), wc) →
      img2py_ image_file python_file append compressed maskClr imgName icon
        catalog functionCompatible functionCompatibile w
      = (Ok tt, World (delete tf (files wc)) (stdout wc ++ [msg +:+ nl]))
      ∧ (files w !! tf = None →
         (∀ p, p ≠ tf → files wc !! p = files w !! p) →
         delete tf (files wc) = files w).
Proof.
  intros tf. split.
  - rewrite Run.conversion_phase_run. cbn [snd files]. apply lookup_delete_eq.
  - intros msg wc Hc. split.
    + unfold img2py.
      erewrite Run.bind_ok; cycle 1.
      { rewrite Run.conversion_phase_run. fold tf.
        rewrite (encode_phase_failure _ _ _ _ _ _ Hc). reflexivity. }
      reflexivity.
    + intros Hfresh Hframe. apply map_eq. intros p.
      destruct (decide (p = tf)) as [->|Hne].
      * by rewrite lookup_delete_eq, Hfresh.
      * rewrite lookup_delete_ne by done. by apply Hframe.
Qed.

End Cleanup.

Lemma C3_temporary_file_witness :
  let w := Sample.empty_artifact in
  let tf := Sample.tempname (files w) in
  let wc := set_file tf "" w in
  files (conversion_phase 15 Sample.failing_codec Sample.tempname "a.bmp" None w).2
    !! tf = None
  ∧ convert Sample.failing_codec "a.bmp" None None (Some tf) 15 ".png"
      (set_file tf "" w) = (Ok (false, "a.bmp failed to load!"), wc)
  ∧ img2py "img2py.py" 15 Sample.failing_codec Sample.tempname
      "a.bmp" "out.py" true true None "a" false true false None w
    = (Ok tt, World (delete tf (files wc))
                (stdout wc ++ ["a.bmp failed to load!" +:+ nl]))
  ∧ delete tf (files wc) = files w.
Proof.
  intros w tf wc.
  destruct (C3_temporary_file_is_removed "img2py.py" 15 Sample.failing_codec
              Sample.tempname "a.bmp" "out.py" true true None "a" false true
              false None w) as [Hgone Hfail].
  destruct (Hfail "a.bmp failed to load!" wc eq_refl) as [Hrun Hsame].
  split; [exact Hgone|]. split; [reflexivity|]. split; [exact Hrun|].
  apply Hsame; [reflexivity|].
  intros p Hp. unfold wc, set_file. cbn [files].
  by rewrite lookup_insert_ne.
Defined.

(** ** The header of a fresh artifact (source lines 136-141 and 227-231) *)



Section Header.
Variable argv0 : string.
Variable BITMAP_TYPE_PNG : N.
Variable img2img_convert :
  string → option string → option string → option string → N → string →
  M (bool * string).
Variable tempname : gmap string string → string.

Abbreviation conversion_phase_ :=
  (conversion_phase BITMAP_TYPE_PNG img2img_convert tempname).
Abbreviation img2py_ := (img2py argv0 BITMAP_TYPE_PNG img2img_convert tempname).

Lemma reconciles_append_catalog python_file catalog :
  python_file ≠ "-" → reconciles python_file true catalog = catalog.
Proof.
  intros H%String.eqb_neq. unfold reconciles. rewrite H. by destruct catalog.
Qed.

End Header.


(** ** Lines of a text *)

Module LineFacts.
Import StrFacts.

Lemma lacks_LF_cons c (s : string) :
  lacks LF (String c s) = true → Ascii.eqb c LF = false ∧ lacks LF s = true.
Proof.
  rewrite lacks_cons. intros [H1 H2]%andb_true_iff. by apply negb_true_iff in H1.
Qed.

Lemma is_line_app (x : string) : lacks LF x = true → is_line (x +:+ nl) = true.
Proof.
  induction x as [|c x IH]; [done|].
  intros [Hc Hx]%lacks_LF_cons. simpl. rewrite Hc. by apply IH.
Qed.

Lemma is_line_inv (l : string) :
  is_line l = true → ∃ x, l = x +:+ nl ∧ lacks LF x = true.
Proof.
  induction l as [|c l IH]; [done|]. simpl.
  destruct (Ascii.eqb_spec c LF) as [->|Hc].
  - intros ->%String.eqb_eq. by exists "".
  - intros (x & -> & Hx)%IH. exists (String c x). split; [done|].
    rewrite lacks_cons, Hx. by apply Ascii.eqb_neq in Hc as ->.
Qed.

Lemma splitlines_line (x rest : string) :
  lacks LF x = true →
  splitlines (x +:+ String LF rest) = (x +:+ nl) :: splitlines rest.
Proof.
  induction x as [|c x IH]; [done|].
  intros [Hc Hx]%lacks_LF_cons. simpl. rewrite Hc. by rewrite IH.
Qed.

Lemma splitlines_is_line (l rest : string) :
  is_line l = true → splitlines (l +:+ rest) = l :: splitlines rest.
Proof.
  intros (x & -> & Hx)%is_line_inv. rewrite sapp_assoc. by apply splitlines_line.
Qed.

Lemma splitlines_concat (ls : list string) (rest : string) :
  Forall (λ l, is_line l = true) ls →
  splitlines (String.concat "" ls +:+ rest) = ls ++ splitlines rest.
Proof.
  induction 1 as [|l ls Hl _ IH]; [done|].
  rewrite concat_empty_cons, sapp_assoc, splitlines_is_line by done.
  by rewrite IH.
Qed.

Lemma splitlines_partial (p : string) :
  lacks LF p = true → splitlines p = if String.eqb p "" then [] else [p].
Proof.
  induction p as [|c p IH]; [done|].
  intros [Hc Hp]%lacks_LF_cons. simpl. rewrite Hc, IH by done.
  by destruct p.
Qed.

Lemma splitlines_partial_app (p t y : string) (ys : list string) :
  lacks LF p = true → splitlines t = y :: ys →
  splitlines (p +:+ t) = (p +:+ y) :: ys.
Proof.
  intros Hp Ht. revert Hp. induction p as [|c p' IH]; [done|].
  intros [Hc Hp]%lacks_LF_cons. simpl. rewrite Hc, IH by done. done.
Qed.

(** a text is a partial line or starts with a full line *)
Lemma line_cases (x : string) :
  lacks LF x = true
  ∨ ∃ l x2, lacks LF l = true ∧ x = l +:+ nl +:+ x2
            ∧ (String.length x2 < String.length x)%nat.
Proof.
  induction x as [|c x IH]; [by left|].
  destruct (Ascii.eqb_spec c LF) as [->|Hc].
  - right. exists "", x. repeat split. simpl. lia.
  - apply Ascii.eqb_neq in Hc. destruct IH as [Hx|(l & x2 & Hl & -> & Hlen)].
    + left. rewrite lacks_cons, Hx. by rewrite Hc.
    + right. exists (String c l), x2. split; [|split; [done|simpl in *; lia]].
      rewrite lacks_cons, Hl. by rewrite Hc.
Qed.

(** the lines of [x +:+ t]: those of [x], the last one, when it has no line
    feed, glued to the first line of [t] *)
Lemma splitlines_app (n : nat) :
  ∀ (x t y : string) (ys : list string),
    (String.length x ≤ n)%nat →
    splitlines t = y :: ys →
    ∃ init p,
      lacks LF p = true
      ∧ splitlines x = init ++ (if String.eqb p "" then [] else [p])
      ∧ splitlines (x +:+ t) = init ++ (p +:+ y) :: ys.
Proof.
  induction n as [|n IH]; intros x t y ys Hlen Ht.
  - destruct x; [|simpl in Hlen; lia]. exists [], "". by repeat split.
  - destruct (line_cases x) as [Hx|(l & x2 & Hl & -> & Hlt)].
    + exists [], x. split; [done|]. split.
      * by apply splitlines_partial.
      * by apply splitlines_partial_app.
    + destruct (IH x2 t y ys) as (init & p & Hp & Hx2 & Happ); [lia|done|].
      exists ((l +:+ nl) :: init), p. split; [done|]. split.
      * change (l +:+ nl +:+ x2) with (l +:+ String LF x2).
        rewrite splitlines_line by done. by rewrite Hx2.
      * change (l +:+ nl +:+ x2) with (l +:+ String LF x2).
        rewrite sapp_assoc. change (String LF x2 +:+ t) with (String LF (x2 +:+ t)).
        rewrite splitlines_line by done. by rewrite Happ.
Qed.

(** reading in text mode *)

Lemma universal_newlines_id (s : string) :
  lacks CR s = true → universal_newlines s = s.
Proof.
  induction s as [|c s IH]; [done|].
  rewrite lacks_cons. intros [Hc Hs]%andb_true_iff.
  apply negb_true_iff in Hc. simpl. rewrite Hc. by rewrite IH.
Qed.

Lemma universal_newlines_app (x t : string) :
  String.prefix nl t = false →
  universal_newlines (x +:+ t) = universal_newlines x +:+ universal_newlines t.
Proof.
  intros Ht. induction x as [|c x IH]; [done|].
  simpl. destruct (Ascii.eqb c CR).
  - destruct x as [|c' x].
    + simpl. destruct t as [|c' t]; [done|].
      simpl in Ht. destruct (Ascii.eqb_spec c' LF) as [->|Hc']; [|done].
      simpl in Ht. by destruct t.
    + simpl in *. destruct (Ascii.eqb c' LF); by rewrite IH.
  - by rewrite IH.
Qed.

(** when the text appended starts with a line feed, a carriage return at the
    end of [x] takes it *)
Lemma universal_newlines_app_LF (x t : string) :
  ∃ t', universal_newlines (x +:+ String LF t) = universal_newlines x +:+ t'
        ∧ (t' = String LF (universal_newlines t) ∨ t' = universal_newlines t).
Proof.
  induction x as [|c x IH].
  - exists (String LF (universal_newlines t)). split; [|by left]. reflexivity.
  - destruct IH as (t' & IH & Ht').
    simpl. destruct (Ascii.eqb c CR).
    + destruct x as [|c' x].
      * simpl. exists (universal_newlines t). split; [|by right]. reflexivity.
      * simpl in *. destruct (Ascii.eqb c' LF); exists t'; by rewrite IH.
    + exists t'. by rewrite IH.
Qed.

End LineFacts.

(** ** Matching [indexPattern] *)

Module ReFacts.
Import Re StrFacts.

Lemma star_some {A} (p : ascii → bool) (k : string → nat → option A) (v : A) :
  (∀ s pos, k s pos = Some v) → ∀ s pos, star p k s pos = Some v.
Proof.
  intros Hk s. induction s as [|a s IH]; intros pos; simpl; [done|].
  destruct (p a); [|done]. by rewrite IH.
Qed.

Lemma star_fail {A} (p : ascii → bool) (k : string → nat → option A) (c : ascii) :
  (∀ s pos, lacks c s = true → k s pos = None) →
  ∀ s pos, lacks c s = true → star p k s pos = None.
Proof.
  intros Hk s. induction s as [|a s IH]; intros pos Hs; simpl; [by apply Hk|].
  pose proof Hs as Hs'. rewrite lacks_cons in Hs'.
  apply andb_true_iff in Hs' as [_ Hs'].
  destruct (p a); [|by apply Hk]. rewrite IH by done. by apply Hk.
Qed.

(** a subject without ['] is not matched by a pattern that needs one *)
Lemma go_needs_quote (r : regex) :
  ∀ s0 x pos g cap,
    needs_quote r = true → lacks "'" x = true → go r s0 x pos g cap = None.
Proof.
  induction r as [|it r IH]; intros s0 x pos g cap Hr Hx; [done|].
  destruct it as [c|c|c| |]; cbn [go].
  - destruct x as [|a x]; [done|].
    rewrite lacks_cons in Hx. apply andb_true_iff in Hx as [Ha Hx].
    apply negb_true_iff in Ha.
    unfold needs_quote in Hr. cbn [existsb] in Hr.
    destruct (is_quote_item (One c)) eqn:Hq.
    + destruct c as [q| |]; try discriminate Hq. cbn in Hq.
      apply Ascii.eqb_eq in Hq as ->. cbn [accepts]. by rewrite Ha.
    + destruct (accepts c a); [|done]. by apply IH.
  - apply star_fail with (c := "'"%char); [|done]. intros. by apply IH.
  - destruct x as [|a x]; [done|].
    rewrite lacks_cons in Hx. apply andb_true_iff in Hx as [Ha Hx].
    destruct (accepts c a); [|done].
    apply star_fail with (c := "'"%char); [|done]. intros. by apply IH.
  - by apply IH.
  - by apply IH.
Qed.

Lemma go_only_stars (r : regex) :
  ∀ s0 s pos g cap, only_stars r = true → go r s0 s pos g cap = Some cap.
Proof.
  induction r as [|it r IH]; intros s0 s pos g cap Hr; [done|].
  destruct it; try discriminate Hr. cbn [go].
  apply star_some. intros. by apply IH.
Qed.

Lemma take_drop_app (n g : nat) (s0 t : string) :
  (n ≤ String.length s0)%nat →
  Str.take (n - g) (Str.drop g (s0 +:+ t)) = Str.take (n - g) (Str.drop g s0).
Proof.
  revert n g. induction s0 as [|a s0 IH]; intros n g Hn.
  - simpl in Hn. assert (n = 0)%nat as -> by lia. by destruct g.
  - destruct g as [|g].
    + rewrite Nat.sub_0_r. destruct n as [|n]; [done|]. simpl.
      f_equal. specialize (IH n 0%nat). rewrite Nat.sub_0_r in IH.
      apply IH. simpl in Hn. lia.
    + destruct n as [|n]; [done|]. simpl. apply IH. simpl in Hn. lia.
Qed.

Section Extension.
Variable t : string.
Hypothesis t_no_quote : lacks "'" t = true.
Hypothesis t_no_paren : String.prefix ")" t = false.

Lemma star_ext {A} (p : ascii → bool) (kL kR : string → nat → option A) (n : nat) :
  (∀ s pos, (pos + String.length s = n)%nat → kL (s +:+ t) pos = kR s pos) →
  (star p kL t n = kR "" n) →
  ∀ s pos, (pos + String.length s = n)%nat →
    star p kL (s +:+ t) pos = star p kR s pos.
Proof.
  intros Hk Hj s. induction s as [|a s IH]; intros pos Hpos.
  - simpl in Hpos. assert (pos = n) as -> by lia. exact Hj.
  - simpl. simpl in Hpos.
    rewrite IH by lia. rewrite (Hk (String a s)) by (simpl; lia). done.
Qed.

(** putting [t] after the subject does not change the match *)
Lemma go_ext (s0 : string) (r : regex) :
  all_ok r = true →
  ∀ s pos g cap,
    (pos + String.length s = String.length s0)%nat →
    go r (s0 +:+ t) (s +:+ t) pos g cap = go r s0 s pos g cap.
Proof.
  induction r as [|it r IH]; intros Hr s pos g cap Hpos; [done|].
  cbn [all_ok] in Hr. apply andb_true_iff in Hr as [Hj Hr].
  specialize (IH Hr).
  assert (Hjunction : ∀ g cap,
    go (it :: r) (s0 +:+ t) t (String.length s0) g cap
    = go (it :: r) s0 "" (String.length s0) g cap).
  { intros g' cap'. unfold junction_ok in Hj.
    apply orb_true_iff in Hj as [Hj|Hj]; [apply orb_true_iff in Hj as [Hj|Hj]|].
    - by rewrite !go_needs_quote.
    - by rewrite !go_only_stars.
    - destruct it as [[c| |]| | | |]; try discriminate Hj.
      apply Ascii.eqb_eq in Hj as ->. cbn [go].
      destruct t as [|a t']; [done|]. cbn [accepts].
      simpl in t_no_paren. destruct (ascii_dec ")" a) as [<-|Hne].
      + by destruct t'.
      + apply not_eq_sym, Ascii.eqb_neq in Hne. by rewrite Hne. }
  destruct it as [c|c|c| |].
  - destruct s as [|a s].
    + assert (pos = String.length s0) as -> by (simpl in Hpos; lia).
      apply Hjunction.
    + rewrite sapp_cons. cbn [go].
      destruct (accepts c a); [|done]. apply IH. simpl in Hpos. lia.
  - cbn [go]. apply star_ext with (n := String.length s0); [| |done].
    + intros s1 p1 Hp1. by apply IH.
    + specialize (Hjunction g cap). cbn [go] in Hjunction. exact Hjunction.
  - destruct s as [|a s].
    + assert (pos = String.length s0) as -> by (simpl in Hpos; lia).
      apply Hjunction.
    + rewrite sapp_cons. cbn [go].
      destruct (accepts c a); [|done].
      apply star_ext with (n := String.length s0); [| |simpl in Hpos; lia].
      * intros s1 p1 Hp1. by apply IH.
      * unfold junction_ok in Hj. cbn [only_stars] in Hj.
        rewrite orb_false_r in Hj. rewrite orb_false_r in Hj.
        unfold needs_quote in Hj. cbn [existsb is_quote_item orb] in Hj.
        rewrite go_needs_quote by done.
        apply star_fail with (c := "'"%char); [|done].
        intros. by apply go_needs_quote.
  - cbn [go]. by apply IH.
  - cbn [go]. rewrite take_drop_app by lia. by apply IH.
Qed.

Lemma match_group_ext (r : regex) (p : string) :
  all_ok r = true → match_group r (p +:+ t) = match_group r p.
Proof. intros Hr. unfold match_group. by apply go_ext. Qed.

End Extension.

Lemma indexPattern_all_ok : all_ok indexPattern = true.
Proof. reflexivity. Qed.

Lemma indexPattern_needs_quote : needs_quote indexPattern = true.
Proof. reflexivity. Qed.

Lemma star_dot_close (s0 : string) (g : nat) (N : string) :
  ∀ pos, lacks LF N = true →
    star (accepts Dot) (λ s1 pos1, go closing s0 s1 pos1 g "")
      (N +:+ "')" +:+ nl) pos
    = Some (Str.take (pos + String.length N - g) (Str.drop g s0)).
Proof.
  induction N as [|a N IH]; intros pos HN.
  - rewrite Nat.add_0_r. reflexivity.
  - rewrite lacks_cons in HN. apply andb_true_iff in HN as [Ha HN].
    rewrite !sapp_cons. cbn [star accepts]. fold LF. rewrite Ha.
    rewrite IH by done. simpl String.length. by rewrite Nat.add_succ_r.
Qed.

Lemma match_index_line (N : string) :
  N ≠ "" → lacks LF N = true →
  match_group indexPattern (index_line N) = Some N.
Proof.
  intros Hne HN. destruct N as [|a N]; [done|].
  rewrite lacks_cons in HN. apply andb_true_iff in HN as [Ha HN].
  unfold match_group, index_line.
  set (s0 := "index.append('" +:+ String a N +:+ "')" +:+ nl).
  change (go indexPattern s0 s0 0 0 "")
    with (if accepts Dot a
          then star (accepts Dot) (λ s1 pos1, go closing s0 s1 pos1 14 "")
                 (N +:+ "')" +:+ nl) 15
          else None).
  cbn [accepts]. fold LF. rewrite Ha.
  rewrite star_dot_close by done.
  subst s0. change (Str.drop 14 ("index.append('" +:+ ?x)) with x.
  replace (15 + String.length N - 14)%nat with (String.length (String a N))
    by (simpl; lia).
  f_equal. apply take_app.
Qed.

End ReFacts.

(** ** The scan (source lines 218-225) *)

Module ScanFacts.
Import Re StrFacts.

Lemma scan_line_run flag idx l :
  scan_line (flag, idx) l
  = (flag && negb (String.eqb l marker_line),
     idx ++ match line_name l with Some n => [n] | None => [] end).
Proof.
  unfold scan_line, line_name. change ("catalog = {}" +:+ nl) with marker_line.
  destruct (String.eqb l marker_line); cbn [negb].
  - by rewrite andb_false_r, (right_id_L [] (++)).
  - rewrite andb_true_r. destruct (match_group indexPattern l);
      [done|by rewrite (right_id_L [] (++))].
Qed.

Lemma scan_fold lines : ∀ flag idx,
  fold_left scan_line lines (flag, idx)
  = (flag && negb (has_marker lines), idx ++ names lines).
Proof.
  induction lines as [|l lines IH]; intros flag idx.
  - simpl. by rewrite andb_true_r, (right_id_L [] (++)).
  - cbn [fold_left]. rewrite scan_line_run, IH.
    unfold names, has_marker. cbn [omap list_omap existsb].
    f_equal.
    + by destruct flag, (String.eqb l marker_line).
    + rewrite <- (assoc_L (++)). f_equal. by destruct (line_name l).
Qed.

Lemma scan_spec lines :
  scan lines = (negb (has_marker lines), names lines).
Proof. unfold scan. by rewrite scan_fold. Qed.

End ScanFacts.

(** ** The lines of a payload *)

Module PayloadFacts.
Import StrFacts EncoderFacts LineFacts.

Lemma plain_no_CR (b : byte) :
  plain b → Ascii.eqb (ascii_of_byte b) CR = false.
Proof. unfold plain. destruct b; vm_compute; intros H; first [discriminate H | auto]. Qed.

Lemma plain_lacks_CR (bs : list byte) :
  Forall plain bs → lacks CR (string_of_list_byte bs) = true.
Proof.
  induction 1 as [|b bs Hb _ IH]; [done|].
  unfold string_of_list_byte in *. simpl. rewrite lacks_cons.
  by rewrite (plain_no_CR b Hb).
Qed.

Lemma chunk_text_shape (part : list byte) (final : bool) :
  Forall plain part →
  lacks LF (chunk_text part final) = true
  ∧ lacks CR (chunk_text part final) = true
  ∧ ∃ x, chunk_text part final = "    b'" +:+ x.
Proof.
  intros Hp. split; [by apply chunk_text_lacks_LF|].
  unfold chunk_text. rewrite bytes_repr_plain by done. split.
  - destruct final; rewrite !lacks_app, plain_lacks_CR by done; done.
  - destruct final; eexists; rewrite ?sapp_assoc; reflexivity.
Qed.

Lemma chunk_loop_shape (fuel : nat) :
  ∀ data ls, Forall plain data → chunk_loop fuel data [] = Some ls →
    Forall chunk_shape ls.
Proof.
  induction fuel as [|fuel IH]; intros data ls Hplain Hls.
  - destruct data; [|discriminate Hls]. injection Hls as <-. constructor.
  - destruct data as [|b data]; [injection Hls as <-; constructor|].
    rewrite chunk_loop_step in Hls.
    destruct (chunk_loop fuel (drop 72 (b :: data)) []) as [ls'|] eqn:Hls';
      [|discriminate Hls].
    injection Hls as <-. constructor.
    + apply chunk_text_shape. exact (Forall_take _ 72 _ Hplain).
    + eapply IH; [|exact Hls']. exact (Forall_drop _ 72 _ Hplain).
Qed.

Lemma concat_empty_app (l1 l2 : list string) :
  String.concat "" (l1 ++ l2) = String.concat "" l1 +:+ String.concat "" l2.
Proof.
  induction l1 as [|x l1 IH]; [done|].
  rewrite <- app_comm_cons, !concat_empty_cons, IH. by rewrite sapp_assoc.
Qed.

Lemma join_nl_lines (ls : list string) :
  ls ≠ [] →
  join nl ls +:+ nl = String.concat "" (map (λ l, l +:+ nl) ls).
Proof.
  intros Hne. induction ls as [|l ls IH]; [done|].
  destruct ls as [|l2 ls].
  - reflexivity.
  - unfold join in *. rewrite concat_cons2, map_cons, concat_empty_cons.
    rewrite <- IH by done. by rewrite !sapp_assoc.
Qed.

(** the lines a payload takes in the artifact *)
Lemma payload_lines (data : string) :
  is_payload data →
  ∃ dl, data +:+ nl = String.concat "" dl ∧ Forall payload_line dl.
Proof.
  intros [png Hpng]. unfold encode_payload in Hpng.
  destruct (encode_lines png) as [ls|] eqn:Hls; [|discriminate Hpng].
  injection Hpng as <-.
  assert (Hshape : Forall chunk_shape ls).
  { unfold encode_lines in Hls. eapply chunk_loop_shape; [|exact Hls].
    by apply (b64encode_plain (length png)). }
  destruct ls as [|l ls].
  - exists [nl]. split; [done|]. constructor; [|constructor].
    repeat split. by left.
  - exists (map (λ l, l +:+ nl) (l :: ls)). split; [by apply join_nl_lines|].
    apply Forall_map. eapply Forall_impl; [exact Hshape|].
    intros l' (Hlf & Hcr & x & ->). cbn beta. split; [|split].
    + by apply is_line_app.
    + rewrite lacks_app, Hcr. done.
    + right. exists (x +:+ nl). by rewrite sapp_assoc.
Qed.

End PayloadFacts.

(** ** Appending to a text *)

Module AppendFacts.
Import StrFacts LineFacts ReFacts ScanFacts PayloadFacts.

Lemma marker_has_LF (p : string) : lacks LF p = true → String.eqb p marker_line = false.
Proof.
  intros Hp. apply String.eqb_neq. intros ->. discriminate Hp.
Qed.

(** gluing a text without ['] and not starting with [)] to a line without
    line end keeps what the line registers *)
Lemma line_name_ext (p y : string) :
  lacks "'" y = true → String.prefix ")" y = false → lacks LF p = true →
  line_name (p +:+ y) = line_name p.
Proof.
  intros Hy1 Hy2 Hp. unfold line_name. rewrite (marker_has_LF p Hp).
  destruct (String.eqb_spec (p +:+ y) marker_line) as [Heq|_].
  - symmetry. apply go_needs_quote; [done|].
    assert (H : lacks "'" (p +:+ y) = true) by (by rewrite Heq).
    rewrite lacks_app in H. by apply andb_true_iff in H as [H _].
  - by apply match_group_ext.
Qed.

Lemma line_name_no_quote (y : string) : lacks "'" y = true → line_name y = None.
Proof.
  intros Hy. unfold line_name. destruct (String.eqb y marker_line); [done|].
  by apply go_needs_quote.
Qed.

Lemma names_app (l1 l2 : list string) : names (l1 ++ l2) = names l1 ++ names l2.
Proof. apply omap_app. Qed.

Lemma marker_count_app (l1 l2 : list string) :
  marker_count (l1 ++ l2) = (marker_count l1 + marker_count l2)%nat.
Proof. unfold marker_count. by rewrite List.filter_app, length_app. Qed.

(** the names of [x +:+ t], when the first line of [t] has no ['] and does
    not start with [)] *)
Lemma names_splitlines_app (x t y : string) (ys : list string) :
  splitlines t = y :: ys →
  lacks "'" y = true → String.prefix ")" y = false →
  names (splitlines (x +:+ t)) = names (splitlines x) ++ names (splitlines t).
Proof.
  intros Ht Hy1 Hy2.
  destruct (splitlines_app (String.length x) x t y ys) as (init & p & Hp & Hx & Hxt);
    [done|done|].
  rewrite Hxt, Hx, Ht, !names_app.
  rewrite <- (assoc_L (++)). f_equal.
  change (names ((p +:+ y) :: ys)) with (names ([p +:+ y] ++ ys)).
  change (names (y :: ys)) with (names ([y] ++ ys)).
  rewrite !names_app, (assoc_L (++)). f_equal.
  unfold names. cbn [omap list_omap].
  rewrite line_name_ext, (line_name_no_quote y) by done.
  destruct (String.eqb_spec p "") as [->|Hne]; cbn [omap list_omap].
  - by rewrite (line_name_no_quote "").
  - by destruct (line_name p).
Qed.

Lemma not_marker_hash (l : string) :
  lacks "#" l = false → String.eqb l marker_line = false.
Proof. intros Hl. apply String.eqb_neq. intros ->. discriminate Hl. Qed.

(** the marker lines of [x +:+ t], when the first line of [t] holds a [#] *)
Lemma marker_count_splitlines_app (x t y : string) (ys : list string) :
  splitlines t = y :: ys → lacks "#" y = false →
  marker_count (splitlines (x +:+ t))
  = (marker_count (splitlines x) + marker_count (splitlines t))%nat.
Proof.
  intros Ht Hy.
  destruct (splitlines_app (String.length x) x t y ys) as (init & p & Hp & Hx & Hxt);
    [done|done|].
  rewrite Hxt, Hx, Ht, !marker_count_app.
  rewrite <- Nat.add_assoc. f_equal.
  unfold marker_count. cbn [List.filter].
  rewrite (not_marker_hash y Hy).
  rewrite (not_marker_hash (p +:+ y)) by (by rewrite lacks_app, Hy, andb_false_r).
  destruct (String.eqb p ""); cbn [List.filter]; [done|].
  by rewrite (marker_has_LF p Hp).
Qed.

(** appending a text that starts neither with a line feed nor with [)],
    whose first line has no ['] and which has no carriage return *)
Lemma names_text_lines_app (old t y : string) (ys : list string) :
  splitlines t = y :: ys → lacks CR t = true →
  lacks "'" y = true → String.prefix ")" y = false → String.prefix nl t = false →
  names (text_lines (old +:+ t)) = names (text_lines old) ++ names (y :: ys).
Proof.
  intros Ht Hcr Hy1 Hy2 Hnl. unfold text_lines.
  rewrite universal_newlines_app, (universal_newlines_id t) by done.
  rewrite (names_splitlines_app _ t y ys) by done. by rewrite Ht.
Qed.

(** appending a line feed and such a text *)
Lemma names_text_lines_app_LF (old t y : string) (ys : list string) :
  splitlines t = y :: ys → lacks CR t = true →
  lacks "'" y = true → String.prefix ")" y = false →
  names (text_lines (old +:+ String LF t)) = names (text_lines old) ++ names (y :: ys).
Proof.
  intros Ht Hcr Hy1 Hy2. unfold text_lines.
  destruct (universal_newlines_app_LF old t) as (t' & -> & [->| ->]);
    rewrite (universal_newlines_id t) by done.
  - rewrite (names_splitlines_app _ (String LF t) nl (y :: ys)); [|by simpl; rewrite Ht|done..].
    simpl splitlines. rewrite Ht.
    change (nl :: y :: ys) with ([nl] ++ y :: ys). by rewrite names_app.
  - rewrite (names_splitlines_app _ t y ys) by done. by rewrite Ht.
Qed.

Lemma marker_count_text_lines_app (old t y : string) (ys : list string) :
  splitlines t = y :: ys → lacks CR t = true →
  lacks "#" y = false → String.prefix nl t = false →
  marker_count (text_lines (old +:+ t))
  = (marker_count (text_lines old) + marker_count (y :: ys))%nat.
Proof.
  intros Ht Hcr Hy Hnl. unfold text_lines.
  rewrite universal_newlines_app, (universal_newlines_id t) by done.
  rewrite (marker_count_splitlines_app _ t y ys) by done. by rewrite Ht.
Qed.

End AppendFacts.

(** ** The lines of a record *)

Module RecordFacts.
Import StrFacts LineFacts ReFacts ScanFacts PayloadFacts AppendFacts.

Lemma is_line_prefix (a b : string) :
  lacks LF a = true → is_line (a +:+ b) = is_line b.
Proof.
  induction a as [|c a IH]; [done|].
  intros [Hc Ha]%lacks_LF_cons. simpl. rewrite Hc. by apply IH.
Qed.

Lemma lacks_ident (c : ascii) (var : string) :
  ident_char c = false → Str.all_chars ident_char var = true →
  lacks c var = true.
Proof.
  intros Hc. induction var as [|a var IH]; [done|].
  simpl. intros [Ha Hvar]%andb_true_iff. rewrite lacks_cons, IH by done.
  rewrite andb_true_r. apply negb_true_iff, Ascii.eqb_neq. intros ->. congruence.
Qed.

Lemma is_identifier_chars (var : string) :
  is_identifier var = true → Str.all_chars ident_char var = true.
Proof. destruct var; [done|]. cbn [is_identifier]. by intros [_ H]%andb_true_iff. Qed.

Lemma sanitize_identifier (N var : string) :
  _replace_non_alphanumeric_with_underscore N = Ok var →
  is_identifier var = true.
Proof.
  unfold _replace_non_alphanumeric_with_underscore.
  pose proof (letters_of_ident N) as Hall.
  destruct (letters_of N) as [|first rest]; [discriminate|].
  intros [= <-].
  destruct (negb (Str.isalpha first) && negb (Ascii.eqb first "_")) eqn:Hfirst.
  - rewrite is_identifier_of_list. cbn [forallb] in Hall |- *. by rewrite Hall.
  - rewrite is_identifier_of_list, Hall, andb_true_r. unfold ident_start.
    destruct (Str.isalpha first), (Ascii.eqb first "_"); done.
Qed.

Lemma not_marker_char (c : ascii) (l : string) :
  lacks c marker_line = true → lacks c l = false →
  String.eqb l marker_line = false.
Proof. intros Hm Hl. apply String.eqb_neq. intros ->. congruence. Qed.

Section Lines.
Variables (N var : string).
Hypothesis var_ident : Str.all_chars ident_char var = true.
Hypothesis N_no_LF : lacks LF N = true.
Hypothesis N_no_CR : lacks CR N = true.

Local Ltac var_lacks := apply lacks_ident; [reflexivity|exact var_ident].

Lemma var_no_LF : lacks LF var = true. Proof. var_lacks. Qed.
Lemma var_no_CR : lacks CR var = true. Proof. var_lacks. Qed.
Lemma var_no_quote : lacks "'" var = true. Proof. var_lacks. Qed.

Lemma silent_nl : silent nl.
Proof. by repeat split. Qed.

Lemma silent_separator : silent separator.
Proof. by repeat split. Qed.

Lemma silent_assignment : silent ((var +:+ " = PyEmbeddedImage(") +:+ nl).
Proof.
  split; [split; [|split]|].
  - apply is_line_app. by rewrite lacks_app, var_no_LF.
  - by rewrite !lacks_app, var_no_CR.
  - apply (not_marker_char "P"); [done|]. rewrite !lacks_app.
    by rewrite andb_false_r.
  - apply line_name_no_quote. by rewrite !lacks_app, var_no_quote.
Qed.

Lemma good_index_line : good_line (index_line N).
Proof.
  unfold index_line. split; [|split; [|done]].
  - rewrite is_line_prefix by done. by rewrite is_line_prefix.
  - by rewrite !lacks_app, N_no_CR.
Qed.

Lemma name_index_line : N ≠ "" → line_name (index_line N) = Some N.
Proof.
  intros Hne. unfold line_name.
  change (String.eqb (index_line N) marker_line) with false.
  by apply match_index_line.
Qed.

Lemma silent_catalog_line : silent (catalog_line N var).
Proof.
  unfold catalog_line. split; [split; [|split; [|done]]|done].
  - rewrite is_line_prefix by done. rewrite is_line_prefix by done.
    rewrite is_line_prefix by done. by rewrite is_line_prefix by apply var_no_LF.
  - by rewrite !lacks_app, N_no_CR, var_no_CR.
Qed.

Lemma silent_accessor_line (what : string) :
  lacks LF what = true → lacks CR what = true →
  silent (accessor_line var what).
Proof.
  intros H1 H2. unfold accessor_line. split; [split; [|split; [|done]]|done].
  - rewrite is_line_prefix by done.
    rewrite is_line_prefix by apply var_no_LF.
    rewrite is_line_prefix by done. rewrite is_line_prefix by done.
    rewrite is_line_prefix by apply var_no_LF.
    rewrite is_line_prefix by done. by rewrite is_line_prefix.
  - by rewrite !lacks_app, var_no_CR, H2.
Qed.

End Lines.

Lemma silent_payload_line (l : string) : payload_line l → silent l.
Proof.
  intros (Hl & Hcr & [->|[x ->]]); [apply silent_nl|].
  by repeat split.
Qed.

Lemma names_silent (ls : list string) : Forall silent ls → names ls = [].
Proof.
  induction 1 as [|l ls [_ Hl] _ IH]; [done|].
  unfold names in *. cbn [omap list_omap]. by rewrite Hl.
Qed.

Lemma marker_count_good (ls : list string) :
  Forall good_line ls → marker_count ls = 0%nat.
Proof.
  induction 1 as [|l ls (_ & _ & Hl) _ IH]; [done|].
  unfold marker_count in *. cbn [List.filter]. by rewrite Hl.
Qed.

Lemma lacks_concat (c : ascii) (ls : list string) :
  Forall (λ l, lacks c l = true) ls → lacks c (String.concat "" ls) = true.
Proof.
  induction 1 as [|l ls Hl _ IH]; [done|].
  by rewrite concat_empty_cons, lacks_app, Hl, IH.
Qed.

End RecordFacts.

(** ** The artifact after an invocation *)

Module TextFacts.
Import StrFacts LineFacts ReFacts ScanFacts PayloadFacts AppendFacts RecordFacts.

Ltac each_line tac :=
  repeat first [apply Forall_nil_2 | apply Forall_cons_2; [tac|]].

Lemma image_text_lines argv0 N var data dl icon catalog fc :
  data +:+ nl = String.concat "" dl →
  image_text argv0 N var data true icon catalog fc
  = String.concat "" (record_lines N var dl icon catalog fc).
Proof.
  intros Hdl.
  unfold image_text, preamble_text, record_text, assignment_text, record_lines,
    registration_lines, accessor_lines, accessors_text.
  rewrite !concat_empty_app, <- Hdl.
  destruct catalog, fc, icon; cbn [String.concat app];
    rewrite ?sapp_assoc, ?sapp_nil_r; reflexivity.
Qed.

Lemma catalog_start_text_lines :
  catalog_start_text = String LF (String.concat "" catalog_start_lines).
Proof. reflexivity. Qed.

Section Record.
Variables (N var data : string) (dl : list string) (icon catalog fc : bool).
Hypothesis Hvar : _replace_non_alphanumeric_with_underscore N = Ok var.
Hypothesis N_no_LF : lacks LF N = true.
Hypothesis N_no_CR : lacks CR N = true.
Hypothesis Hdl : Forall payload_line dl.

Lemma var_chars : Str.all_chars ident_char var = true.
Proof. by eapply is_identifier_chars, sanitize_identifier. Qed.

Lemma N_nonempty : N ≠ "".
Proof. intros ->. discriminate Hvar. Qed.

Lemma accessor_lines_silent : Forall silent (accessor_lines var icon fc).
Proof.
  unfold accessor_lines. destruct fc; [|constructor].
  apply Forall_app. split.
  - each_line ltac:(apply silent_accessor_line; [apply var_chars|done..]).
  - destruct icon; each_line ltac:(apply silent_accessor_line; [apply var_chars|done..]).
Qed.

Lemma registration_lines_good :
  Forall good_line (registration_lines N var catalog).
Proof.
  unfold registration_lines. destruct catalog; [|constructor].
  apply Forall_cons_2; [by apply good_index_line|].
  apply Forall_cons_2; [|constructor].
  apply silent_catalog_line; [apply var_chars|done..].
Qed.

Lemma registration_lines_names :
  names (registration_lines N var catalog) = if catalog then [N] else [].
Proof.
  unfold registration_lines. destruct catalog; [|done].
  unfold names. cbn [omap list_omap].
  rewrite (name_index_line N N_no_LF N_nonempty).
  destruct (silent_catalog_line N var var_chars N_no_LF N_no_CR) as [_ ->]. done.
Qed.

Lemma silent_good (ls : list string) : Forall silent ls → Forall good_line ls.
Proof. intros H. eapply Forall_impl; [exact H|]. by intros l [? _]. Qed.

Lemma record_lines_good :
  Forall good_line (record_lines N var dl icon catalog fc).
Proof.
  unfold record_lines. repeat (apply Forall_app; split).
  - apply silent_good.
    each_line ltac:(first [apply silent_separator | apply silent_assignment, var_chars]).
  - apply silent_good. eapply Forall_impl; [exact Hdl|]. apply silent_payload_line.
  - apply registration_lines_good.
  - apply silent_good, accessor_lines_silent.
  - apply silent_good. each_line ltac:(apply silent_nl).
Qed.

Lemma record_lines_names :
  names (record_lines N var dl icon catalog fc) = if catalog then [N] else [].
Proof.
  unfold record_lines. rewrite !names_app, registration_lines_names.
  rewrite (names_silent dl)
    by (eapply Forall_impl; [exact Hdl|apply silent_payload_line]).
  rewrite (names_silent (accessor_lines _ _ _)) by apply accessor_lines_silent.
  rewrite (names_silent [separator; _])
    by (each_line ltac:(first [apply silent_separator | apply silent_assignment, var_chars])).
  rewrite (names_silent [nl]) by (each_line ltac:(apply silent_nl)).
  by destruct catalog.
Qed.

End Record.

Lemma good_full (ls : list string) : Forall good_line ls → Forall full_line ls.
Proof. intros H. eapply Forall_impl; [exact H|]. by intros l (? & ? & _). Qed.

Lemma full_lines_splitlines (ls : list string) :
  Forall full_line ls → splitlines (String.concat "" ls) = ls.
Proof.
  intros H. rewrite <- (sapp_nil_r (String.concat "" ls)).
  rewrite splitlines_concat; [apply (right_id_L [] (++))|].
  eapply Forall_impl; [exact H|]. by intros l (? & _).
Qed.

Lemma full_lines_no_CR (ls : list string) :
  Forall full_line ls → lacks CR (String.concat "" ls) = true.
Proof.
  intros H. apply lacks_concat. eapply Forall_impl; [exact H|]. by intros l (_ & ?).
Qed.

Lemma catalog_start_lines_good :
  Forall good_line
    (["# ***************** Catalog starts here *******************" +:+ nl; nl]
     ++ ["index = []" +:+ nl; nl]).
Proof. each_line ltac:(by repeat split). Qed.

Lemma catalog_start_lines_names : names catalog_start_lines = [].
Proof. vm_compute. reflexivity. Qed.

Lemma names_lines_app (old : string) (ls : list string) :
  Forall full_line ls → quiet_start ls →
  String.prefix nl (String.concat "" ls) = false →
  names (text_lines (old +:+ String.concat "" ls)) = names (text_lines old) ++ names ls.
Proof.
  intros Hgood Hq Hnl. destruct ls as [|y ys]; [done|]. destruct Hq as [Hy1 Hy2].
  apply names_text_lines_app; try done.
  - by apply full_lines_splitlines.
  - by apply full_lines_no_CR.
Qed.

Lemma names_lines_app_LF (old : string) (ls : list string) :
  Forall full_line ls → quiet_start ls →
  names (text_lines (old +:+ String LF (String.concat "" ls)))
  = names (text_lines old) ++ names ls.
Proof.
  intros Hgood Hq. destruct ls as [|y ys]; [done|]. destruct Hq as [Hy1 Hy2].
  apply names_text_lines_app_LF; try done.
  - by apply full_lines_splitlines.
  - by apply full_lines_no_CR.
Qed.

Lemma marker_count_lines_app (old : string) (ls : list string) :
  Forall good_line ls →
  match ls with y :: _ => lacks "#" y = false | [] => False end →
  String.prefix nl (String.concat "" ls) = false →
  marker_count (text_lines (old +:+ String.concat "" ls)) = marker_count (text_lines old).
Proof.
  intros Hgood Hq Hnl. destruct ls as [|y ys]; [done|].
  rewrite (marker_count_text_lines_app old _ y ys); try done.
  - rewrite (marker_count_good _ Hgood). lia.
  - by apply full_lines_splitlines, good_full.
  - by apply full_lines_no_CR, good_full.
Qed.

(** the names a scan reads after one more invocation in append mode *)
Lemma names_after_append argv0 old N var data icon catalog fc (start : bool) :
  _replace_non_alphanumeric_with_underscore N = Ok var →
  lacks LF N = true → lacks CR N = true → is_payload data →
  names (text_lines (old +:+ (if start then catalog_start_text else "")
                         +:+ image_text argv0 N var data true icon catalog fc))
  = names (text_lines old) ++ (if catalog then [N] else []).
Proof.
  intros Hvar Hlf Hcr Hdata.
  destruct (payload_lines data Hdata) as (dl & Hdl & Hpl).
  rewrite (image_text_lines _ _ _ _ dl) by done.
  pose proof (record_lines_good N var dl icon catalog fc Hvar Hlf Hcr Hpl) as Hgood.
  pose proof (record_lines_names N var dl icon catalog fc Hvar Hlf Hcr Hpl) as Hnames.
  destruct start.
  - rewrite catalog_start_text_lines.
    change (String LF ?a +:+ ?b) with (String LF (a +:+ b)).
    rewrite <- concat_empty_app.
    rewrite names_lines_app_LF.
    + by rewrite names_app, Hnames, catalog_start_lines_names.
    + apply Forall_app. split; [|by apply good_full]. each_line ltac:(by split).
    + by split.
  - change ("" +:+ ?a) with a.
    rewrite names_lines_app; [by rewrite Hnames|by apply good_full|done..].
Qed.

(** the marker lines after an invocation that appends no catalog start *)
Lemma marker_count_after_append argv0 old N var data icon catalog fc :
  _replace_non_alphanumeric_with_underscore N = Ok var →
  lacks LF N = true → lacks CR N = true → is_payload data →
  marker_count (text_lines (old +:+ image_text argv0 N var data true icon catalog fc))
  = marker_count (text_lines old).
Proof.
  intros Hvar Hlf Hcr Hdata.
  destruct (payload_lines data Hdata) as (dl & Hdl & Hpl).
  rewrite (image_text_lines _ _ _ _ dl) by done.
  pose proof (record_lines_good N var dl icon catalog fc Hvar Hlf Hcr Hpl) as Hgood.
  by apply marker_count_lines_app.
Qed.

End TextFacts.

(** ** What the group of [indexPattern] holds *)

Module GroupFacts.
Import Re StrFacts LineFacts ReFacts ScanFacts.

(** a successful repetition hands a suffix of the subject to what follows *)
Lemma star_inv {A} (p : ascii → bool) (k : string → nat → option A) (v : A) :
  ∀ s pos, star p k s pos = Some v →
    ∃ pre s1, s = pre +:+ s1 ∧ Str.all_chars p pre = true
              ∧ k s1 (pos + String.length pre)%nat = Some v.
Proof.
  intros s. induction s as [|a s IH]; intros pos H.
  - exists "", "". simpl in *. by rewrite Nat.add_0_r.
  - simpl in H. destruct (p a) eqn:Hpa.
    + destruct (star p k s (S pos)) as [x|] eqn:Hstar.
      * injection H as ->. destruct (IH _ Hstar) as (pre & s1 & -> & Hpre & Hk).
        exists (String a pre), s1. split; [done|]. split; [by simpl; rewrite Hpa|].
        simpl. by rewrite Nat.add_succ_r.
      * exists "", (String a s). simpl. by rewrite Nat.add_0_r.
    + exists "", (String a s). simpl. by rewrite Nat.add_0_r.
Qed.

Lemma lit_inv (x : string) (r : regex) :
  ∀ s0 s pos g cap v,
    go (lit x ++ r) s0 s pos g cap = Some v →
    ∃ s', s = x +:+ s' ∧ go r s0 s' (pos + String.length x)%nat g cap = Some v.
Proof.
  induction x as [|c x IH]; intros s0 s pos g cap v H.
  - exists s. simpl in *. by rewrite Nat.add_0_r.
  - cbn [lit app go] in H. destruct s as [|a s]; [discriminate H|].
    cbn [accepts] in H. destruct (Ascii.eqb_spec a c) as [->|]; [|discriminate H].
    destruct (IH _ _ _ _ _ _ H) as (s' & -> & Hgo).
    exists s'. split; [done|]. simpl. by rewrite Nat.add_succ_r.
Qed.

Lemma closing_inv s0 s pos g cap v :
  go closing s0 s pos g cap = Some v → v = Str.take (pos - g) (Str.drop g s0).
Proof.
  unfold closing. cbn [app go]. intros H.
  apply (lit_inv "')" [Star Space]) in H as (s' & _ & H).
  cbn [go] in H. destruct (star_inv _ _ _ _ _ H) as (_ & _ & _ & _ & Hk).
  by injection Hk.
Qed.

Lemma all_chars_dot (s : string) :
  Str.all_chars (accepts Dot) s = true → lacks LF s = true.
Proof. done. Qed.

(** the group of a match: not empty, without line feed, and made of
    characters of the subject *)
Lemma match_group_inv (l g : string) :
  match_group indexPattern l = Some g →
  g ≠ "" ∧ lacks LF g = true ∧ ∃ pre post, l = pre +:+ g +:+ post.
Proof.
  unfold match_group, indexPattern. cbn [app go]. intros H.
  destruct (star_inv _ _ _ _ _ H) as (ws & s1 & -> & _ & H1). clear H.
  apply (lit_inv "index" _) in H1 as (s2 & -> & H2).
  cbn [app go] in H2. destruct s2 as [|c s2]; [discriminate H2|].
  destruct (accepts Dot c); [|discriminate H2].
  apply (lit_inv "append('" _) in H2 as (s3 & -> & H3).
  cbn [app go] in H3. destruct s3 as [|a s3]; [discriminate H3|].
  destruct (accepts Dot a) eqn:Ha; [|discriminate H3].
  destruct (star_inv _ _ _ _ _ H3) as (body & s4 & -> & Hbody & H4). clear H3.
  apply closing_inv in H4. subst g.
  set (pre := ws +:+ "index" +:+ String c "append('").
  set (gpos := (S (0 + String.length ws + String.length "index")
                + String.length "append('")%nat).
  assert (Hlen : String.length pre = gpos).
  { unfold pre, gpos. rewrite !length_sapp. simpl. lia. }
  replace (ws +:+ "index" +:+ String c ("append('" +:+ String a (body +:+ s4)))
    with (pre +:+ (String a body +:+ s4))
    by (unfold pre; by rewrite !sapp_assoc).
  replace (S gpos + String.length body - gpos)%nat
    with (String.length (String a body)) by (simpl; lia).
  rewrite <- Hlen, drop_app, take_app.
  split; [done|]. split.
  - rewrite lacks_cons. change (negb (Ascii.eqb a LF)) with (accepts Dot a).
    rewrite Ha. by apply all_chars_dot.
  - by exists pre, s4.
  - exact "".
Qed.

End GroupFacts.

(** ** The names a scan reads *)

Module NameFacts.
Import Re StrFacts LineFacts ReFacts ScanFacts GroupFacts.

Lemma universal_newlines_no_CR (s : string) :
  lacks CR (universal_newlines s) = true.
Proof.
  induction s as [|c s IH]; [done|].
  simpl. destruct (Ascii.eqb c CR) eqn:Hc.
  - destruct s as [|c' s]; [done|]. destruct (Ascii.eqb c' LF); [done|].
    by rewrite lacks_cons, IH.
  - by rewrite lacks_cons, Hc, IH.
Qed.

Lemma splitlines_lacks (c : ascii) (s : string) :
  lacks c s = true → Forall (λ l, lacks c l = true) (splitlines s).
Proof.
  induction s as [|a s IH]; [constructor|].
  rewrite lacks_cons. intros [Ha Hs]%andb_true_iff. specialize (IH Hs).
  simpl. destruct (Ascii.eqb a LF) eqn:Hlf.
  - constructor; [|done]. apply Ascii.eqb_eq in Hlf as ->. unfold nl.
    by rewrite lacks_cons, Ha.
  - destruct (splitlines s) as [|l ls].
    + constructor; [|done]. by rewrite lacks_cons, Ha.
    + inversion IH; subst. constructor; [|done]. by rewrite lacks_cons, Ha.
Qed.

(** a name read by the scan is not empty and has no line end in it *)
Lemma scanned_name (old N : string) :
  N ∈ names (text_lines old) →
  N ≠ "" ∧ lacks LF N = true ∧ lacks CR N = true.
Proof.
  unfold names. intros (l & Hl & HN)%list_elem_of_omap.
  unfold line_name in HN. destruct (String.eqb l marker_line); [discriminate HN|].
  apply match_group_inv in HN as (Hne & Hlf & pre & post & ->).
  split; [done|]. split; [done|].
  pose proof (splitlines_lacks CR _ (universal_newlines_no_CR old)) as Hcr.
  rewrite Forall_forall in Hcr. specialize (Hcr _ Hl).
  rewrite !lacks_app in Hcr.
  apply andb_true_iff in Hcr as [_ Hcr]. by apply andb_true_iff in Hcr as [Hcr _].
Qed.

Lemma mem_elem_of (x : string) (l : list string) :
  Str.mem x l = true ↔ x ∈ l.
Proof.
  unfold Str.mem. rewrite existsb_exists. split.
  - intros (y & Hy & ->%String.eqb_eq). by apply list_elem_of_In.
  - intros Hx. exists x. split; [by apply list_elem_of_In|apply String.eqb_refl].
Qed.

End NameFacts.

(** ** Appending to a catalog (source lines 145-150 and 210-231) *)

Module WholeFacts.

Section Payload.
Variable BITMAP_TYPE_PNG : N.
Variable img2img_convert :
  string → option string → option string → option string → N → string →
  M (bool * string).
Variable tempname : gmap string string → string.

(** what a successful conversion hands over is a payload *)
Lemma conversion_payload image_file maskClr w data w1 :
  conversion_phase BITMAP_TYPE_PNG img2img_convert tempname image_file maskClr w
  = (Ok (Some data), w1) →
  is_payload data.
Proof.
  rewrite Run.conversion_phase_run. intros [= Hout _].
  unfold encode_phase in Hout. rewrite Run.bind_run in Hout.
  destruct (convert _ _ _ _ _ _ _ _) as [[[ok msg]|e] wc]; [|discriminate Hout].
  destruct ok; cbn [negb] in Hout; [|discriminate Hout].
  rewrite Run.bind_run in Hout. unfold read_file in Hout.
  destruct (files wc !! _) as [content|]; [|discriminate Hout].
  destruct (encode_payload (list_byte_of_string content)) as [d|] eqn:Hd;
    [|discriminate Hout].
  injection Hout as <-. by eexists.
Qed.
End Payload.

Lemma sanitize_defined (N : string) :
  N ≠ "" → ∃ var, _replace_non_alphanumeric_with_underscore N = Ok var.
Proof.
  intros Hne. destruct N as [|c s]; [done|].
  unfold _replace_non_alphanumeric_with_underscore.
  destruct (letters_of (String c s)) as [|first rest] eqn:Hl; [discriminate Hl|].
  by eexists.
Qed.

Lemma scan_names (lines : list string) : (scan lines).2 = names lines.
Proof. by rewrite ScanFacts.scan_spec. Qed.

Lemma scan_flag (lines : list string) : (scan lines).1 = negb (has_marker lines).
Proof. by rewrite ScanFacts.scan_spec. Qed.

Lemma st_lookup p c l w : files (st p c l w) !! p = Some c.
Proof. unfold st. cbn [files]. apply lookup_insert_eq. Qed.

End WholeFacts.

Import WholeFacts.

Section Append.
Variable argv0 : string.
Variable BITMAP_TYPE_PNG : N.
Variable img2img_convert :
  string → option string → option string → option string → N → string →
  M (bool * string).
Variable tempname : gmap string string → string.

Abbreviation conversion_phase_ :=
  (conversion_phase BITMAP_TYPE_PNG img2img_convert tempname).
Abbreviation img2py_ := (img2py argv0 BITMAP_TYPE_PNG img2img_convert tempname).

(** an invocation in append and catalog mode on an existing file *)
Lemma img2py_append_catalog image_file python_file compressed maskClr imgName
    icon fc fci w data w1 old var :
  conversion_phase_ image_file maskClr w = (Ok (Some data), w1) →
  python_file ≠ "-" →
  files w1 !! python_file = Some old →
  let name := resolved_name imgName image_file in
  _replace_non_alphanumeric_with_underscore name = Ok var →
  img2py_ image_file python_file true compressed maskClr imgName icon true
    fc fci w
  = (Ok tt,
     st python_file
        (old +:+ (if has_marker (text_lines old) then "" else catalog_start_text)
             +:+ separator +:+ record_text name var data icon true (default fc fci))
        (stdout w1 ++ name_warning imgName image_file
           ++ (if Str.mem name (names (text_lines old))
               then shadow_warning name else [])
           ++ [summary_line image_file python_file maskClr name])
        w1).
Proof.
  intros Hc Hpy Hold name Hvar.
  erewrite Run.img2py_file with (old := old); try done.
  unfold reconciled_text, reconciled_index.
  rewrite reconciles_append_catalog by done. cbn [andb].
  rewrite scan_flag, scan_names.
  by destruct (has_marker (text_lines old)).
Qed.




End Append.





(** ** The artifact that does not exist yet (source lines 211-231) *)

(** C2, as the claim states it, fails: in append and catalog mode the scan
    opens the artifact for reading, and with no file [out.py] the invocation
    raises [FileNotFoundError]; nothing is created and nothing is printed. *)
Lemma C2_missing_artifact_raises :
  let w := Sample.one_image in
  let r := img2py "img2py.py" 15 Sample.failing_codec Sample.tempname
             "a.png" "out.py" true true None "a" false true false None w in
  files w !! "out.py" = None
  ∧ r.1 = Raise (FileNotFoundError "out.py")
  ∧ files r.2 !! "out.py" = None
  ∧ stdout r.2 = [].
Proof. vm_compute. repeat split. Qed.

(** a sequence of lines with a marker line in its count has one *)
Lemma has_marker_count (ls : list string) :
  marker_count ls ≠ 0%nat → has_marker ls = true.
Proof.
  unfold marker_count, has_marker. induction ls as [|l ls IH]; [done|].
  cbn [List.filter existsb]. destruct (String.eqb l marker_line); [done|].
  exact IH.
Qed.

Section Fresh.
Variable argv0 : string.
Variable BITMAP_TYPE_PNG : N.
Variable img2img_convert :
  string → option string → option string → option string → N → string →
  M (bool * string).
Variable tempname : gmap string string → string.

Abbreviation conversion_phase_ :=
  (conversion_phase BITMAP_TYPE_PNG img2img_convert tempname).
Abbreviation img2py_ := (img2py argv0 BITMAP_TYPE_PNG img2img_convert tempname).

(** the first record of an empty artifact, in append and catalog mode *)
Lemma first_record_text (N var data : string) (icon fc : bool) :
  _replace_non_alphanumeric_with_underscore N = Ok var →
  lacks LF N = true → lacks CR N = true → is_payload data →
  let first := catalog_start_text +:+ separator
                 +:+ record_text N var data icon true fc in
  has_marker (text_lines first) = true
  ∧ marker_count (text_lines first) = 1%nat
  ∧ names (text_lines first) = [N].
Proof.
  intros Hvar Hlf Hcr Hdata first.
  assert (Hcount : marker_count (text_lines first) = 1%nat).
  { etrans; [exact (TextFacts.marker_count_after_append argv0 catalog_start_text
                      N var data icon true fc Hvar Hlf Hcr Hdata)|].
    reflexivity. }
  split; [apply has_marker_count; by rewrite Hcount|]. split; [exact Hcount|].
  exact (TextFacts.names_after_append argv0 "" N var data icon true fc true
           Hvar Hlf Hcr Hdata).
Qed.

(** C2, amended: in append and catalog mode on a file target, an invocation
    whose conversion succeeded raises [FileNotFoundError] when the artifact
    does not exist, and the artifact is not created. When the artifact exists
    and is empty, it counts as having no scaffolding and no entries: two
    successive invocations with the names [a] and [b] both return normally
    and leave the catalog start once, followed by the record of [a] and the
    record of [b]; the artifact has one marker line and a scan reads the
    names [a], [b] in this order. *)
Theorem C2_append_needs_existing_artifact
    (python_file : string) (compressed icon functionCompatible : bool)
    (functionCompatibile : option bool) :
  python_file ≠ "-" →
  let fc := default functionCompatible functionCompatibile in
  (∀ image_file maskClr imgName w w1 data,
     conversion_phase_ image_file maskClr w = (Ok (Some data), w1) →
     files w1 !! python_file = None →
     img2py_ image_file python_file true compressed maskClr imgName icon true
       functionCompatible functionCompatibile w
     = (Raise (FileNotFoundError python_file), w1))
  ∧ (∀ image_a mask_a w w1 da,
       conversion_phase_ image_a mask_a w = (Ok (Some da), w1) →
       files w1 !! python_file = Some "" →
       ∃ w2,
         img2py_ image_a python_file true compressed mask_a "a" icon true
           functionCompatible functionCompatibile w = (Ok tt, w2)
         ∧ files w2 !! python_file
           = Some (catalog_start_text +:+ separator
                     +:+ record_text "a" "a" da icon true fc)
         ∧ ∀ image_b mask_b w3 db,
             conversion_phase_ image_b mask_b w2 = (Ok (Some db), w3) →
             files w3 !! python_file = files w2 !! python_file →
             ∃ w4 new,
               img2py_ image_b python_file true compressed mask_b "b" icon true
                 functionCompatible functionCompatibile w2 = (Ok tt, w4)
               ∧ files w4 !! python_file = Some new
               ∧ new = catalog_start_text
                         +:+ separator +:+ record_text "a" "a" da icon true fc
                         +:+ separator +:+ record_text "b" "b" db icon true fc
               ∧ marker_count (text_lines new) = 1%nat
               ∧ (scan (text_lines new)).2 = ["a"; "b"]).
Proof.
  intros Hpy fc. split.
  - intros image_file maskClr imgName w w1 data Hc Hnone.
    erewrite Run.img2py_after_conversion by exact Hc.
    erewrite Run.bind_raise; [reflexivity|].
    apply Run.reconcile_missing; [by apply reconciles_append_catalog|exact Hnone].
  - intros image_a mask_a w w1 da Hca Hempty.
    pose proof (conversion_payload _ _ _ _ _ _ _ _ Hca) as Hda.
    destruct (first_record_text "a" "a" da icon fc eq_refl eq_refl eq_refl Hda)
      as (Hmark & Hcount & Hnames).
    set (first := catalog_start_text +:+ separator
                    +:+ record_text "a" "a" da icon true fc) in *.
    pose proof (img2py_append_catalog argv0 BITMAP_TYPE_PNG img2img_convert
                  tempname image_a python_file compressed mask_a "a" icon
                  functionCompatible functionCompatibile w da w1 "" "a"
                  Hca Hpy Hempty eq_refl) as Hrun1.
    eexists. split; [exact Hrun1|].
    split; [apply st_lookup|].
    intros image_b mask_b w3 db Hcb Hsame.
    rewrite st_lookup in Hsame.
    pose proof (conversion_payload _ _ _ _ _ _ _ _ Hcb) as Hdb.
    pose proof (img2py_append_catalog argv0 BITMAP_TYPE_PNG img2img_convert
                  tempname image_b python_file compressed mask_b "b" icon
                  functionCompatible functionCompatibile _ db w3 first "b"
                  Hcb Hpy Hsame eq_refl) as Hrun2.
    rewrite Hmark in Hrun2.
    eexists _, _. split; [exact Hrun2|].
    split; [apply st_lookup|].
    change (resolved_name "b" image_b) with "b". fold fc.
    change ("" +:+ ?x) with x.
    split; [unfold first; by rewrite !StrFacts.sapp_assoc|].
    split.
    + etrans; [exact (TextFacts.marker_count_after_append argv0 first "b" "b" db
                        icon true fc eq_refl eq_refl eq_refl Hdb)|].
      exact Hcount.
    + rewrite scan_names.
      etrans; [exact (TextFacts.names_after_append argv0 first "b" "b" db icon
                        true fc false eq_refl eq_refl eq_refl Hdb)|].
      by rewrite Hnames.
Qed.

End Fresh.

(** the two cases on the sample directory: without [out.py], and with an
    empty [out.py] filled by two invocations *)
Lemma C2_append_witness :
  let run := img2py "img2py.py" 15 Sample.failing_codec Sample.tempname in
  let data := "    b'aGVsbG8=')" in
  "out.py" ≠ "-"
  ∧ run "a.png" "out.py" true true None "a" false true false None Sample.one_image
    = (Raise (FileNotFoundError "out.py"), Sample.one_image)
  ∧ ∃ w2 w4 new,
      run "a.png" "out.py" true true None "a" false true false None
        Sample.empty_artifact = (Ok tt, w2)
      ∧ run "a.png" "out.py" true true None "b" false true false None w2
        = (Ok tt, w4)
      ∧ files w4 !! "out.py" = Some new
      ∧ new = catalog_start_text
                +:+ separator +:+ record_text "a" "a" data false true false
                +:+ separator +:+ record_text "b" "b" data false true false
      ∧ marker_count (text_lines new) = 1%nat
      ∧ (scan (text_lines new)).2 = ["a"; "b"].
Proof.
  intros run data.
  assert (Hpy : "out.py" ≠ "-") by discriminate.
  destruct (C2_append_needs_existing_artifact "img2py.py" 15 Sample.failing_codec
              Sample.tempname "out.py" true false false None Hpy)
    as [Hmissing Hempty].
  split; [exact Hpy|]. split.
  - apply (Hmissing "a.png" None "a" Sample.one_image Sample.one_image data).
    + vm_compute. reflexivity.
    + vm_compute. reflexivity.
  - destruct (Hempty "a.png" None Sample.empty_artifact Sample.empty_artifact data)
      as (w2 & Hrun1 & Hfile & Hnext).
    + vm_compute. reflexivity.
    + vm_compute. reflexivity.
    + pose (w2c := (run "a.png" "out.py" true true None "a" false true false
                       None Sample.empty_artifact).2).
      assert (Hw2 : w2 = w2c) by (unfold w2c, run; by rewrite Hrun1).
      subst w2.
      destruct (Hnext "a.png" None w2c data) as (w4 & new & Hrun2 & Hrest).
      * vm_compute. reflexivity.
      * reflexivity.
      * exists w2c, w4, new.
        split; [exact Hrun1|]. split; [exact Hrun2|exact Hrest].
Defined.

(** * Further properties *)

(** ** The lines of the payload (source lines 195-205) *)

Module ChunkFacts.
Import Base64.

(** the encoder turns every three bytes, and what is left, into four
    characters *)
Lemma b64encode_length (n : nat) :
  ∀ bs, (length bs ≤ n)%nat →
    length (b64encode bs) = (4 * ((length bs + 2) / 3))%nat.
Proof.
  induction n as [n IH] using lt_wf_ind. intros bs Hn.
  destruct bs as [|a [|b [|c rest]]]; [reflexivity..|].
  cbn [b64encode length]. rewrite (IH (length rest)); cbn [length] in Hn; [|lia..].
  replace (S (S (S (length rest))) + 2)%nat with (length rest + 2 + 1 * 3)%nat by lia.
  rewrite Nat.div_add by lia. lia.
Qed.

(** the loop ends and puts the characters [72 i], ..., [72 i + 71] of the
    data on line [i] *)
Lemma chunk_loop_lookup (fuel : nat) :
  ∀ data, (length data ≤ fuel)%nat →
    ∃ ls, chunk_loop fuel data [] = Some ls
          ∧ length ls = ((length data + 71) / 72)%nat
          ∧ ∀ i l, ls !! i = Some l →
              l = chunk_text (take 72 (drop (72 * i) data))
                    (bool_decide (S i = length ls)).
Proof.
  induction fuel as [fuel IH] using lt_wf_ind. intros data Hfuel.
  destruct data as [|b data].
  { exists []. destruct fuel; (split; [reflexivity|]); by split. }
  destruct fuel as [|fuel]; [cbn [length] in Hfuel; lia|].
  rewrite EncoderFacts.chunk_loop_step.
  assert (Hpos : (1 ≤ length (b :: data))%nat) by (cbn [length]; lia).
  remember (b :: data) as full eqn:Hfull. clear Hfull.
  assert (Hlen : length (drop 72 full) = (length full - 72)%nat) by apply length_drop.
  destruct (IH fuel (Nat.lt_succ_diag_r _) (drop 72 full)) as (ls & -> & Hcount & Hls);
    [lia|].
  assert (Hdiv : S ((length (drop 72 full) + 71) / 72) = ((length full + 71) / 72)%nat).
  { rewrite Hlen. destruct (Nat.le_gt_cases (length full) 72) as [Hle|Hgt].
    - replace (length full - 72)%nat with 0%nat by lia.
      rewrite (Nat.div_small 71) by lia.
      apply (Nat.div_unique _ 72 1 (length full - 1)); lia.
    - replace (length full + 71)%nat with (length full - 72 + 71 + 1 * 72)%nat by lia.
      rewrite Nat.div_add by lia. lia. }
  eexists. split; [reflexivity|]. cbn [length]. rewrite Hcount. split; [exact Hdiv|].
  intros [|i] l Hl; cbn [lookup list_lookup] in Hl.
  - injection Hl as <-. rewrite Nat.mul_0_r. cbn [drop]. f_equal.
    apply bool_decide_ext. rewrite <- Hcount. split.
    + intros Hnil. rewrite Hnil in Hcount. cbn [length] in Hcount.
      rewrite (Nat.div_small 71) in Hcount by lia. by rewrite Hcount.
    + intros [= Hz]. symmetry in Hz. apply length_zero_iff_nil in Hz.
      rewrite Hz in Hcount. cbn [length] in Hcount.
      destruct (drop 72 full) as [|x xs] eqn:Hd; [done|]. exfalso.
      cbn [length] in Hcount.
      assert (1 ≤ (S (length xs) + 71) / 72)%nat; [|lia].
      apply Nat.div_le_lower_bound; lia.
  - specialize (Hls i l Hl). rewrite Hls, drop_drop.
    replace (72 + 72 * i)%nat with (72 * S i)%nat by lia. f_equal.
    apply bool_decide_ext. lia.
Qed.

End ChunkFacts.

Module LengthFacts.

Lemma length_string_of_list_byte (bs : list byte) :
  String.length (string_of_list_byte bs) = length bs.
Proof.
  induction bs as [|b bs IH]; [done|].
  change (String.length (string_of_list_byte (b :: bs)))
    with (S (String.length (string_of_list_byte bs))).
  by rewrite IH.
Qed.

Lemma plain_take_drop (n m : nat) (data : list byte) :
  Forall plain data → Forall plain (take n (drop m data)).
Proof. intros H. by apply Forall_take, Forall_drop. Qed.

(** a line of the payload, written out *)
Lemma chunk_text_plain (part : list byte) (final : bool) :
  Forall plain part →
  chunk_text part final
  = "    b'" +:+ string_of_list_byte part +:+ "'" +:+ (if final then ")" else "").
Proof.
  intros Hplain. unfold chunk_text. rewrite (EncoderFacts.bytes_repr_plain _ Hplain).
  destruct final; by rewrite ?StrFacts.sapp_assoc, ?StrFacts.sapp_nil_r.
Qed.

End LengthFacts.

(** X1: the payload of an image of [n] bytes has a line for every 72 characters
    of its base64 text, which has four characters for every three bytes:
    line [i] is four spaces and the bytes literal of the characters [72 i] to
    [72 i + 71], and the last line ends with the closing parenthesis *)
Theorem payload_line_contents (png : list byte) :
  let data := Base64.b64encode png in
  ∃ ls, encode_lines png = Some ls
        ∧ length ls = ((4 * ((length png + 2) / 3) + 71) / 72)%nat
        ∧ ∀ i l, ls !! i = Some l →
            l = "    b'" +:+ string_of_list_byte (take 72 (drop (72 * i) data))
                  +:+ "'" +:+ (if bool_decide (S i = length ls) then ")" else "").
Proof.
  intros data. unfold encode_lines. fold data.
  destruct (ChunkFacts.chunk_loop_lookup (length data) data (le_n _))
    as (ls & Hrun & Hcount & Hls).
  exists ls. split; [exact Hrun|]. split.
  - rewrite Hcount. unfold data.
    by rewrite (ChunkFacts.b64encode_length (length png) png (le_n _)).
  - intros i l Hl. rewrite (Hls i l Hl).
    apply LengthFacts.chunk_text_plain, LengthFacts.plain_take_drop.
    apply (EncoderFacts.b64encode_plain (length png)). lia.
Qed.

(** X2: no line of the payload is longer than 80 characters, and every line but
    the last has exactly 79: four spaces, [b'], 72 base64 characters and
    ['] *)
Theorem payload_line_lengths (png : list byte) :
  ∃ ls, encode_lines png = Some ls
        ∧ Forall (λ l, String.length l ≤ 80)%nat ls
        ∧ ∀ i l, ls !! i = Some l → (S i < length ls)%nat →
            String.length l = 79%nat.
Proof.
  unfold encode_lines. set (data := Base64.b64encode png).
  destruct (ChunkFacts.chunk_loop_lookup (length data) data (le_n _))
    as (ls & Hrun & Hcount & Hls).
  assert (Hplain : Forall plain data).
  { apply (EncoderFacts.b64encode_plain (length png)). lia. }
  assert (Hlen : ∀ i l, ls !! i = Some l →
            String.length l
            = (7 + length (take 72 (drop (72 * i) data))
               + (if bool_decide (S i = length ls) then 1 else 0))%nat).
  { intros i l Hl. rewrite (Hls i l Hl).
    rewrite LengthFacts.chunk_text_plain by by apply LengthFacts.plain_take_drop.
    rewrite !StrFacts.length_sapp, LengthFacts.length_string_of_list_byte.
    cbn [String.length]. destruct (bool_decide _); cbn [String.length]; lia. }
  exists ls. split; [exact Hrun|]. split.
  - apply Forall_lookup. intros i l Hl. rewrite (Hlen i l Hl).
    pose proof (length_take_le (drop (72 * i) data) 72).
    rewrite length_take. destruct (bool_decide _); lia.
  - intros i l Hl Hlast. rewrite (Hlen i l Hl).
    rewrite bool_decide_false by lia.
    rewrite length_take, length_drop.
    assert (72 * S (S i) ≤ length data + 71)%nat; [|lia].
    rewrite Hcount in Hlast.
    apply (Nat.mul_le_mono_l _ _ 72) in Hlast.
    pose proof (Nat.Div0.mul_div_le (length data + 71) 72). lia.
Qed.

(** ** The command line (source lines 258-301) *)

Module MainFacts.
Import Getopt.

(** the options of a command line are taken one by one *)
Lemma getopt_loop_options (os : list cli_option) (rest : list string) :
  ∀ fuel acc,
    (length (command_line os rest) ≤ fuel)%nat →
    ∃ fuel', (length rest ≤ fuel')%nat
             ∧ getopt_loop fuel acc (command_line os rest) "auicfFn:m:"
               = getopt_loop fuel' (acc ++ map option_pair os) rest "auicfFn:m:".
Proof.
  unfold command_line. induction os as [|o os IH]; intros fuel acc Hfuel.
  - exists fuel. split; [exact Hfuel|]. by rewrite app_nil_r.
  - cbn [map concat] in Hfuel |- *. rewrite <- app_assoc in Hfuel |- *.
    assert (Hpair : acc ++ option_pair o :: map option_pair os
                    = (acc ++ [option_pair o]) ++ map option_pair os)
      by (by rewrite <- app_assoc).
    rewrite Hpair.
    destruct fuel as [|fuel];
      [destruct o; cbn [option_args app length] in Hfuel; lia|].
    destruct (IH fuel (acc ++ [option_pair o])) as (fuel' & Hle & Heq).
    { destruct o; cbn [option_args app length] in Hfuel; lia. }
    exists fuel'. split; [exact Hle|]. rewrite <- Heq.
    destruct o; reflexivity.
Qed.

(** a command line whose options are followed by file arguments is parsed
    into its options and these arguments *)
Lemma getopt_command_line (os : list cli_option) (files : list string) :
  match files with [] => True | a :: _ => ends_options a = true end →
  getopt (command_line os files) "auicfFn:m:" = Parsed (map option_pair os) files.
Proof.
  intros Hend. unfold getopt.
  destruct (getopt_loop_options os files (length (command_line os files)) []
              (le_n _)) as (fuel' & _ & ->).
  cbn [app]. destruct files as [|a rest]; [by destruct fuel'|].
  unfold ends_options in Hend. apply negb_true_iff in Hend.
  destruct fuel'; cbn [getopt_loop]; by rewrite Hend.
Qed.

(** the settings after the loop over the options *)
Lemma fold_settings (os : list cli_option) :
  fold_left set_option (map option_pair os) default_settings
  = Settings (has_append os) true (last_mask os) (last_name os) (has_icon os)
      (has_catalog os) (last_compatible os).
Proof.
  induction os as [|o os IH] using rev_ind; [reflexivity|].
  rewrite map_app, fold_left_app, IH. cbn [map fold_left].
  unfold has_append, has_icon, has_catalog, last_name, last_mask, last_compatible.
  rewrite !existsb_app, !omap_app, !last_app.
  destruct o; cbn [option_pair set_option String.eqb Ascii.eqb Bool.eqb existsb omap
                     list_omap last orb default];
    rewrite ?orb_false_r, ?orb_true_r; reflexivity.
Qed.

(** letters without argument followed by an unknown letter *)
Lemma do_shorts_unknown (flags : string) (c : ascii) (rest : string) :
  Str.all_chars flag_letter flags = true →
  short_has_arg c "auicfFn:m:" = None →
  ∀ acc args,
    do_shorts acc (flags +:+ String c rest) "auicfFn:m:" args = GetoptError.
Proof.
  intros Hflags Hc. induction flags as [|x flags IH]; intros acc args.
  - cbn [String.append do_shorts]. by rewrite Hc.
  - cbn [Str.all_chars] in Hflags. apply andb_true_iff in Hflags as [Hx Hflags].
    cbn [String.append do_shorts].
    assert (Hnoarg : short_has_arg x "auicfFn:m:" = Some false).
    { unfold flag_letter in Hx. cbn [existsb] in Hx.
      repeat (apply orb_true_iff in Hx as [->%Ascii.eqb_eq|Hx]; [reflexivity|]).
      discriminate Hx. }
    rewrite Hnoarg. by apply IH.
Qed.

(** one turn of the loop on such an argument *)
Lemma getopt_loop_unknown (flags : string) (c : ascii) (rest : string)
    (fuel : nat) (acc : list (string * string)) (more : list string) :
  Str.all_chars flag_letter flags = true →
  short_has_arg c "auicfFn:m:" = None →
  flags +:+ String c rest ≠ "-" →
  getopt_loop (S fuel) acc (String "-" (flags +:+ String c rest) :: more)
    "auicfFn:m:" = GetoptError.
Proof.
  intros Hflags Hc Hdash.
  pose proof (do_shorts_unknown flags c rest Hflags Hc acc more) as Hshorts.
  destruct (flags +:+ String c rest) as [|x y] eqn:Hpart.
  { destruct flags; discriminate Hpart. }
  assert (H1 : Str.startswith (String "-" (String x y)) "-" = true) by done.
  assert (H2 : String.eqb (String "-" (String x y)) "-" = false) by done.
  assert (H3 : String.eqb (String "-" (String x y)) "--" = false).
  { apply String.eqb_neq. intros [= -> ->]. by apply Hdash. }
  cbn [getopt_loop]. rewrite H1, H2, H3. cbn [andb negb].
  destruct (Str.startswith _ "--"); [reflexivity|].
  change (Str.drop 1 (String "-" (String x y))) with (String x y).
  by rewrite Hshorts.
Qed.

Lemma command_line_cons (os : list cli_option) (a : string) (rest : list string) :
  ∃ b tail, command_line os (a :: rest) = b :: tail.
Proof.
  unfold command_line.
  destruct (concat (map option_args os)) as [|b tail]; cbn [app]; by eexists _, _.
Qed.

End MainFacts.

Section MainRuns.
Variable argv0 : string.
Variable BITMAP_TYPE_PNG : N.
Variable img2img_convert :
  string → option string → option string → option string → N → string →
  M (bool * string).
Variable tempname : gmap string string → string.
Variable argv_tail : list string.
Variable doc : string.

Abbreviation main_ :=
  (main argv0 BITMAP_TYPE_PNG img2img_convert tempname argv_tail doc).
Abbreviation img2py_ := (img2py argv0 BITMAP_TYPE_PNG img2img_convert tempname).

(** X19: options, each in an argument of its own, followed by two file arguments:
    [main] calls [img2py] on the two files; a flag is on when it is given, of
    several names, mask colours or compatibility flags the last one counts,
    [-u] changes nothing and [compressed] stays on. With another number of
    file arguments [main] prints the usage message and does nothing else.
    The arguments are those given to [main] or, when none is given, those of
    the command line. *)
Theorem main_calls_img2py (os : list cli_option) (fileArgs args : list string)
    (w : world) :
  args = command_line os fileArgs ∨ (args = [] ∧ argv_tail = command_line os fileArgs) →
  command_line os fileArgs ≠ [] →
  match fileArgs with [] => True | a :: _ => ends_options a = true end →
  Str.mem "-h" (command_line os fileArgs) = false →
  main_ args w =
    match fileArgs with
    | [image_file; python_file] =>
        img2py_ image_file python_file (has_append os) true (last_mask os)
          (last_name os) (has_icon os) (has_catalog os) (last_compatible os)
          None w
    | _ => usage doc w
    end.
Proof.
  intros Hargs Hne Hend Hhelp. unfold main.
  assert (Heff : match args with [] => argv_tail | _ :: _ => args end
                 = command_line os fileArgs).
  { destruct Hargs as [->|[-> ->]]; [|reflexivity].
    by destruct (command_line os fileArgs). }
  rewrite Heff. clear Heff Hargs.
  rewrite Hhelp, (MainFacts.getopt_command_line os fileArgs Hend).
  destruct (command_line os fileArgs); [done|]. cbn [orb].
  rewrite MainFacts.fold_settings. cbn [opt_append opt_compressed opt_maskClr
    opt_imgName opt_icon opt_catalog opt_compatible].
  by destruct fileArgs as [|a [|b [|c more]]].
Qed.

(** X20: an argument with an unknown option letter, after options and possibly
    after letters of options without argument, or [-n] or [-m] as the last
    argument without a value: [main] prints the usage message and does
    nothing else, whatever follows *)
Theorem main_rejects_bad_options (os : list cli_option) (tail : list string)
    (w : world) :
  (∃ flags c rest more,
     tail = String "-" (flags +:+ String c rest) :: more
     ∧ Str.all_chars flag_letter flags = true
     ∧ Getopt.short_has_arg c "auicfFn:m:" = None
     ∧ flags +:+ String c rest ≠ "-")
  ∨ tail = ["-n"] ∨ tail = ["-m"] →
  main_ (command_line os tail) w = usage doc w.
Proof.
  intros Hbad. unfold main.
  assert (∃ a more, tail = a :: more) as (a & more & Htail).
  { destruct Hbad as [(? & ? & ? & ? & -> & _)|[->| ->]]; by eexists _, _. }
  destruct (MainFacts.command_line_cons os a more) as (b & t & Hcl).
  rewrite Htail, Hcl, <- Hcl, <- Htail. cbn [orb].
  destruct (Str.mem "-h" (command_line os tail)); [reflexivity|].
  unfold Getopt.getopt.
  destruct (MainFacts.getopt_loop_options os tail
              (length (command_line os tail)) [] (le_n _)) as (fuel' & Hle & ->).
  cbn [app].
  destruct fuel' as [|fuel']; [rewrite Htail in Hle; cbn [length] in Hle; lia|].
  destruct Hbad as [(flags & c & rest & more' & -> & Hflags & Hc & Hdash)|[->| ->]].
  - by rewrite MainFacts.getopt_loop_unknown.
  - reflexivity.
  - reflexivity.
Qed.

End MainRuns.

Lemma main_calls_img2py_witness :
  main "img2py.py" 15 Sample.failing_codec Sample.tempname [] "usage"
    ["-c"; "-n"; "b"; "-F"; "a.png"; "out.py"] Sample.one_image
  = img2py "img2py.py" 15 Sample.failing_codec Sample.tempname
      "a.png" "out.py" false true None "b" false true false None Sample.one_image.
Proof.
  apply (main_calls_img2py "img2py.py" 15 Sample.failing_codec Sample.tempname []
           "usage" [OptCatalog; OptName "b"; OptNotCompatible] ["a.png"; "out.py"]).
  - left. reflexivity.
  - discriminate.
  - reflexivity.
  - reflexivity.
Defined.

Lemma main_rejects_bad_options_witness :
  main "img2py.py" 15 Sample.failing_codec Sample.tempname [] "usage"
    ["-c"; "-ax"; "a.png"; "out.py"] Sample.one_image
  = usage "usage" Sample.one_image.
Proof.
  apply (main_rejects_bad_options "img2py.py" 15 Sample.failing_codec
           Sample.tempname [] "usage" [OptCatalog] ["-ax"; "a.png"; "out.py"]).
  left. exists "a", "x"%char, "", ["a.png"; "out.py"].
  split; [reflexivity|]. split; [reflexivity|]. split; [reflexivity|discriminate].
Defined.

(** ** More on the identifier (source lines 125-131) *)

Module SanitizeFacts.

(** the letters of a string of letters, digits and underscores are its
    characters *)
Lemma letters_of_ident_chars (v : string) :
  Str.all_chars ident_char v = true → letters_of v = list_ascii_of_string v.
Proof.
  unfold letters_of. induction v as [|c v IH]; [done|].
  cbn [Str.all_chars list_ascii_of_string map]. intros [Hc Hv]%andb_true_iff.
  rewrite (IH Hv). f_equal. unfold ident_char in Hc.
  destruct (Str.isalnum c); [done|]. by apply Ascii.eqb_eq in Hc.
Qed.

(** after the replacement the first letter is no letter and no underscore
    exactly when the name starts with a digit *)
Lemma first_letter_digit (c : ascii) :
  let first := if Str.isalnum c then c else "_"%char in
  negb (Str.isalpha first) && negb (Ascii.eqb first "_") = Str.is_digit c.
Proof.
  destruct c as [[] [] [] [] [] [] [] []]; reflexivity.
Qed.

(** an identifier is left as it is *)
Lemma identifier_fixed (v : string) :
  is_identifier v = true → _replace_non_alphanumeric_with_underscore v = Ok v.
Proof.
  intros Hid. pose proof (RecordFacts.is_identifier_chars v Hid) as Hchars.
  unfold _replace_non_alphanumeric_with_underscore.
  rewrite (letters_of_ident_chars v Hchars).
  destruct v as [|c v]; [discriminate Hid|].
  cbn [list_ascii_of_string]. unfold is_identifier in Hid.
  apply andb_true_iff in Hid as [Hstart _]. unfold ident_start in Hstart.
  replace (negb (Str.isalpha c) && negb (Ascii.eqb c "_")) with false
    by (by destruct (Str.isalpha c), (Ascii.eqb c "_")).
  change (c :: list_ascii_of_string v) with (list_ascii_of_string (String c v)).
  by rewrite string_of_list_ascii_of_string.
Qed.

End SanitizeFacts.




(** ** The lines that register a name (source lines 107 and 219-225) *)

Module FormFacts.
Import Re StrFacts.

(** what the index pattern matches: blanks, [index], one character,
    [append('], the group, [')] *)
Lemma match_group_form (l g : string) :
  match_group indexPattern l = Some g →
  ∃ ws c post,
    l = ws +:+ "index" +:+ String c ("append('" +:+ g +:+ "')" +:+ post)
    ∧ Str.all_chars Str.isspace ws = true
    ∧ c ≠ LF ∧ g ≠ "" ∧ lacks LF g = true.
Proof.
  unfold match_group, indexPattern. cbn [app go]. intros H.
  destruct (GroupFacts.star_inv _ _ _ _ _ H) as (ws & s1 & -> & Hws & H1). clear H.
  apply (GroupFacts.lit_inv "index" _) in H1 as (s2 & -> & H2).
  cbn [app go] in H2. destruct s2 as [|c s2]; [discriminate H2|].
  destruct (accepts Dot c) eqn:Hc; [|discriminate H2].
  apply (GroupFacts.lit_inv "append('" _) in H2 as (s3 & -> & H3).
  cbn [app go] in H3. destruct s3 as [|a s3]; [discriminate H3|].
  destruct (accepts Dot a) eqn:Ha; [|discriminate H3].
  destruct (GroupFacts.star_inv _ _ _ _ _ H3) as (body & s4 & -> & Hbody & H4).
  clear H3.
  match type of H4 with
  | go _ _ _ _ _ ?cap = _ => remember cap as capv eqn:Hcap
  end.
  apply (GroupFacts.lit_inv "')" [Star Space]) in H4 as (post & -> & H5).
  cbn [go] in H5.
  destruct (GroupFacts.star_inv _ _ _ _ _ H5) as (_ & _ & _ & _ & Hk). clear H5.
  injection Hk as <-.
  set (pre := ws +:+ "index" +:+ String c "append('").
  match type of Hcap with
  | _ = Str.take ?n (Str.drop ?m ?subj) =>
      assert (Hn : n = String.length (String a body))
        by (cbn [String.length]; lia);
      assert (Hm : m = String.length pre)
        by (unfold pre; rewrite !length_sapp; cbn [String.length]; lia);
      assert (Hsubj : subj = pre +:+ (String a body +:+ "')" +:+ post))
        by (unfold pre; by rewrite !sapp_assoc);
      rewrite Hn, Hm, Hsubj, drop_app, take_app in Hcap
  end.
  subst capv.
  exists ws, c, post. split; [reflexivity|].
  split; [exact Hws|]. split.
  { intros ->. discriminate Hc. }
  split; [done|].
  rewrite lacks_cons. change (negb (Ascii.eqb a LF)) with (accepts Dot a).
  rewrite Ha. by apply GroupFacts.all_chars_dot.
Qed.

End FormFacts.



(** ** The edges of the fast path (source lines 110-122) *)

Section Edges.
Variable img2img_convert :
  string → option string → option string → option string → N → string →
  M (bool * string).

(** X5: the destination is opened for writing before the source is read: when
    the two are the same file, the file ends up empty, whatever it held, and
    [convert] reports success *)
Theorem convert_onto_itself_empties
    (fileName : string) (outputDir outputName : option string)
    (outType : N) (outExt : string) (w : world) :
  Str.endswith (Str.upper fileName) (Str.upper outExt) = true →
  new_name fileName outputDir outputName outExt = Ok fileName →
  ∃ w',
    convert img2img_convert fileName None outputDir outputName outType outExt w
    = (Ok (true, "ok"), w')
    ∧ files w' = <[fileName := ""]> (files w)
    ∧ stdout w' = stdout w.
Proof.
  intros Hext Hnew. unfold convert.
  rewrite bool_decide_true by done. rewrite Hext. cbn [andb]. rewrite Hnew.
  erewrite Run.bind_ok by reflexivity.
  erewrite Run.bind_ok by apply Run.open_write_st.
  erewrite Run.bind_ok by apply Run.read_file_st_same.
  erewrite Run.bind_ok by apply Run.write_st.
  eexists. split; [reflexivity|]. by split.
Qed.

(** X6: a source that does not exist: the destination is created, or emptied,
    and [FileNotFoundError] is raised for the source *)
Theorem convert_missing_source
    (fileName : string) (outputDir outputName : option string)
    (outType : N) (outExt : string) (w : world) (newname : string) :
  Str.endswith (Str.upper fileName) (Str.upper outExt) = true →
  new_name fileName outputDir outputName outExt = Ok newname →
  newname ≠ fileName →
  files w !! fileName = None →
  ∃ w',
    convert img2img_convert fileName None outputDir outputName outType outExt w
    = (Raise (FileNotFoundError fileName), w')
    ∧ files w' = <[newname := ""]> (files w)
    ∧ stdout w' = stdout w.
Proof.
  intros Hext Hnew Hne Hmissing. unfold convert.
  rewrite bool_decide_true by done. rewrite Hext. cbn [andb]. rewrite Hnew.
  erewrite Run.bind_ok by reflexivity.
  erewrite Run.bind_ok by apply Run.open_write_st.
  erewrite Run.bind_raise; cycle 1.
  { unfold read_file, st. cbn [files].
    by rewrite lookup_insert_ne, Hmissing. }
  eexists. split; [reflexivity|]. by split.
Qed.

(** X7: without an output name and without an output directory the fast path
    raises [TypeError] and leaves the files and the output as they are; an
    empty output name counts as none *)
Theorem convert_without_destination
    (fileName : string) (outputName : option string)
    (outType : N) (outExt : string) (w : world) :
  Str.endswith (Str.upper fileName) (Str.upper outExt) = true →
  outputName = None ∨ outputName = Some "" →
  convert img2img_convert fileName None None outputName outType outExt w
  = (Raise TypeError, w).
Proof.
  intros Hext Hname. unfold convert.
  rewrite bool_decide_true by done. rewrite Hext. cbn [andb].
  by destruct Hname as [-> | ->].
Qed.

End Edges.

Lemma convert_onto_itself_witness :
  ∃ w',
    convert Sample.failing_codec "a.png" None None (Some "a.png") 15 ".png"
      Sample.one_image = (Ok (true, "ok"), w')
    ∧ files w' = <["a.png" := ""]> (files Sample.one_image)
    ∧ stdout w' = stdout Sample.one_image.
Proof.
  apply (convert_onto_itself_empties Sample.failing_codec "a.png" None
           (Some "a.png") 15 ".png" Sample.one_image); reflexivity.
Defined.

Lemma convert_missing_source_witness :
  ∃ w',
    convert Sample.failing_codec "b.png" None None (Some "/tmp/t") 15 ".png"
      Sample.one_image = (Raise (FileNotFoundError "b.png"), w')
    ∧ files w' = <["/tmp/t" := ""]> (files Sample.one_image)
    ∧ stdout w' = stdout Sample.one_image.
Proof.
  apply (convert_missing_source Sample.failing_codec "b.png" None
           (Some "/tmp/t") 15 ".png" Sample.one_image "/tmp/t");
    [reflexivity|reflexivity|discriminate|reflexivity].
Defined.

Lemma convert_without_destination_witness :
  convert Sample.failing_codec "a.png" None None (Some "") 15 ".png"
    Sample.one_image = (Raise TypeError, Sample.one_image).
Proof.
  apply (convert_without_destination Sample.failing_codec "a.png" (Some "") 15
           ".png" Sample.one_image); [reflexivity|by right].
Defined.

(** ** The conversion of a PNG file (source lines 185-208) *)

Module ConversionFacts.

(** the payload of some bytes reads back as these bytes *)
Lemma payload_decodes (B : list byte) :
  ∃ text, encode_payload B = Some text ∧ decode_literals text = Some B.
Proof.
  destruct (EncoderFacts.encode_lines_spec B) as (ls & Hls & Hcat & Hlf & Hnil).
  unfold encode_payload. rewrite Hls. cbn [fmap option_fmap option_map].
  eexists. split; [reflexivity|].
  unfold decode_literals, payload_literals, payload_chunks, Base64.b64decode_str.
  destruct ls as [|l ls].
  - destruct Hnil as [_ Hnil]. specialize (Hnil eq_refl).
    rewrite Hnil in Hcat. cbn in Hcat.
    assert (B = []) as -> by (destruct B as [|a [|b [|c r]]]; done).
    reflexivity.
  - rewrite StrFacts.split_nl_join by done.
    rewrite Hcat, list_byte_of_string_of_list_byte.
    apply Base64Facts.b64decode_b64encode.
Qed.

Section Png.
Variable BITMAP_TYPE_PNG : N.
Variable img2img_convert :
  string → option string → option string → option string → N → string →
  M (bool * string).
Variable tempname : gmap string string → string.

(** the temporary file is made, filled with the image, read and removed:
    the files and the output are as before *)
Lemma conversion_png image_file c w :
  Str.endswith (Str.upper image_file) ".PNG" = true →
  files w !! image_file = Some c →
  files w !! tempname (files w) = None →
  tempname (files w) ≠ "" →
  ∃ data,
    encode_payload (list_byte_of_string c) = Some data
    ∧ decode_literals data = Some (list_byte_of_string c)
    ∧ conversion_phase BITMAP_TYPE_PNG img2img_convert tempname image_file None w
      = (Ok (Some data), w).
Proof.
  intros Hext Himg Hfresh Hname.
  destruct (payload_decodes (list_byte_of_string c)) as (data & Hdata & Hback).
  exists data. split; [exact Hdata|]. split; [exact Hback|].
  rewrite Run.conversion_phase_run. set (tf := tempname (files w)) in *.
  assert (Hne : tf ≠ image_file) by (intros Heq; rewrite Heq, Himg in Hfresh; done).
  unfold encode_phase.
  erewrite Run.bind_ok; cycle 1.
  { apply (Run.convert_fast_path _ _ _ _ _ _ _ c tf); [exact Hext| |].
    - unfold set_file. cbn [files]. by rewrite lookup_insert_ne.
    - unfold new_name, truthy. apply String.eqb_neq in Hname. by rewrite Hname. }
  rewrite decide_False by done. cbn [negb].
  erewrite Run.bind_ok by apply Run.read_file_st_same.
  rewrite Hdata. cbn [fst snd ret]. f_equal.
  unfold st, set_file. cbn [files stdout].
  rewrite delete_insert_eq, delete_insert_eq, delete_id by done.
  apply Run.world_eta.
Qed.

(** the image does not exist: [FileNotFoundError], and the files and the
    output are as before *)
Lemma conversion_missing image_file w :
  Str.endswith (Str.upper image_file) ".PNG" = true →
  files w !! image_file = None →
  files w !! tempname (files w) = None →
  tempname (files w) ≠ "" →
  tempname (files w) ≠ image_file →
  conversion_phase BITMAP_TYPE_PNG img2img_convert tempname image_file None w
  = (Raise (FileNotFoundError image_file), w).
Proof.
  intros Hext Himg Hfresh Hname Hne.
  rewrite Run.conversion_phase_run. set (tf := tempname (files w)) in *.
  unfold encode_phase.
  erewrite Run.bind_raise; cycle 1.
  { unfold convert. rewrite bool_decide_true by done.
    change (Str.upper ".png") with ".PNG". rewrite Hext. cbn [andb].
    unfold new_name, truthy. apply String.eqb_neq in Hname. rewrite Hname.
    cbn [negb default].
    erewrite Run.bind_ok by reflexivity.
    erewrite Run.bind_ok by apply Run.open_write_st.
    erewrite Run.bind_raise; [reflexivity|].
    unfold read_file, st, set_file. cbn [files].
    by rewrite !lookup_insert_ne, Himg. }
  cbn [fst snd]. f_equal.
  unfold st, set_file. cbn [files stdout].
  rewrite delete_insert_eq, delete_insert_eq, delete_id by done.
  apply Run.world_eta.
Qed.

End Png.
End ConversionFacts.

(** ** Whole invocations on PNG files *)

Module InvocationFacts.

(** a text with a marker line has a positive number of them *)
Lemma has_marker_positive (ls : list string) :
  has_marker ls = true ↔ marker_count ls ≠ 0%nat.
Proof.
  unfold marker_count, has_marker. induction ls as [|l ls IH]; [done|].
  cbn [List.filter existsb]. destruct (String.eqb l marker_line); [done|].
  exact IH.
Qed.

Lemma has_marker_app (l1 l2 : list string) :
  has_marker (l1 ++ l2) = has_marker l1 || has_marker l2.
Proof. apply existsb_app. Qed.

(** the marker line of the catalog start is a line of the text, whatever
    the text ends with *)
Lemma has_marker_start (old : string) (ls : list string) :
  Forall full_line ls →
  has_marker (text_lines (old +:+ catalog_start_text +:+ String.concat "" ls)) = true.
Proof.
  intros Hls. rewrite TextFacts.catalog_start_text_lines.
  change (String LF ?a +:+ ?b) with (String LF (a +:+ b)).
  rewrite <- PayloadFacts.concat_empty_app.
  assert (Hfull : Forall full_line (catalog_start_lines ++ ls)).
  { apply Forall_app. split; [|done]. TextFacts.each_line ltac:(by split). }
  set (t := String.concat "" (catalog_start_lines ++ ls)).
  assert (Hsplit : splitlines t = catalog_start_lines ++ ls)
    by by apply TextFacts.full_lines_splitlines.
  assert (Hcr : lacks CR t = true) by by apply TextFacts.full_lines_no_CR.
  unfold text_lines.
  destruct (LineFacts.universal_newlines_app_LF old t) as (t' & -> & [->| ->]);
    rewrite (LineFacts.universal_newlines_id t) by done.
  - destruct (LineFacts.splitlines_app (String.length (universal_newlines old))
                (universal_newlines old) (String LF t) nl (catalog_start_lines ++ ls)
                (le_n _)) as (init & p & _ & _ & ->).
    { change (splitlines (String LF t)) with (nl :: splitlines t).
      by rewrite Hsplit. }
    rewrite has_marker_app. apply orb_true_iff. right.
    cbn [has_marker existsb catalog_start_lines app].
    rewrite String.eqb_refl. by rewrite !orb_true_r.
  - cbn [catalog_start_lines app] in Hsplit.
    destruct (LineFacts.splitlines_app (String.length (universal_newlines old))
                (universal_newlines old) t _ _ (le_n _) Hsplit)
      as (init & p & _ & _ & ->).
    rewrite has_marker_app. apply orb_true_iff. right.
    cbn [has_marker existsb catalog_start_lines app].
    rewrite String.eqb_refl. by rewrite !orb_true_r.
Qed.

End InvocationFacts.

Module StdoutFacts.

Lemma write_stdout s f l :
  write Stdout s (World f l) = (Ok tt, World f (l ++ [s])).
Proof. reflexivity. Qed.

Ltac out := erewrite Run.bind_ok by apply write_stdout.

Section Emit.
Variable argv0 : string.

Lemma write_preamble_stdout append catalog f l :
  write_preamble argv0 Stdout append catalog (World f l)
  = (Ok tt, World f (l ++ preamble_pieces argv0 append catalog)).
Proof.
  unfold write_preamble, preamble_pieces.
  destruct append; cbn [negb]; [unfold ret; by rewrite app_nil_r|].
  out. out. destruct catalog.
  - out. rewrite write_stdout. by rewrite <- !app_assoc.
  - unfold ret. by rewrite <- !app_assoc.
Qed.

Lemma write_registration_stdout N var catalog f l :
  write_registration Stdout N var catalog [] (World f l)
  = (Ok (if catalog then [N] else []),
     World f (l ++ registration_lines N var catalog)).
Proof.
  unfold write_registration, registration_lines. destruct catalog.
  - cbn [Str.mem existsb]. erewrite Run.bind_ok by reflexivity.
    out. out. unfold ret. by rewrite <- !app_assoc.
  - unfold ret. by rewrite app_nil_r.
Qed.

Lemma write_accessors_stdout var icon fc f l :
  write_accessors Stdout var icon fc (World f l)
  = (Ok tt, World f (l ++ accessor_lines var icon fc)).
Proof.
  unfold write_accessors, accessor_lines. destruct fc.
  - out. out. out. destruct icon.
    + rewrite write_stdout. by rewrite <- !app_assoc.
    + unfold ret. by rewrite <- !app_assoc.
  - unfold ret. by rewrite app_nil_r.
Qed.

Lemma write_image_stdout N data append icon catalog fc f l var :
  _replace_non_alphanumeric_with_underscore N = Ok var →
  _write_image argv0 Stdout N data append icon catalog fc [] (World f l)
  = (Ok (if catalog then [N] else []),
     World f (l ++ image_pieces argv0 N var data append icon catalog fc)).
Proof.
  intros Hs. unfold _write_image.
  out. erewrite Run.bind_ok by apply write_preamble_stdout.
  rewrite Hs. erewrite Run.bind_ok by reflexivity.
  out. erewrite Run.bind_ok by apply write_registration_stdout.
  erewrite Run.bind_ok by apply write_accessors_stdout.
  out. unfold ret, image_pieces. by rewrite <- !app_assoc.
Qed.

(** the pieces make up the text of the record *)
Lemma image_pieces_text N var data append icon catalog fc :
  String.concat "" (image_pieces argv0 N var data append icon catalog fc)
  = image_text argv0 N var data append icon catalog fc.
Proof.
  unfold image_pieces, image_text, preamble_pieces, preamble_text, record_text,
    registration_lines, accessor_lines, accessors_text, scaffold_text.
  destruct append, catalog, fc, icon; cbn [app String.concat];
    by rewrite ?StrFacts.sapp_assoc, ?StrFacts.sapp_nil_r.
Qed.

End Emit.
End StdoutFacts.

Section Invocations.
Variable argv0 : string.
Variable BITMAP_TYPE_PNG : N.
Variable img2img_convert :
  string → option string → option string → option string → N → string →
  M (bool * string).
Variable tempname : gmap string string → string.

Abbreviation conversion_phase_ :=
  (conversion_phase BITMAP_TYPE_PNG img2img_convert tempname).
Abbreviation img2py_ := (img2py argv0 BITMAP_TYPE_PNG img2img_convert tempname).

(** the emission on standard output *)
Lemma emit_phase_stdout image_file append maskClr imgName icon catalog fc data
    w var :
  _replace_non_alphanumeric_with_underscore (resolved_name imgName image_file)
  = Ok var →
  let name := resolved_name imgName image_file in
  emit_phase argv0 image_file "-" append maskClr imgName icon catalog fc data [] w
  = (Ok tt,
     World (files w)
       (stdout w ++ name_warning imgName image_file
          ++ image_pieces argv0 name var data append icon catalog fc
          ++ [summary_line image_file "-" maskClr name])).
Proof.
  intros Hvar name. unfold emit_phase.
  assert (Hname :
    (if String.eqb imgName "" then
       let imgName0 := Path.splitext_root (Path.basename image_file) in
       print (nl +:+ "Warning: -n not specified. Using filename (" +:+ imgName0
              +:+ ") for name of image and/or catalog entry.");;
       ret imgName0
     else ret imgName) w
    = (Ok name, World (files w) (stdout w ++ name_warning imgName image_file))).
  { unfold name, name_warning, resolved_name.
    destruct (String.eqb imgName ""); [reflexivity|].
    unfold ret. by rewrite (right_id_L [] (++)), Run.world_eta. }
  erewrite Run.bind_ok by exact Hname. clear Hname.
  change (String.eqb "-" "-") with true. cbn match.
  erewrite Run.bind_ok by (by apply StdoutFacts.write_image_stdout).
  unfold print, summary_line. cbn [files stdout].
  by rewrite <- !(assoc_L (++)).
Qed.

(** X11: with [-] for the Python file the record is written to the standard
    output, between the warning about the name and the last message, piece
    by piece; no file is read, made or changed after the conversion, also
    in append and catalog mode, and no name counts as known *)
Theorem img2py_to_stdout
    (image_file : string) (append compressed : bool)
    (maskClr : option string) (imgName : string)
    (icon catalog functionCompatible : bool) (functionCompatibile : option bool)
    (w w1 : world) (data var : string) :
  conversion_phase_ image_file maskClr w = (Ok (Some data), w1) →
  let name := resolved_name imgName image_file in
  let fc := default functionCompatible functionCompatibile in
  _replace_non_alphanumeric_with_underscore name = Ok var →
  ∃ pieces,
    img2py_ image_file "-" append compressed maskClr imgName icon catalog
      functionCompatible functionCompatibile w
    = (Ok tt,
       World (files w1)
         (stdout w1 ++ name_warning imgName image_file ++ pieces
            ++ [summary_line image_file "-" maskClr name]))
    ∧ String.concat "" pieces
      = image_text argv0 name var data append icon catalog fc.
Proof.
  intros Hc name fc Hvar.
  exists (image_pieces argv0 name var data append icon catalog fc).
  split; [|apply StdoutFacts.image_pieces_text].
  erewrite Run.img2py_after_conversion by exact Hc.
  erewrite Run.bind_ok; cycle 1.
  { apply Run.reconcile_inactive. unfold reconciles.
    by rewrite andb_false_r. }
  by apply emit_phase_stdout.
Qed.



(** X9: a PNG file that does not exist: [FileNotFoundError] for the image;
    nothing is printed, the artifact is neither made nor changed, and no
    temporary file is left *)
Theorem png_missing_image
    (image_file python_file : string) (append compressed : bool)
    (imgName : string) (icon catalog functionCompatible : bool)
    (functionCompatibile : option bool) (w : world) :
  Str.endswith (Str.upper image_file) ".PNG" = true →
  files w !! image_file = None →
  files w !! tempname (files w) = None →
  tempname (files w) ≠ "" →
  tempname (files w) ≠ image_file →
  img2py_ image_file python_file append compressed None imgName icon catalog
    functionCompatible functionCompatibile w
  = (Raise (FileNotFoundError image_file), w).
Proof.
  intros Hext Himg Hfresh Htf Hne. unfold img2py.
  erewrite Run.bind_raise; [reflexivity|].
  by apply ConversionFacts.conversion_missing.
Qed.


End Invocations.

Lemma img2py_to_stdout_witness :
  ∃ pieces,
    img2py "img2py.py" 15 Sample.failing_codec Sample.tempname
      "a.png" "-" true true None "" false true false None Sample.one_image
    = (Ok tt,
       World (files Sample.one_image)
         (stdout Sample.one_image ++ name_warning "" "a.png" ++ pieces
            ++ [summary_line "a.png" "-" None "a"]))
    ∧ String.concat "" pieces
      = image_text "img2py.py" "a" "a" "    b'aGVsbG8=')" true false true false.
Proof.
  apply (img2py_to_stdout "img2py.py" 15 Sample.failing_codec Sample.tempname
           "a.png" true true None "" false true false None
           Sample.one_image Sample.one_image "    b'aGVsbG8=')" "a").
  - vm_compute. reflexivity.
  - reflexivity.
Defined.



Lemma png_missing_image_witness :
  img2py "img2py.py" 15 Sample.failing_codec Sample.tempname
    "b.png" "out.py" true true None "b" false true false None
    Sample.catalog_artifact
  = (Raise (FileNotFoundError "b.png"), Sample.catalog_artifact).
Proof.
  apply (png_missing_image "img2py.py" 15 Sample.failing_codec Sample.tempname
           "b.png" "out.py" true true "b" false true false None
           Sample.catalog_artifact).
  - reflexivity.
  - vm_compute. reflexivity.
  - vm_compute. reflexivity.
  - discriminate.
  - discriminate.
Defined.


(** ** The name taken from the file name (source lines 233-236) *)

Module PathFacts.
Import StrFacts.

Lemma rfind_lacks (c : ascii) (s : string) :
  lacks c s = true → Str.rfind c s = None.
Proof.
  induction s as [|a s IH]; [done|].
  rewrite lacks_cons. intros [Ha Hs]%andb_true_iff.
  cbn [Str.rfind]. rewrite (IH Hs). apply negb_true_iff in Ha. by rewrite Ha.
Qed.

(** the last occurrence of a character *)
Lemma rfind_last (c : ascii) (a b : string) :
  lacks c b = true → Str.rfind c (a +:+ String c b) = Some (String.length a).
Proof.
  intros Hb. induction a as [|x a IH].
  - cbn [String.append Str.rfind String.length].
    by rewrite (rfind_lacks c b Hb), Ascii.eqb_refl.
  - cbn [String.append Str.rfind String.length]. by rewrite IH.
Qed.

(** [basename]: what follows the last slash *)
Lemma basename_dir (d f : string) :
  lacks "/" f = true → Path.basename (d +:+ String "/" f) = f.
Proof.
  intros Hf. unfold Path.basename. rewrite (rfind_last "/" d f Hf).
  change (S (String.length d)) with (String.length (String "/" d)).
  replace (String.length (String "/" d)) with (String.length (d +:+ "/"))
    by (rewrite length_sapp; cbn [String.length]; lia).
  change (d +:+ String "/" f) with (d +:+ "/" +:+ f).
  rewrite <- sapp_assoc. apply drop_app.
Qed.

Lemma basename_plain (f : string) : lacks "/" f = true → Path.basename f = f.
Proof. intros Hf. unfold Path.basename. by rewrite (rfind_lacks "/" f Hf). Qed.

(** [splitext] of a file name without directory: the root is what stands
    before the last dot, unless only dots stand there *)
Lemma splitext_root_ext (stem ext : string) :
  lacks "/" stem = true → lacks "/" ext = true → lacks "." ext = true →
  Str.all_chars (Ascii.eqb ".") stem = false →
  Path.splitext_root (stem +:+ String "." ext) = stem.
Proof.
  intros Hs He Hdot Hstem. unfold Path.splitext_root.
  rewrite (rfind_lacks "/" (stem +:+ String "." ext)); cycle 1.
  { rewrite lacks_app, Hs, lacks_cons, He. reflexivity. }
  rewrite (rfind_last "." stem ext Hdot).
  rewrite Nat.sub_0_r. cbn [Str.drop].
  rewrite take_app, Hstem.
  destruct stem as [|x stem]; [discriminate Hstem|]. reflexivity.
Qed.

(** the name of an image file [dir/stem.ext], with or without directory *)
Lemma resolved_name_stem (dir stem ext : string) :
  dir = "" ∨ (∃ d, dir = d +:+ "/") →
  lacks "/" stem = true → lacks "/" ext = true → lacks "." ext = true →
  Str.all_chars (Ascii.eqb ".") stem = false →
  Path.splitext_root (Path.basename (dir +:+ stem +:+ String "." ext)) = stem.
Proof.
  intros Hdir Hs He Hdot Hstem.
  assert (Hf : lacks "/" (stem +:+ String "." ext) = true).
  { rewrite lacks_app, Hs, lacks_cons, He. reflexivity. }
  destruct Hdir as [->|[d ->]].
  - cbn [String.append]. rewrite (basename_plain _ Hf). by apply splitext_root_ext.
  - rewrite sapp_assoc. change ("/" +:+ ?x) with (String "/" x).
    rewrite (basename_dir d _ Hf). by apply splitext_root_ext.
Qed.

End PathFacts.

(** X13: without a name the emitter takes the file name of the image, without
    its directories and without its last extension, prints the warning about
    it and goes on as if this name had been given; here the file name is
    [stem.ext], [stem] not being made of dots only *)
Theorem name_from_file_name
    (argv0 dir stem ext python_file : string) (append : bool)
    (maskClr : option string) (icon catalog functionCompatible : bool)
    (data : string) (old_index : list string) (w : world) :
  dir = "" ∨ (∃ d, dir = d +:+ "/") →
  lacks "/" stem = true → lacks "/" ext = true → lacks "." ext = true →
  Str.all_chars (Ascii.eqb ".") stem = false →
  let image_file := dir +:+ stem +:+ String "." ext in
  emit_phase argv0 image_file python_file append maskClr "" icon catalog
    functionCompatible data old_index w
  = emit_phase argv0 image_file python_file append maskClr stem icon catalog
      functionCompatible data old_index
      (World (files w)
         (stdout w ++ [(nl +:+ "Warning: -n not specified. Using filename ("
                           +:+ stem
                           +:+ ") for name of image and/or catalog entry.")
                       +:+ nl])).
Proof.
  intros Hdir Hs He Hdot Hstem image_file. unfold emit_phase.
  change (String.eqb "" "") with true. cbn match.
  unfold image_file.
  rewrite (PathFacts.resolved_name_stem dir stem ext Hdir Hs He Hdot Hstem).
  assert (Hne : String.eqb stem "" = false) by (by destruct stem).
  rewrite Hne. 
  erewrite Run.bind_ok; cycle 1.
  { erewrite Run.bind_ok by reflexivity. reflexivity. }
  erewrite (Run.bind_ok (ret stem)) by reflexivity.
  reflexivity.
Qed.

Lemma name_from_file_name_witness :
  emit_phase "img2py.py" "pics/new/a.b.png" "-" false None "" false false false
    "    b'aGVsbG8=')" [] Sample.one_image
  = emit_phase "img2py.py" "pics/new/a.b.png" "-" false None "a.b" false false
      false "    b'aGVsbG8=')" []
      (World (files Sample.one_image)
         (stdout Sample.one_image
            ++ [(nl +:+ "Warning: -n not specified. Using filename (" +:+ "a.b"
                     +:+ ") for name of image and/or catalog entry.") +:+ nl])).
Proof.
  apply (name_from_file_name "img2py.py" "pics/new/" "a.b" "png" "-" false None
           false false false "    b'aGVsbG8=')" [] Sample.one_image);
    [right; by exists "pics/new"|reflexivity..].
Defined.

(** ** Several images in one file *)

Section Successive.
Variable argv0 : string.
Variable BITMAP_TYPE_PNG : N.
Variable img2img_convert :
  string → option string → option string → option string → N → string →
  M (bool * string).
Variable tempname : gmap string string → string.
Variable python_file : string.
Variable fs : gmap string string.

Hypothesis python_file_not_dash : python_file ≠ "-".
Hypothesis fresh :
  ∀ c, <[python_file := c]> fs !! tempname (<[python_file := c]> fs) = None
       ∧ tempname (<[python_file := c]> fs) ≠ "".

Abbreviation img2py_ := (img2py argv0 BITMAP_TYPE_PNG img2img_convert tempname).
Abbreviation add_images_ :=
  (add_images argv0 BITMAP_TYPE_PNG img2img_convert tempname).

(** one invocation: the artifact gets longer, the scan reads one name more
    and finds the marker line *)
Lemma add_image_run (job : string * string) (old : string) (l : list string) :
  job_ok fs python_file job →
  ∃ new l',
    img2py_ job.1 python_file true true None job.2 false true false None
      (World (<[python_file := old]> fs) l)
    = (Ok tt, World (<[python_file := new]> fs) l')
    ∧ names (text_lines new) = names (text_lines old) ++ [job.2]
    ∧ has_marker (text_lines new) = true.
Proof.
  destruct job as [image_file name]. unfold job_ok. cbn [fst snd].
  intros (Hext & Hne & [c Himg] & Hname & Hlf & Hcr).
  set (w := World (<[python_file := old]> fs) l).
  destruct (fresh old) as [Hfresh Htf].
  destruct (ConversionFacts.conversion_png BITMAP_TYPE_PNG img2img_convert tempname
              image_file c w Hext) as (data & Hdata & _ & Hc);
    [unfold w; cbn [files]; by rewrite lookup_insert_ne|exact Hfresh|exact Htf|].
  destruct (sanitize_defined name Hname) as [var Hvar].
  assert (Hres : resolved_name name image_file = name).
  { unfold resolved_name. apply String.eqb_neq in Hname. by rewrite Hname. }
  pose proof (img2py_append_catalog argv0 BITMAP_TYPE_PNG img2img_convert tempname
                image_file python_file true None name false false None w data w
                old var Hc python_file_not_dash) as Hrun.
  rewrite Hres in Hrun. cbn [default] in Hrun.
  specialize (Hrun ltac:(unfold w; cbn [files]; apply lookup_insert_eq) Hvar).
  assert (Hpayload : is_payload data) by (by eexists).
  eexists _, _. split.
  { rewrite Hrun. unfold st, w. cbn [files]. by rewrite insert_insert_eq. }
  split.
  - pose proof (TextFacts.names_after_append argv0 old name var data false true
                  false (negb (has_marker (text_lines old))) Hvar Hlf Hcr
                  Hpayload) as Hnames.
    by destruct (has_marker (text_lines old)).
  - destruct (has_marker (text_lines old)) eqn:Hm.
    + apply InvocationFacts.has_marker_positive.
      change ("" +:+ ?x) with x.
      pose proof (TextFacts.marker_count_after_append argv0 old name var data
                    false true false Hvar Hlf Hcr Hpayload) as Hcount.
      change (image_text argv0 ?n ?v ?d true ?i ?c ?f)
        with (separator +:+ record_text n v d i c f) in Hcount.
      rewrite Hcount. by apply InvocationFacts.has_marker_positive.
    + destruct (PayloadFacts.payload_lines data Hpayload) as (dl & Hdl & Hpl).
      pose proof (TextFacts.image_text_lines argv0 name var data dl false true
                    false Hdl) as Htext.
      change (image_text argv0 ?n ?v ?d true ?i ?c ?f)
        with (separator +:+ record_text n v d i c f) in Htext.
      rewrite Htext.
      apply InvocationFacts.has_marker_start, TextFacts.good_full.
      by apply TextFacts.record_lines_good.
Qed.

(** the invocations one after the other *)
Lemma add_images_run (jobs : list (string * string)) :
  Forall (job_ok fs python_file) jobs →
  ∀ old l,
    ∃ new l',
      add_images_ python_file jobs (World (<[python_file := old]> fs) l)
      = (Ok tt, World (<[python_file := new]> fs) l')
      ∧ names (text_lines new) = names (text_lines old) ++ jobs.*2
      ∧ (jobs ≠ [] → has_marker (text_lines new) = true).
Proof.
  induction 1 as [|job jobs Hjob Hjobs IH]; intros old l.
  - exists old, l. split; [reflexivity|]. split; [by rewrite app_nil_r|done].
  - destruct (add_image_run job old l Hjob) as (mid & l1 & Hrun & Hnames & Hmark).
    destruct (IH mid l1) as (new & l' & Hrest & Hnames' & Hmark').
    exists new, l'. destruct job as [image_file name]. cbn [add_images].
    cbn [fst snd] in Hrun, Hnames.
    erewrite Run.bind_ok by exact Hrun. split; [exact Hrest|]. split.
    + rewrite Hnames', Hnames. cbn [fmap list_fmap snd]. by rewrite <- app_assoc.
    + intros _. destruct jobs as [|j js].
      * cbn [add_images] in Hrest. injection Hrest as Heq _.
        apply (f_equal (λ m, m !! python_file)) in Heq.
        rewrite !lookup_insert_eq in Heq. by injection Heq as <-.
      * by apply Hmark'.
Qed.

End Successive.



(** ** The lines the index pattern matches *)

Module MatchFacts.
Import Re StrFacts.

(** a repetition that succeeds further on takes the characters before *)
Lemma star_app_some {A} (p : ascii → bool) (k : string → nat → option A) (v : A)
    (ws : string) :
  Str.all_chars p ws = true →
  ∀ rest pos,
    star p k rest (pos + String.length ws)%nat = Some v →
    star p k (ws +:+ rest) pos = Some v.
Proof.
  induction ws as [|a ws IH]; intros Hws rest pos Hk.
  - by rewrite Nat.add_0_r in Hk.
  - cbn [Str.all_chars] in Hws. apply andb_true_iff in Hws as [Ha Hws].
    cbn [String.append star]. rewrite Ha.
    rewrite (IH Hws rest (S pos)); [done|].
    cbn [String.length] in Hk. by rewrite Nat.add_succ_r in Hk.
Qed.

Lemma star_cons {A} (p : ascii → bool) (k : string → nat → option A)
    (a : ascii) (s : string) (pos : nat) :
  star p k (String a s) pos
  = if p a then
      match star p k s (S pos) with
      | Some x => Some x
      | None => k (String a s) pos
      end
    else k (String a s) pos.
Proof. reflexivity. Qed.

(** literal characters are matched one by one *)
Lemma lit_app (x : string) (r : regex) :
  ∀ s0 s pos g cap,
    go (lit x ++ r) s0 (x +:+ s) pos g cap
    = go r s0 s (pos + String.length x)%nat g cap.
Proof.
  induction x as [|c x IH]; intros s0 s pos g cap.
  - by rewrite Nat.add_0_r.
  - cbn [lit app go String.append accepts]. rewrite Ascii.eqb_refl, IH.
    cbn [String.length]. by rewrite Nat.add_succ_r.
Qed.

(** the group ends at the last [')]: after a rest without ['] no later end
    is found *)
Lemma star_dot_post (s0 : string) (g : nat) (post : string) :
  lacks "'" post = true →
  ∀ N pos, lacks LF N = true →
    star (accepts Dot) (λ s1 pos1, go closing s0 s1 pos1 g "")
      (N +:+ "')" +:+ post) pos
    = Some (Str.take (pos + String.length N - g) (Str.drop g s0)).
Proof.
  intros Hpost. induction N as [|a N IH]; intros pos HN.
  - rewrite Nat.add_0_r.
    change ("" +:+ "')" +:+ post) with (String "'" (String ")" post)).
    rewrite star_cons. change (accepts Dot "'") with true. cbn match.
    assert (Hl : lacks "'" (String ")" post) = true)
      by (by rewrite lacks_cons, Hpost).
    rewrite (ReFacts.star_fail (accepts Dot)
               (λ s1 pos1, go closing s0 s1 pos1 g "") "'"
               (λ s p Hs, ReFacts.go_needs_quote closing s0 s p g "" eq_refl Hs)
               _ _ Hl).
    unfold closing. cbn [app go].
    change (String "'" (String ")" post)) with ("')" +:+ post).
    rewrite (lit_app "')" [Star Space]). cbn [go].
    by apply ReFacts.star_some.
  - rewrite lacks_cons in HN. apply andb_true_iff in HN as [Ha HN].
    rewrite !sapp_cons, star_cons. cbn [accepts]. fold LF. rewrite Ha.
    rewrite IH by done. cbn [String.length]. by rewrite Nat.add_succ_r.
Qed.

(** blanks, [index], one character, [append('], a name, [')] and a rest
    without [']: the group is the name *)
Lemma match_group_index (ws : string) (c : ascii) (N post : string) :
  Str.all_chars Str.isspace ws = true →
  c ≠ LF → N ≠ "" → lacks LF N = true → lacks "'" post = true →
  match_group indexPattern
    (ws +:+ "index" +:+ String c ("append('" +:+ N +:+ "')" +:+ post))
  = Some N.
Proof.
  intros Hws Hc Hne HN Hpost. destruct N as [|a N]; [done|].
  rewrite lacks_cons in HN. apply andb_true_iff in HN as [Ha HN].
  unfold match_group, indexPattern.
  set (s0 := ws +:+ "index" +:+ String c ("append('" +:+ String a N +:+ "')" +:+ post)).
  cbn [app go].
  apply star_app_some; [exact Hws|].
  change ("index" +:+ ?x) with (String "i" ("ndex" +:+ x)).
  rewrite star_cons. change (accepts Space "i") with false. cbn match.
  change (String "i" ("ndex" +:+ ?x)) with ("index" +:+ x).
  rewrite (lit_app "index").
  cbn [app go accepts]. fold LF.
  apply Ascii.eqb_neq in Hc. rewrite Hc. cbn [negb].
  rewrite (lit_app "append('").
  cbn [app go]. rewrite sapp_cons. cbn [accepts]. fold LF. rewrite Ha.
  pose proof (star_dot_post s0
                (S (0 + String.length ws + String.length "index")
                 + String.length "append('") post Hpost N
                (S (S (0 + String.length ws + String.length "index")
                    + String.length "append('")) HN) as Hstar.
  refine (eq_trans Hstar _). f_equal.
  set (pre := ws +:+ "index" +:+ String c "append('").
  replace s0 with (pre +:+ (String a N +:+ "')" +:+ post))
    by (unfold pre, s0; by rewrite !sapp_assoc).
  replace (S (0 + String.length ws + String.length "index")
           + String.length "append('")%nat with (String.length pre)
    by (unfold pre; rewrite !length_sapp; cbn [String.length]; lia).
  replace (S (String.length pre) + String.length N - String.length pre)%nat
    with (String.length (String a N)) by (cbn [String.length]; lia).
  by rewrite drop_app, take_app.
Qed.

End MatchFacts.

(** X18: a line made of blanks, [index], one character that is no line feed,
    [append('], a name, [')] and a rest without ['] adds the name to the
    known names: the line may be indented, the dot may be any character, and
    a comment may follow *)
Theorem scan_line_registers (ws : string) (c : ascii) (N post : string)
    (append_catalog : bool) (old_index : list string) :
  Str.all_chars Str.isspace ws = true →
  c ≠ LF → N ≠ "" → lacks LF N = true → lacks "'" post = true →
  scan_line (append_catalog, old_index)
    (ws +:+ "index" +:+ String c ("append('" +:+ N +:+ "')" +:+ post))
  = (append_catalog, old_index ++ [N]).
Proof.
  intros Hws Hc Hne HN Hpost. unfold scan_line.
  rewrite (MatchFacts.match_group_index ws c N post Hws Hc Hne HN Hpost).
  fold marker_line.
  rewrite (RecordFacts.not_marker_char "'"); [reflexivity|reflexivity|].
  rewrite StrFacts.lacks_app. apply andb_false_intro2.
  rewrite StrFacts.lacks_app. apply andb_false_intro2.
  rewrite StrFacts.lacks_cons. apply andb_false_intro2.
  rewrite StrFacts.lacks_app. by apply andb_false_intro1.
Qed.

Lemma scan_line_registers_witness :
  scan_line (true, ["a"]) ("    index_append('b') # second" +:+ nl)
  = (true, ["a"; "b"]).
Proof.
  apply (scan_line_registers "    " "_" "b" (" # second" +:+ nl) true ["a"]);
    [reflexivity|discriminate|discriminate|reflexivity|reflexivity].
Defined.

(** ** Names that are new, and errors of the codec *)

Section Outcomes.
Variable argv0 : string.
Variable BITMAP_TYPE_PNG : N.
Variable img2img_convert :
  string → option string → option string → option string → N → string →
  M (bool * string).
Variable tempname : gmap string string → string.

Abbreviation conversion_phase_ :=
  (conversion_phase BITMAP_TYPE_PNG img2img_convert tempname).
Abbreviation img2py_ := (img2py argv0 BITMAP_TYPE_PNG img2img_convert tempname).


(** X8: an exception of the codec goes through [img2py] after the temporary
    file is removed: nothing is printed by [img2py], and the artifact is not
    opened *)
Theorem codec_error_propagates
    (image_file python_file : string) (append compressed : bool)
    (maskClr : option string) (imgName : string)
    (icon catalog functionCompatible : bool) (functionCompatibile : option bool)
    (w wc : world) (e : exn) :
  let tf := tempname (files w) in
  convert img2img_convert image_file maskClr None (Some tf) BITMAP_TYPE_PNG
    ".png" (set_file tf "" w) = (Raise e, wc) →
  img2py_ image_file python_file append compressed maskClr imgName icon
    catalog functionCompatible functionCompatibile w
  = (Raise e, World (delete tf (files wc)) (stdout wc)).
Proof.
  intros tf Hconv. unfold img2py.
  erewrite Run.bind_raise; [reflexivity|].
  rewrite Run.conversion_phase_run. fold tf.
  unfold encode_phase. by erewrite Run.bind_raise by exact Hconv.
Qed.

End Outcomes.


Lemma codec_error_propagates_witness :
  let codec := λ (_ : string) (_ _ _ : option string) (_ : N) (_ : string),
                 raise (ExternalError "unreadable") : M (bool * string) in
  let wc := set_file "/tmp/tmp0" "" Sample.one_image in
  img2py "img2py.py" 15 codec Sample.tempname
    "a.bmp" "out.py" false true None "a" false false false None Sample.one_image
  = (Raise (ExternalError "unreadable"),
     World (delete "/tmp/tmp0" (files wc)) (stdout wc)).
Proof.
  intros codec wc.
  apply (codec_error_propagates "img2py.py" 15 codec Sample.tempname
           "a.bmp" "out.py" false true None "a" false false false None
           Sample.one_image wc (ExternalError "unreadable")).
  reflexivity.
Defined.
